(** * Podd database support functions (Database.cxx): a shallow embedding

    The development follows the layout of [src/Database/Database.cxx]:
    character classes and [std::string] primitives, the tag recognizers
    ([IsDBdate], [IsDBkey], [IsAssignment], [ChopPrefix]), the line reader
    ([GetLine], [prepare_line], [ReadDBline]), the value resolver
    ([LoadDBvalue]), the typed converters ([convert_string], [is_in_range],
    [LoadDBarray], [LoadDBmatrix]), the request loader ([LoadDatabase]) and
    the path resolver ([GetDBFileList]).  Theorems come after all
    definitions. *)

From Stdlib Require Import ZArith List String Ascii Bool Arith Lia.
Import ListNotations.
Open Scope string_scope.
Open Scope Z_scope.

(* ====================================================================== *)
(** ** Characters ([<cctype>] in the "C" locale) *)

Definition chr (c : ascii) : nat := nat_of_ascii c.

(** [isspace]: space, \t, \n, \v, \f, \r. *)
Definition isspace (c : ascii) : bool :=
  let n := chr c in
  orb (Nat.eqb n 32) (andb (Nat.leb 9 n) (Nat.leb n 13)).

(** [isdigit]: '0' .. '9'. *)
Definition isdigit (c : ascii) : bool :=
  let n := chr c in andb (Nat.leb 48 n) (Nat.leb n 57).

Definition digit_val (c : ascii) : Z := Z.of_nat (chr c) - 48.

Definition SP : ascii := " "%char.
Definition TAB : ascii := ascii_of_nat 9.
Definition LF : ascii := ascii_of_nat 10.
Definition NUL : ascii := ascii_of_nat 0.

(* ====================================================================== *)
(** ** [std::string] and C-string primitives *)

Definition slen (s : string) : nat := String.length s.

(** [s.c_str()] seen through the C string functions: the bytes up to the
    first NUL. *)
Fixpoint c_str (s : string) : string :=
  match s with
  | EmptyString => EmptyString
  | String c r => if Ascii.eqb c NUL then EmptyString else String c (c_str r)
  end.

(** [s.find(c)] / [strchr(s, c)]: index of the first [c], if any. *)
Fixpoint find_char (c : ascii) (s : string) : option nat :=
  match s with
  | EmptyString => None
  | String x r =>
      if Ascii.eqb x c then Some O
      else match find_char c r with Some i => Some (S i) | None => None end
  end.

(** [s.find(c, pos)]. *)
Definition find_char_from (c : ascii) (pos : nat) (s : string) : option nat :=
  match find_char c (substring pos (slen s - pos) s) with
  | Some i => Some (pos + i)%nat
  | None => None
  end.

(** [s.rfind(c, pos)]: the last index [<= pos] holding [c]. *)
Fixpoint rfind_char (c : ascii) (pos : nat) (s : string) : option nat :=
  match s with
  | EmptyString => None
  | String x r =>
      match pos with
      | O => if Ascii.eqb x c then Some O else None
      | S p =>
          match rfind_char c p r with
          | Some i => Some (S i)
          | None => if Ascii.eqb x c then Some O else None
          end
      end
  end.

(** [s.erase(pos)]: keep the first [pos] characters. *)
Definition erase_from (pos : nat) (s : string) : string := substring 0 pos s.

(** [s.substr(pos)]. *)
Definition substr_from (pos : nat) (s : string) : string :=
  substring pos (slen s - pos) s.

(** [std::count(s.begin(), s.end(), c)]. *)
Fixpoint count_char (c : ascii) (s : string) : nat :=
  match s with
  | EmptyString => O
  | String x r => ((if Ascii.eqb x c then 1 else 0) + count_char c r)%nat
  end.

(** Drop the leading characters satisfying [p] (a [while( p( *c ) ) ++c] loop). *)
Fixpoint skip_while (p : ascii -> bool) (s : string) : string :=
  match s with
  | EmptyString => EmptyString
  | String c r => if p c then skip_while p r else s
  end.

Definition is_blank (c : ascii) : bool := Ascii.eqb c SP.

Fixpoint string_rev_app (s acc : string) : string :=
  match s with
  | EmptyString => acc
  | String c r => string_rev_app r (String c acc)
  end.

Definition string_rev (s : string) : string := string_rev_app s EmptyString.

(** Drop the trailing characters satisfying [p] (a [while( p( *c ) ) --c] loop). *)
Definition drop_trailing (p : ascii -> bool) (s : string) : string :=
  string_rev (skip_while p (string_rev s)).

Definition front (s : string) : option ascii :=
  match s with EmptyString => None | String c _ => Some c end.

Definition back (s : string) : option ascii := front (string_rev s).

Definition is_empty (s : string) : bool :=
  match s with EmptyString => true | _ => false end.

Definition is_empty_list {A : Type} (l : list A) : bool :=
  match l with [] => true | _ => false end.

Definition opt_ascii_eqb (c : option ascii) (d : ascii) : bool :=
  match c with Some c => Ascii.eqb c d | None => false end.

(** [line.push_back(c)]. *)
Definition push_back (s : string) (c : ascii) : string :=
  s ++ String c EmptyString.

(** [line.pop_back()]. *)
Definition pop_back (s : string) : string := erase_from (slen s - 1) s.

(** [strncmp(a, b, n) == 0] on C strings: at most [n] characters are
    compared, and the comparison stops at the terminating NUL of either. *)
Fixpoint strncmp_eq (a b : string) (n : nat) {struct n} : bool :=
  match n with
  | O => true
  | S n' =>
      match a, b with
      | EmptyString, EmptyString => true
      | String x a', String y b' =>
          if Ascii.eqb x y then strncmp_eq a' b' n' else false
      | _, _ => false
      end
  end.

(** Modelled from the spec: [Podd::Trim], which is declared outside
    Database.cxx; the Line Reader "records whether leading or trailing
    whitespace was present before trim; then trims". *)
Definition Trim (s : string) : string :=
  drop_trailing isspace (skip_while isspace s).

(* ====================================================================== *)
(** ** Tag recognizers *)

(** [IsDBkey(line, key, text)]: the status and the new contents of [text]
    (unchanged unless the status is +1). *)
Definition IsDBkey (line key text : string) : Z * string :=
  let ln := c_str line in
  match find_char "="%char ln with
  | None => (0, text)
  | Some eq =>
      (* while( *ln == ' ' ) ++ln; *)
      let lhs := skip_while is_blank (erase_from eq ln) in
      if is_empty lhs then (-1, text)
      else
        (* p = eq - 1; while( *p == ' ' ) --p; *)
        let lhs' := drop_trailing is_blank lhs in
        if negb (strncmp_eq (lhs ++ substr_from eq ln) (c_str key) (slen lhs'))
        then (-1, text)
        else (1, skip_while is_blank (substr_from (S eq) ln))
  end.

(** [IsAssignment(str)]. *)
Definition IsAssignment (str : string) : bool :=
  match find_char "="%char str with
  | None => false
  | Some pos =>
      let nws := (slen str - slen (skip_while isspace str))%nat in
      if Nat.eqb nws pos then false
      else
        let prev := String.get (pos - 1) str in
        let next := String.get (pos + 1) str in
        negb (orb (orb (orb
          (match prev with Some c => Ascii.eqb c "!"%char | None => false end)
          (match prev with Some c => Ascii.eqb c "<"%char | None => false end))
          (match prev with Some c => Ascii.eqb c ">"%char | None => false end))
          (andb (Nat.ltb (pos + 1) (slen str))
                (match next with Some c => Ascii.eqb c "="%char | None => false end)))
  end.

(** [ChopPrefix(s)]: the chopped prefix and the returned number of dots.
    [kMaxInt] is far above any string length, so the count is returned
    as it is. *)
Definition ChopPrefix (s : string) : string * Z :=
  let len := slen s in
  if Nat.leb 2 len then
    match rfind_char "."%char (len - 2) s with
    | Some pos =>
        let s' := erase_from (pos + 1) s in
        (s', Z.of_nat (count_char "."%char s'))
    | None => (EmptyString, 0)
    end
  else (EmptyString, 0).

(** [IsTag(buf)]: the line matches [.*\[.+\].*]. *)
Definition IsTag (buf : string) : bool :=
  match skip_while (fun c => negb (Ascii.eqb c "["%char)) (c_str buf) with
  | EmptyString => false
  | String _ r =>
      match r with
      | EmptyString => false
      | String c r' =>
          if Ascii.eqb c "]"%char then false
          else negb (is_empty (skip_while (fun c => negb (Ascii.eqb c "]"%char)) r'))
      end
  end.

(* ====================================================================== *)
(** ** Time stamps *)

(** Modelled from the spec: ROOT's [TDatime] is declared outside this
    repository; the spec describes it as a "calendar date-time at second
    precision with a total order" whose minimum is 1995-01-01 00:00:00.  A
    value is represented by the decimal number [yyyymmddhhmmss], so the
    order of [TDatime] is the order of [Z]. *)
Definition TDatime : Type := Z.

(** [TDatime(date, time)] with [date] given as [yymmdd] or [yyyymmdd] and
    [time] as [hhmmss]. *)
Definition TDatime_dt (date time : Z) : TDatime :=
  let date := if 500000 <? date then
                (if date <? 19000000 then date + 19000000 else date)
              else date + 20000000 in
  date * 1000000 + time.

(** [date.Set(year, month, day, hour, min, sec)]. *)
Definition TDatime_Set (year month day hour min sec : Z) : TDatime :=
  ((year * 100 + month) * 100 + day) * 1000000 + ((hour * 100 + min) * 100 + sec).

(** [date.GetDate()]: the date as [yyyymmdd]. *)
Definition GetDate (d : TDatime) : Z := d / 1000000.

(** [TDatime(950101, 0)], the initial value of [keydate] and [prevdate]. *)
Definition date_sentinel : TDatime := TDatime_dt 950101 0.

(** [struct tm] (the fields that [IsDBdate] reads). *)
Record tm : Type := mk_tm {
  tm_year : Z;  (* years since 1900 *)
  tm_mon : Z;   (* 0 .. 11 *)
  tm_mday : Z;
  tm_hour : Z;
  tm_min : Z;
  tm_sec : Z
}.

(** The numeric types [T] at which the converters are instantiated. *)
Inductive NumT : Type :=
| TDouble | TFloat | TLong | TULong | TInt | TUInt | TShort | TUShort
| TChar | TByte.

(** What Database.cxx takes from the C library and from the rest of the
    analyzer, as parameters of the embedding:
    - [parse_tm ts]: the outcome of [IsDBdate]'s two [strptime] attempts on
      the bracket contents [ts] (with and without a [%z] field) followed,
      under glibc, by the [mktime] normalisation to local time; [None] when
      [err] is set;
    - [Substitute]: [gHaTextvars->Substitute], [None] for a null
      [gHaTextvars];
    - [strtofp T p]: [strtof], [strtod] or [strtold] (the converted value,
      the number of characters consumed and whether [errno] was set);
    - [fp_in_range T x]: [is_in_range<T>] at a floating-point [T]. *)
Record Externals : Type := mk_ext {
  FP : Type;
  parse_tm : string -> option tm;
  Substitute : option (string -> list string);
  strtofp : NumT -> string -> FP * nat * bool;
  fp_in_range : NumT -> FP -> bool
}.

(** [size_t] arithmetic wraps modulo 2^64. *)
Definition size_t_wrap (z : Z) : Z := z mod 2 ^ 64.

(** What a call does: it returns, it runs into undefined behaviour (an
    integer division by zero), it throws ([std::out_of_range] from
    [vector::at]), or the model ran out of fuel. *)
Inductive behaviour (A : Type) : Type :=
| Returns (a : A)
| Undefined
| Throws
| OutOfFuel.

Arguments Returns {A} a.
Arguments Undefined {A}.
Arguments Throws {A}.
Arguments OutOfFuel {A}.

Section Database.

Variable E : Externals.

(** [IsDBdate(line, date)]: [Some d] when 1 is returned and [date] is set
    to [d], [None] when 0 is returned ([date] unchanged). *)
Definition IsDBdate (line : string) : option TDatime :=
  match find_char "["%char line with
  | None => None
  | Some lbrk =>
      if Z.of_nat lbrk >=? size_t_wrap (Z.of_nat (slen line) - 12) then None
      else
        match find_char_from "]"%char lbrk line with
        | None => None
        | Some rbrk =>
            if Nat.leb rbrk (lbrk + 11) then None
            else
              let ts := substring (lbrk + 1) (rbrk - lbrk - 1) line in
              match parse_tm E ts with
              | None => None
              | Some tmc =>
                  if tm_year tmc <? 95 then None
                  else Some (TDatime_Set (tm_year tmc + 1900) (tm_mon tmc + 1)
                               (tm_mday tmc) (tm_hour tmc) (tm_min tmc)
                               (tm_sec tmc))
              end
        end
  end.

(* ====================================================================== *)
(** ** Line reader *)

(** [EOF] of <cstdio>. *)
Definition EOF : Z := -1.

(** The physical lines that successive calls of [GetLine] deliver from a
    file with the given bytes.  [fgets] fills a buffer of [bufsiz] = 256
    bytes, so a physical line arrives in chunks of at most 255 characters;
    [k] counts the characters of the current chunk.  [strchr] and
    [line.append] see a chunk only up to its first NUL ([dead] records that
    a NUL has been passed in the current chunk), and a newline hidden
    behind a NUL does not end the line.  Tabs become spaces.  [acc] holds
    the line read so far, reversed.  At the end of the file a last line
    without newline is delivered unless it is empty. *)
Fixpoint GetLines_go (bytes : string) (k : nat) (dead : bool) (acc : string)
  : list string :=
  match bytes with
  | EmptyString => if is_empty acc then [] else [string_rev acc]
  | String c rest =>
      let k' := if Nat.leb 255 k then O else k in
      let dead' := if Nat.leb 255 k then false else dead in
      if Ascii.eqb c LF then
        if dead' then GetLines_go rest O false acc
        else string_rev acc :: GetLines_go rest O false EmptyString
      else if dead' then GetLines_go rest (S k') dead' acc
      else if Ascii.eqb c NUL then GetLines_go rest (S k') true acc
      else GetLines_go rest (S k') false
             (String (if Ascii.eqb c TAB then SP else c) acc)
  end.

Definition GetLines (bytes : string) : list string :=
  GetLines_go bytes O false EmptyString.

(** An open file positioned at a line boundary: the physical lines that
    remain to be read.  [fgetpos] and [fsetpos] save and restore this
    list. *)
Definition FILE : Type := list string.

(** [GetLine(file, buf, bufsiz, line)]. *)
Definition GetLine (file : FILE) : Z * string * FILE :=
  match file with
  | [] => (EOF, EmptyString, [])
  | l :: rest => (0, l, rest)
  end.

Record prepared : Type := mk_prepared {
  p_linbuf : string;
  p_comment : bool;
  p_continued : bool;
  p_leading_space : bool;
  p_trailing_space : bool
}.

Definition opt_isspace (c : option ascii) : bool :=
  match c with Some c => isspace c | None => false end.

(** [prepare_line(linbuf, comment, continued, leading_space,
    trailing_space)]; the four flags are [false] on entry. *)
Definition prepare_line (linbuf : string) : prepared :=
  if is_empty linbuf then mk_prepared linbuf false false false false
  else
    match find_char "#"%char linbuf with
    | Some O => mk_prepared EmptyString true false false false
    | pos =>
        let pos2 := find_char "\"%char linbuf in
        let '(linbuf1, comment, continued) :=
          match pos, pos2 with
          | None, None => (linbuf, false, false)
          | Some a, None => (erase_from a linbuf, true, false)
          | None, Some b => (erase_from b linbuf, false, true)
          | Some a, Some b =>
              if Nat.leb b a then (erase_from b linbuf, false, true)
              else (erase_from a linbuf, true, false)
          end in
        if is_empty linbuf1 then mk_prepared linbuf1 comment continued false false
        else
          let leading := opt_isspace (front linbuf1) in
          let trailing := opt_isspace (back linbuf1) in
          mk_prepared (if orb leading trailing then Trim linbuf1 else linbuf1)
            comment continued leading trailing
    end.

(** How one pass through the body of the [while] loop of [ReadDBline]
    ends: [Next] goes back to the loop condition with [unfinished] true
    (by [continue] or at the end of the body), [Stop] leaves the loop,
    either by [break] or because [unfinished] became false; [rewind] tells
    whether [fsetpos(file, &oldpos)] was called. *)
Inductive iteration : Type :=
| Next (line : string) (maybe_continued : bool)
| Stop (line : string) (maybe_continued : bool) (rewind : bool).

(** The body of the loop on the physical line [raw] just read, with the
    current [line] and [maybe_continued]. *)
Definition ReadDBline_body (raw line : string) (maybe_continued : bool)
  : iteration :=
  let p := prepare_line raw in
  let linbuf := p_linbuf p in
  if andb (is_empty line) (is_empty linbuf) then Next line maybe_continued
  else if negb (is_empty linbuf) then
    let is_assignment := IsAssignment linbuf in
    if andb maybe_continued is_assignment then Stop line maybe_continued true
    else
      let maybe_continued' :=
        orb maybe_continued
            (andb (andb (is_empty line) (negb (p_continued p))) is_assignment) in
      let unfinished := orb (p_continued p) maybe_continued' in
      let linbuf' :=
        if orb maybe_continued' (andb (p_trailing_space p) (p_continued p))
        then push_back linbuf SP else linbuf in
      let line' :=
        if andb (andb (p_leading_space p) (negb (is_empty line)))
                (negb (opt_isspace (back line)))
        then push_back line SP else line in
      let line'' := line' ++ linbuf' in
      if unfinished then Next line'' maybe_continued'
      else Stop line'' maybe_continued' false
  else if orb (p_continued p) (p_comment p) then Next line maybe_continued
  else Stop line maybe_continued false.

(** The [while] loop of [ReadDBline], entered with [unfinished] true: the
    value of [r] at the loop exit, the assembled [line], [maybe_continued]
    and the file position. *)
Fixpoint ReadDBline_loop (file : FILE) (line : string) (maybe_continued : bool)
  : Z * string * bool * FILE :=
  match file with
  | [] => (EOF, line, maybe_continued, [])
  | raw :: rest =>
      match ReadDBline_body raw line maybe_continued with
      | Next line' mc' => ReadDBline_loop rest line' mc'
      | Stop line' mc' rewind => (0, line', mc', if rewind then file else rest)
      end
  end.

(** [ReadDBline(file, buf, bufsiz, line)]: the status, the logical line
    and the file position on return. *)
Definition ReadDBline (file : FILE) : Z * string * FILE :=
  let '(r, line, maybe_continued, file') :=
    ReadDBline_loop file EmptyString false in
  if maybe_continued then
    (0, (if opt_isspace (back line) then pop_back line else line), file')
  else (r, line, file').

(* ====================================================================== *)
(** ** Value resolver *)

Record scan_state : Type := mk_scan {
  keydate : TDatime;
  prevdate : TDatime;
  found : bool;
  do_ignore : bool;
  value : string
}.

(** The body of the [for( auto& line : lines )] loop of [LoadDBvalue]. *)
Definition scan_line (date : TDatime) (key : string) (st : scan_state)
  (line : string) : scan_state :=
  let '(status, value') :=
    if do_ignore st then (0, value st) else IsDBkey line key (value st) in
  if andb (negb (do_ignore st)) (negb (status =? 0)) then
    if status >? 0 then
      mk_scan (keydate st) (keydate st) true (do_ignore st) value'
    else st
  else
    match IsDBdate line with
    | Some d =>
        mk_scan d (prevdate st) (found st)
          (orb (d >? date) (d <? prevdate st)) (value st)
    | None => st
    end.

(** [lines.assign(1, dbline); if( gHaTextvars ) gHaTextvars->Substitute(lines)]. *)
Definition expand (dbline : string) : list string :=
  match Substitute E with
  | Some f => f dbline
  | None => [dbline]
  end.

(** The logical lines that the [while( ReadDBline(...) != EOF )] loop of
    [LoadDBvalue] sees; [fuel] bounds the number of iterations. *)
Fixpoint ReadDBlines (fuel : nat) (file : FILE) : list string :=
  match fuel with
  | O => []
  | S fuel' =>
      let '(r, dbline, file') := ReadDBline file in
      if r =? EOF then []
      else dbline :: ReadDBlines fuel' file'
  end.

Definition initial_scan (value0 : string) : scan_state :=
  mk_scan date_sentinel date_sentinel false false value0.

(** The scan of [LoadDBvalue] over the lines of a rewound file; empty
    logical lines are skipped. *)
Definition scan_lines (date : TDatime) (key : string) (value0 : string)
  (dblines : list string) : scan_state :=
  fold_left (scan_line date key)
    (flat_map expand (filter (fun l => negb (is_empty l)) dblines))
    (initial_scan value0).

(** [LoadDBvalue(file, date, key, value)] for a [string] value, on a file
    and key that are not null and without I/O errors: the status (0 found,
    1 not found) and the contents of [value] on return.  The file is
    rewound first, so it is given by its bytes. *)
Definition LoadDBvalue (bytes : string) (date : TDatime) (key : string)
  (value0 : string) : Z * string :=
  let file := GetLines bytes in
  let st := scan_lines date key value0 (ReadDBlines (S (List.length file)) file) in
  ((if found st then 0 else 1), value st).

(* ====================================================================== *)
(** ** Typed converters *)

(** A numeric value stored in a destination of type [T]. *)
Inductive Num : Type :=
| NInt (z : Z)
| NFlt (x : FP E).

(** The widest type that [convert_string<T>] returns: [long long],
    [unsigned long long] or the floating-point type itself. *)
Inductive Wide : Type :=
| WLL (z : Z)
| WULL (z : Z)
| WFP (x : FP E).

(** The outcome of a [strto*] call on [p]: the value, the text at [end],
    whether [end != p], and whether [errno] was set. *)
Record conv : Type := mk_conv {
  cv_val : Wide;
  cv_rest : string;
  cv_moved : bool;
  cv_errno : bool
}.

Definition is_floating_point (T : NumT) : bool :=
  match T with TDouble | TFloat => true | _ => false end.

(** [is_unsigned<T>]; [Char_t] is plain [char], taken as signed. *)
Definition is_unsigned (T : NumT) : bool :=
  match T with TULong | TUInt | TUShort | TByte => true | _ => false end.

(** [sizeof(T) * 8] for the integer types. *)
Definition bits (T : NumT) : Z :=
  match T with
  | TLong | TULong => 64
  | TInt | TUInt => 32
  | TShort | TUShort => 16
  | TChar | TByte => 8
  | TDouble => 64
  | TFloat => 32
  end.

(** [sizeof(T)] in bytes. *)
Definition sizeof (T : NumT) : Z := bits T / 8.

(** [numeric_limits<T>::max()] and [numeric_limits<T>::min()]. *)
Definition max_T (T : NumT) : Z :=
  if is_unsigned T then 2 ^ bits T - 1 else 2 ^ (bits T - 1) - 1.

Definition min_T (T : NumT) : Z :=
  if is_unsigned T then 0 else - 2 ^ (bits T - 1).

Definition LLONG_MAX : Z := 2 ^ 63 - 1.
Definition LLONG_MIN : Z := - 2 ^ 63.
Definition ULLONG_MAX : Z := 2 ^ 64 - 1.

(** The longest run of decimal digits at the head of [s]: its value (on
    top of [acc]), the number of digits, and the text behind it. *)
Fixpoint scan_digits (s : string) (acc : Z) : Z * nat * string :=
  match s with
  | EmptyString => (acc, O, s)
  | String c r =>
      if isdigit c then
        let '(v, n, rest) := scan_digits r (acc * 10 + digit_val c) in
        (v, S n, rest)
      else (acc, O, s)
  end.

(** The subject sequence that [strtoll] and [strtoull] accept in base 10:
    optional white space, an optional sign, at least one digit.  Gives the
    sign, the magnitude and the text behind the digits. *)
Definition scan_int (p : string) : option (bool * Z * string) :=
  let s1 := skip_while isspace p in
  let '(neg, s2) :=
    match s1 with
    | String c r =>
        if Ascii.eqb c "-"%char then (true, r)
        else if Ascii.eqb c "+"%char then (false, r)
        else (false, s1)
    | EmptyString => (false, s1)
    end in
  let '(m, n, rest) := scan_digits s2 0 in
  match n with
  | O => None
  | S _ => Some (neg, m, rest)
  end.

(** [strtoll(p, &end, 10)]. *)
Definition strtoll (p : string) : conv :=
  match scan_int p with
  | None => mk_conv (WLL 0) p false false
  | Some (neg, m, rest) =>
      let v := if neg then - m else m in
      if LLONG_MAX <? v then mk_conv (WLL LLONG_MAX) rest true true
      else if v <? LLONG_MIN then mk_conv (WLL LLONG_MIN) rest true true
      else mk_conv (WLL v) rest true false
  end.

(** [strtoull(p, &end, 10)]: a leading minus sign negates the converted
    value in the unsigned type. *)
Definition strtoull (p : string) : conv :=
  match scan_int p with
  | None => mk_conv (WULL 0) p false false
  | Some (neg, m, rest) =>
      if ULLONG_MAX <? m then mk_conv (WULL ULLONG_MAX) rest true true
      else mk_conv (WULL (if neg then (2 ^ 64 - m) mod 2 ^ 64 else m)) rest true false
  end.

(** [convert_string<T>(p, end)]. *)
Definition convert_string (T : NumT) (p : string) : conv :=
  if is_floating_point T then
    let '(x, n, err) := strtofp E T p in
    mk_conv (WFP x) (substr_from n p) (negb (Nat.eqb n O)) err
  else if is_unsigned T then strtoull p
  else strtoll p.

(** [is_in_range<T>(val)]. *)
Definition is_in_range (T : NumT) (val : Wide) : bool :=
  match val with
  | WLL v =>
      if v <=? max_T T then
        if is_unsigned T then v >=? 0 else v >=? min_T T
      else false
  | WULL v => v <=? max_T T
  | WFP x => fp_in_range E T x
  end.

(** [static_cast<T>(dval)] of a value that is in range. *)
Definition cast (val : Wide) : Num :=
  match val with
  | WLL v => NInt v
  | WULL v => NInt v
  | WFP x => NFlt x
  end.

(** [end && *end && !isspace( *end )]. *)
Definition junk_at_end (rest : string) : bool :=
  match rest with
  | EmptyString => false
  | String c _ => andb (negb (Ascii.eqb c NUL)) (negb (isspace c))
  end.

(** The conversion step shared by [LoadDBvalue<T>] and [LoadDBarray<T>]:
    [None] stands for [return conversion_error(key, text)]. *)
Definition convert_field (T : NumT) (p : string) : option (Num * string) :=
  let c := convert_string T p in
  if orb (orb (orb (negb (cv_moved c)) (junk_at_end (cv_rest c))) (cv_errno c))
         (negb (is_in_range T (cv_val c)))
  then None
  else Some (cast (cv_val c), cv_rest c).

(** The conversion of [LoadDBvalue<T>] on the text found: the status and
    the value assigned. *)
Definition convert_value (T : NumT) (text : string) : Z * option Num :=
  match convert_field T text with
  | None => (-131, None)
  | Some (v, _) => (0, Some v)
  end.

(** [LoadDBvalue<T>(file, date, key, value)]. *)
Definition LoadDBvalue_num (T : NumT) (bytes : string) (date : TDatime)
  (key : string) : Z * option Num :=
  let '(err, text) := LoadDBvalue bytes date key EmptyString in
  if negb (err =? 0) then (err, None) else convert_value T text.

(** The [while( true )] loop of [LoadDBarray<T>]: the status and the
    contents of [values]; [None] when [fuel] iterations do not reach a
    [return] or [break]. *)
Fixpoint array_loop (T : NumT) (fuel : nat) (p : string) (values : list Num)
  : option (Z * list Num) :=
  match fuel with
  | O => None
  | S fuel' =>
      match convert_field T p with
      | None => Some (-131, values)
      | Some (v, rest) =>
          let values' := (values ++ [v])%list in
          if is_empty rest then Some (0, values')
          else array_loop T fuel' rest values'
      end
  end.

(** The conversion of [LoadDBarray<T>] on the text found ([values] has
    been cleared).  Each iteration consumes at least one character, so
    [S (slen text)] iterations are enough. *)
Definition convert_array (T : NumT) (text : string) : option (Z * list Num) :=
  array_loop T (S (slen text)) text [].

(** [LoadDBarray<T>(file, date, key, values)]: the status and, when
    [values] was written to, its contents. *)
Definition LoadDBarray (T : NumT) (bytes : string) (date : TDatime)
  (key : string) : option (Z * option (list Num)) :=
  let '(err, text) := LoadDBvalue bytes date key EmptyString in
  if negb (err =? 0) then Some (err, None)
  else
    match convert_array T text with
    | Some (st, vals) => Some (st, Some vals)
    | None => None
    end.

(** [row.push_back(tmpval.at(i + irow * ncols))] for [i] below [ncols];
    [None] when [at] throws. *)
Definition matrix_row (tmpval : list Num) (ncols irow : nat) : option (list Num) :=
  fold_left
    (fun (row : option (list Num)) (i : nat) =>
       match row, nth_error tmpval (i + irow * ncols) with
       | Some r, Some x => Some (r ++ [x])%list
       | _, _ => None
       end)
    (seq O ncols) (Some []).

(** The row loop of [LoadDBmatrix]. *)
Definition matrix_rows (tmpval : list Num) (ncols nrows : nat)
  : option (list (list Num)) :=
  fold_left
    (fun (vals : option (list (list Num))) (irow : nat) =>
       match vals, matrix_row tmpval ncols irow with
       | Some v, Some row => Some (v ++ [row])%list
       | _, _ => None
       end)
    (seq O nrows) (Some []).

(** The part of [LoadDBmatrix<T>] behind a successful [LoadDBarray]: the
    status and, when [values] was written to, its contents.  The
    remainder and the quotient by [ncols] = 0 are undefined. *)
Definition reshape (tmpval : list Num) (ncols : nat)
  : behaviour (Z * option (list (list Num))) :=
  match ncols with
  | O => Undefined
  | S _ =>
      if negb (Nat.eqb (Nat.modulo (List.length tmpval) ncols) O)
      then Returns (-129, None)
      else
        match matrix_rows tmpval ncols (Nat.div (List.length tmpval) ncols) with
        | Some vals => Returns (0, Some vals)
        | None => Throws
        end
  end.

(** [LoadDBmatrix<T>(file, date, key, values, ncols)]. *)
Definition LoadDBmatrix (T : NumT) (bytes : string) (date : TDatime)
  (key : string) (ncols : nat) : behaviour (Z * option (list (list Num))) :=
  match LoadDBarray T bytes date key with
  | None => OutOfFuel
  | Some (err, tmpval) =>
      if negb (err =? 0) then Returns (err, None)
      else
        match tmpval with
        | Some tmpval => reshape tmpval ncols
        | None => Returns (err, None)
        end
  end.

(* ====================================================================== *)
(** ** Request loader *)

(** The [type] field of a request ([VarType.h]); [kOtherType] stands for
    every type that [LoadDatabase] has no case for. *)
Inductive VarType : Type :=
| kDouble | kFloat | kLong | kULong | kInt | kUInt | kShort | kUShort
| kChar | kByte | kString | kTString | kFloatV | kDoubleV | kIntV
| kFloatM | kDoubleM | kIntM | kOtherType.

(** What a destination holds after a load. *)
Inductive Value : Type :=
| VNum (x : Num)
| VArr (l : list Num)
| VStr (s : string)
| VMat (m : list (list Num)).

(** The destinations, by address. *)
Definition Mem : Type := nat -> option Value.

Definition store (mem : Mem) (dest : nat) (v : Value) : Mem :=
  fun a => if Nat.eqb a dest then Some v else mem a.

(** [struct DBRequest]; [var] is [None] for a null pointer. *)
Record DBRequest : Type := mk_req {
  name : string;
  var : option nat;
  type : VarType;
  nelem : nat;
  optional : bool;
  descript : option string;
  search : Z
}.

(** [load_and_assign<T>(f, date, key, dest, nelem)].  The [memcpy] into
    the destination is modelled as storing the converted values.  For an
    array ([nelem] at least 2) the code copies [nelem * sizeof(Double_t)]
    bytes from the vector of converted values, whatever [T] is: these are
    the [nelem] values when [T] is eight bytes wide; for a narrower [T]
    the copy runs past the end of the vector and of the destination,
    which is undefined behaviour. *)
Definition load_and_assign (T : NumT) (bytes : string) (date : TDatime)
  (key : string) (dest : nat) (nelem : nat) (mem : Mem)
  : behaviour (Z * Mem) :=
  if Nat.ltb nelem 2 then
    match LoadDBvalue_num T bytes date key with
    | (st, Some val) => Returns (st, if st =? 0 then store mem dest (VNum val) else mem)
    | (st, None) => Returns (st, mem)
    end
  else
    match LoadDBarray T bytes date key with
    | None => OutOfFuel
    | Some (st, Some vals) =>
        if st =? 0 then
          if negb (Nat.eqb (List.length vals) nelem) then Returns (-130, mem)
          else if sizeof T =? 8 then Returns (st, store mem dest (VArr vals))
          else Undefined
        else Returns (st, mem)
    | Some (st, None) => Returns (st, mem)
    end.

(** [load_and_assign_vector<T>]: [LoadDBarray] fills the destination
    vector itself, also when a later field fails to convert. *)
Definition load_and_assign_vector (T : NumT) (bytes : string) (date : TDatime)
  (key : string) (dest : nat) (nelem : nat) (mem : Mem)
  : behaviour (Z * Mem) :=
  match LoadDBarray T bytes date key with
  | None => OutOfFuel
  | Some (st, Some vec) =>
      let mem' := store mem dest (VArr vec) in
      if andb (andb (st =? 0) (Nat.ltb 0 nelem))
              (negb (Nat.eqb nelem (List.length vec)))
      then Returns (-130, mem')
      else Returns (st, mem')
  | Some (st, None) => Returns (st, mem)
  end.

(** [load_and_assign_matrix<T>]. *)
Definition load_and_assign_matrix (T : NumT) (bytes : string) (date : TDatime)
  (key : string) (dest : nat) (nelem : nat) (mem : Mem)
  : behaviour (Z * Mem) :=
  match LoadDBmatrix T bytes date key nelem with
  | Returns (st, Some mat) => Returns (st, store mem dest (VMat mat))
  | Returns (st, None) => Returns (st, mem)
  | Undefined => Undefined
  | Throws => Throws
  | OutOfFuel => OutOfFuel
  end.

(** [LoadDBvalue] into a [string] or [TString] destination. *)
Definition load_string (bytes : string) (date : TDatime) (key : string)
  (dest : nat) (mem : Mem) : behaviour (Z * Mem) :=
  let '(err, text) := LoadDBvalue bytes date key EmptyString in
  if err =? 0 then Returns (err, store mem dest (VStr text))
  else Returns (err, mem).

(** The [switch( item->type )] of [LoadDatabase]. *)
Definition load_item (bytes : string) (date : TDatime) (key : string)
  (item : DBRequest) (dest : nat) (mem : Mem) : behaviour (Z * Mem) :=
  let n := nelem item in
  match type item with
  | kDouble => load_and_assign TDouble bytes date key dest n mem
  | kFloat => load_and_assign TFloat bytes date key dest n mem
  | kLong => load_and_assign TLong bytes date key dest n mem
  | kULong => load_and_assign TULong bytes date key dest n mem
  | kInt => load_and_assign TInt bytes date key dest n mem
  | kUInt => load_and_assign TUInt bytes date key dest n mem
  | kShort => load_and_assign TShort bytes date key dest n mem
  | kUShort => load_and_assign TUShort bytes date key dest n mem
  | kChar => load_and_assign TChar bytes date key dest n mem
  | kByte => load_and_assign TByte bytes date key dest n mem
  | kString => load_string bytes date key dest mem
  | kTString => load_string bytes date key dest mem
  | kFloatV => load_and_assign_vector TFloat bytes date key dest n mem
  | kDoubleV => load_and_assign_vector TDouble bytes date key dest n mem
  | kIntV => load_and_assign_vector TInt bytes date key dest n mem
  | kFloatM => load_and_assign_matrix TFloat bytes date key dest n mem
  | kDoubleM => load_and_assign_matrix TDouble bytes date key dest n mem
  | kIntM => load_and_assign_matrix TInt bytes date key dest n mem
  | kOtherType => Returns (-2, mem)
  end.

(** [newreq[0] = *item; newreq->search = 0]. *)
Definition no_search (item : DBRequest) : DBRequest :=
  mk_req (name item) (var item) (type item) (nelem item) (optional item)
    (descript item) 0.

(** The [while( item->name )] loop of [LoadDatabase], with the recursive
    call of [LoadDatabase] as the parameter [recurse].  [idx] is
    [std::distance(req, item)] and [ret] the current value of [ret]. *)
Fixpoint LoadDatabase_items
  (recurse : list DBRequest -> string -> Z -> Mem -> behaviour (Z * Mem))
  (bytes : string) (date : TDatime) (prefix : string) (search_ : Z)
  (req : list DBRequest) (idx : Z) (ret : Z) (mem : Mem)
  : behaviour (Z * Mem) :=
  match req with
  | [] => Returns (ret, mem)
  | item :: rest =>
      let next := LoadDatabase_items recurse bytes date prefix search_ rest (idx + 1) in
      match var item with
      | None => next ret mem
      | Some dest =>
          let key := prefix ++ name item in
          match load_item bytes date key item dest mem with
          | Returns (ret1, mem1) =>
              let missing :=
                if optional item then next 0 mem1
                else Returns (1 + idx, mem1) in
              if ret1 =? 0 then next ret1 mem1
              else if ret1 >? 0 then
                let newsearch :=
                  if negb (search item =? 0) then search item else search_ in
                if andb (negb (newsearch =? 0)) (negb (is_empty prefix)) then
                  let '(newprefix, ndot) := ChopPrefix prefix in
                  let newlevel := ndot + 1 in
                  if orb (newsearch <? 0) (newlevel >=? newsearch) then
                    let newsearch' :=
                      if newsearch <? 0 then newsearch + 1 else newsearch in
                    match recurse [no_search item] newprefix newsearch' mem1 with
                    | Returns (ret2, mem2) =>
                        if negb (ret2 =? 0) then Returns (ret2, mem2)
                        else next ret2 mem2
                    | other => other
                    end
                  else missing
                else missing
              else Returns (ret1, mem1)
          | other => other
          end
      end
  end.

(** [LoadDatabase(f, date, req, prefix, search, here)] for a request array
    that is not null, given as the list of its items before the
    terminating null name.  [fuel] bounds the depth of the recursion.
    The result is the return code and the destinations; diagnostics are
    not modelled. *)
Fixpoint LoadDatabase_rec (fuel : nat) (bytes : string) (date : TDatime)
  (req : list DBRequest) (prefix : string) (search_ : Z) (mem : Mem)
  : behaviour (Z * Mem) :=
  match fuel with
  | O => OutOfFuel
  | S fuel' =>
      LoadDatabase_items (LoadDatabase_rec fuel' bytes date)
        bytes date prefix search_ req 0 0 mem
  end.

(** Every recursive call shortens the prefix, so a depth of
    [S (slen prefix)] is enough. *)
Definition LoadDatabase (bytes : string) (date : TDatime)
  (req : list DBRequest) (prefix : string) (search_ : Z) (mem : Mem)
  : behaviour (Z * Mem) :=
  LoadDatabase_rec (S (slen prefix)) bytes date req prefix search_ mem.

End Database.

Arguments cv_val {E} c.
Arguments cv_rest {E} c.
Arguments cv_moved {E} c.
Arguments cv_errno {E} c.

(* ====================================================================== *)
(** ** Path resolver *)

(** What [GetDBFileList] asks of [gSystem]: the value of the environment
    variable [DB_DIR], and for a directory that can be opened the entries
    that [GetDirEntry] delivers. *)
Record TSystem : Type := mk_sys {
  Getenv_DB_DIR : option string;
  OpenDirectory : string -> option (list string)
}.

Fixpoint all_digits (s : string) : bool :=
  match s with
  | EmptyString => true
  | String c r => andb (isdigit c) (all_digits r)
  end.

(** [atoi] on a string of digits. *)
Definition atoi (s : string) : Z :=
  let '(v, _, _) :=
    (fix go (s : string) (acc : Z) : Z * nat * string :=
       match s with
       | EmptyString => (acc, O, s)
       | String c r =>
           if isdigit c then go r (acc * 10 + digit_val c) else (acc, O, s)
       end) s 0 in v.

(** [sort(time_dirs.begin(), time_dirs.end())]: ascending in the order of
    [std::string]. *)
Fixpoint sort_insert (x : string) (l : list string) : list string :=
  match l with
  | [] => [x]
  | y :: r => if String.leb x y then x :: l else y :: sort_insert x r
  end.

Definition sort_strings (l : list string) : list string :=
  fold_right sort_insert [] l.

(** The directories opened in turn until one succeeds: its name and
    entries. *)
Fixpoint first_open (sys : TSystem) (dnames : list string)
  : option (string * list string) :=
  match dnames with
  | [] => None
  | d :: rest =>
      match OpenDirectory sys d with
      | Some entries => Some (d, entries)
      | None => first_open sys rest
      end
  end.

(** The loop over the sorted date directories: [Some d] when [found] is
    set with [*it] = [d].  [prev] is the element before [it], [None] at
    [time_dirs.begin()]. *)
Fixpoint find_time_dir (date : Z) (prev : option string) (dirs : list string)
  : option string :=
  match dirs with
  | [] => None
  | d :: rest =>
      let item_date := atoi d in
      match prev with
      | None =>
          if date <? item_date then None
          else if andb (is_empty_list rest) (date >=? item_date) then Some d
          else find_time_dir date (Some d) rest
      | Some p =>
          if date <? item_date then Some p
          else if andb (is_empty_list rest) (date >=? item_date) then Some d
          else find_time_dir date (Some d) rest
      end
  end.

(** [if( filename.substr(0, 3) != "db_" ) filename.insert(0, "db_")]. *)
Definition db_prefixed (filename : string) : string :=
  if negb (String.eqb (substring 0 3 filename) "db_")
  then "db_" ++ filename else filename.

(** The database file name [db_<prefix>.dat] made from [name]. *)
Definition db_filename (filename : string) : string :=
  let filename := db_prefixed filename in
  if opt_ascii_eqb (back filename) "."%char then filename ++ "dat"
  else if negb (String.eqb (substr_from (slen filename - 4) filename) ".dat")
  then filename ++ ".dat"
  else filename.

(** The search list of directories. *)
Definition search_dirs (sys : TSystem) : list string :=
  ((match Getenv_DB_DIR sys with Some d => [d] | None => [] end)
     ++ ["DB"; "db"; "."])%list.

(** [GetDBFileList(name, date, here)] in a build with [NDEBUG] (without
    it, the [assert] aborts where this returns the empty list for a file
    name shorter than four characters). *)
Definition GetDBFileList (sys : TSystem) (name : string) (date : TDatime)
  : list string :=
  let filename := c_str name in
  if is_empty filename then []
  else
    match find_char "/"%char filename with
    | Some _ => [filename]
    | None =>
        match first_open sys (search_dirs sys) with
        | None => []
        | Some (thedir, entries) =>
            let time_dirs :=
              filter (fun item => andb (Nat.eqb (slen item) 8) (all_digits item))
                entries in
            let have_defaultdir :=
              existsb (fun item => andb (negb (Nat.eqb (slen item) 8))
                                     (String.eqb item "DEFAULT")) entries in
            let found := find_time_dir (GetDate date) None (sort_strings time_dirs) in
            if Nat.ltb (slen (db_prefixed filename)) 4 then []
            else
              let filename := db_filename filename in
              let in_date_dir :=
                match found with
                | Some d => [thedir ++ "/" ++ d ++ "/" ++ filename]
                | None => []
                end in
              let in_default_dir :=
                if have_defaultdir
                then [thedir ++ "/" ++ "DEFAULT" ++ "/" ++ filename] else [] in
              let in_dir := thedir ++ "/" ++ filename in
              (filename :: in_date_dir ++ in_default_dir ++ [in_dir])%list
        end
    end.

(** A [strptime] for examples: [" yyyy-mm-dd hh:mi:ss "] in the canonical
    layout, each field with exactly as many digits as shown and one blank
    on either side.  No time-zone field. *)
Definition digits_val (s : string) : option Z :=
  (fix go (s : string) (acc : Z) : option Z :=
     match s with
     | EmptyString => Some acc
     | String c r => if isdigit c then go r (acc * 10 + digit_val c) else None
     end) s 0.

Definition canonical_tm (ts : string) : option tm :=
  if negb (Nat.eqb (slen ts) 21) then None
  else if negb (String.eqb (substring 0 1 ts ++ substring 5 1 ts ++ substring 8 1 ts
                     ++ substring 11 1 ts ++ substring 14 1 ts
                     ++ substring 17 1 ts ++ substring 20 1 ts) " -- :: ")
  then None
  else
    match digits_val (substring 1 4 ts), digits_val (substring 6 2 ts),
          digits_val (substring 9 2 ts), digits_val (substring 12 2 ts),
          digits_val (substring 15 2 ts), digits_val (substring 18 2 ts) with
    | Some y, Some mo, Some d, Some h, Some mi, Some s =>
        if andb (andb (andb (1 <=? mo) (mo <=? 12)) (andb (1 <=? d) (d <=? 31)))
                (andb (andb (andb (0 <=? h) (h <=? 23)) (andb (0 <=? mi) (mi <=? 59)))
                      (andb (0 <=? s) (s <=? 61)))
        then Some (mk_tm (y - 1900) (mo - 1) d h mi s)
        else None
    | _, _, _, _, _, _ => None
    end.

(** Externals for examples: no text variables, no floating-point input. *)
Definition plain_ext : Externals :=
  mk_ext unit canonical_tm None (fun _ _ => (tt, O, false)) (fun _ _ => false).

Definition NL : string := String LF EmptyString.

(* ====================================================================== *)
(** ** Reference notions for the statements *)

Fixpoint all_chars (p : ascii -> bool) (s : string) : bool :=
  match s with
  | EmptyString => true
  | String c r => andb (p c) (all_chars p r)
  end.

(** The value of a string of decimal digits, on top of [acc]. *)
Fixpoint decimal (ds : string) (acc : Z) : Z :=
  match ds with
  | EmptyString => acc
  | String c r => decimal r (acc * 10 + digit_val c)
  end.

(** [s] reads as the whole number [v] followed by [rest]: white space, an
    optional sign, a non-empty run of digits that [rest] does not
    prolong. *)
Definition integer_text (s : string) (v : Z) (rest : string) : Prop :=
  exists ws sign ds,
    s = ws ++ sign ++ ds ++ rest /\
    all_chars isspace ws = true /\
    (sign = "" \/ sign = "+" \/ sign = "-") /\
    ds <> "" /\ all_chars isdigit ds = true /\
    match rest with String c _ => isdigit c = false | EmptyString => True end /\
    v = (if String.eqb sign "-" then - decimal ds 0 else decimal ds 0).

(** The first character of [s] behind its leading white space is a minus
    sign. *)
Definition starts_negative (s : string) : bool :=
  match skip_while isspace s with
  | String c _ => Ascii.eqb c "-"%char
  | EmptyString => false
  end.

(** The reading of the claim on scalar conversion: [s] is a whole number
    in the range of [T] with nothing but white space behind it. *)
Definition whole_number_in_range (T : NumT) (s : string) : bool :=
  match scan_int s with
  | Some (neg, m, rest) =>
      let v := if neg then - m else m in
      andb (all_chars isspace rest) (andb (min_T T <=? v) (v <=? max_T T))
  | None => false
  end.

(** *** The value resolver *)

Section ResolverReference.

Variable E : Externals.

(** The lines that the scan of [LoadDBvalue] works on: the non-empty
    logical lines of the file, after text-variable substitution. *)
Definition db_lines (bytes : string) : list string :=
  let file := GetLines bytes in
  flat_map (expand E)
    (filter (fun l => negb (is_empty l)) (ReadDBlines (S (List.length file)) file)).

(** An assignment to [key] in the words of the specification: the text
    in front of the first ['='] of the line, with the white space around
    it removed, is [key] byte for byte; the value is the text behind the
    ['='] without its leading white space. *)
Definition spec_assignment (key line : string) : option string :=
  match find_char "="%char line with
  | None => None
  | Some eq =>
      if String.eqb (Trim (erase_from eq line)) key
      then Some (skip_while isspace (substr_from (S eq) line))
      else None
  end.

(** The assignments to [key] among [lines], in file order, each with its
    governing stamp: the stamp of the last date-stamp line above it, [cur]
    if there is none.  [stamp] tells which lines are date stamps. *)
Fixpoint assignments_by (stamp : string -> option TDatime) (key : string)
  (cur : TDatime) (lines : list string) : list (TDatime * string) :=
  match lines with
  | [] => []
  | l :: rest =>
      match stamp l with
      | Some d => assignments_by stamp key d rest
      | None =>
          match spec_assignment key l with
          | Some text => (cur, text) :: assignments_by stamp key cur rest
          | None => assignments_by stamp key cur rest
          end
      end
  end.

(** Every line that [IsDBdate] recognizes is a date stamp. *)
Definition assignments (key : string) (cur : TDatime) (lines : list string)
  : list (TDatime * string) :=
  assignments_by (IsDBdate E) key cur lines.

(** One more candidate [c]: it replaces [best] when its stamp is not
    after [date] and not before the stamp of [best]. *)
Definition choose (date : TDatime) (best : option (TDatime * string))
  (c : TDatime * string) : option (TDatime * string) :=
  if andb (fst c <=? date)
          (match best with Some b => fst b <=? fst c | None => true end)
  then Some c else best.

(** The assignment with the greatest stamp not after [date], the last one
    in file order among those of equal stamp. *)
Definition latest_assignment (date : TDatime) (cands : list (TDatime * string))
  : option (TDatime * string) :=
  fold_left (choose date) cands None.

(** The reading of the claim on the value resolver, over a list of
    lines and for a notion of date stamp. *)
Definition spec_load_value_by (stamp : string -> option TDatime)
  (date : TDatime) (key value0 : string) (lines : list string) : Z * string :=
  match latest_assignment date (assignments_by stamp key date_sentinel lines) with
  | Some (_, text) => (0, text)
  | None => (1, value0)
  end.

Definition spec_load_value (date : TDatime) (key value0 : string)
  (lines : list string) : Z * string :=
  spec_load_value_by (IsDBdate E) date key value0 lines.

(** No line with a ['='] in it carries a bracketed time stamp. *)
Definition well_separated (key : string) (lines : list string) : Prop :=
  Forall (fun l => fst (IsDBkey l key EmptyString) <> 0 -> IsDBdate E l = None)
    lines.

(** [IsDBkey] takes a line for an assignment to [key] exactly when the
    line is one in the words of the specification, and with the same
    value. *)
Definition exact_keys (key : string) (lines : list string) : Prop :=
  Forall (fun l =>
            spec_assignment key l =
            if fst (IsDBkey l key EmptyString) =? 1
            then Some (snd (IsDBkey l key EmptyString)) else None)
    lines.

(** What [strptime] guarantees of the fields it fills in. *)
Definition calendar_fields : Prop :=
  forall ts t, parse_tm E ts = Some t ->
    0 <= tm_mon t /\ 1 <= tm_mday t /\ 0 <= tm_hour t /\ 0 <= tm_min t /\
    0 <= tm_sec t.

(** The invariant of the scan: the state against the current stamp [cur]
    and the best assignment so far. *)
Definition scan_inv (date : TDatime) (value0 : string) (st : scan_state)
  (cur : TDatime) (best : option (TDatime * string)) : Prop :=
  keydate st = cur /\ date_sentinel <= cur /\
  do_ignore st = orb (cur >? date) (cur <? prevdate st) /\
  match best with
  | Some (g, t) => found st = true /\ prevdate st = g /\ value st = t
  | None => found st = false /\ prevdate st = date_sentinel /\ value st = value0
  end.

End ResolverReference.

(** The first end-to-end scenario of the specification. *)
Definition two_stamps_file : string :=
  "[ 2000-01-01 00:00:00 ]" ++ NL ++ "x = 1" ++ NL ++
  "[ 2010-06-15 12:00:00 ]" ++ NL ++ "x = 2" ++ NL.

(** Three keys under one stamp; the first and the last begin the second. *)
Definition prefix_keys_file : string :=
  "nw = 7" ++ NL ++ "nwires = 9" ++ NL ++ "n = 11" ++ NL.

(** The same with blank lines in front of the stamps. *)
Definition two_stamps_separated : string :=
  "[ 2000-01-01 00:00:00 ]" ++ NL ++ "x = 1" ++ NL ++ NL ++
  "[ 2010-06-15 12:00:00 ]" ++ NL ++ "x = 2" ++ NL.

(** *** The line reader *)

(** [reading pre line mc]: the loop of [ReadDBline], started on a file
    that begins with the physical lines [pre], is back at its condition
    after reading them, with these values of [line] and
    [maybe_continued].  An implicit continuation is pending when
    [maybe_continued] is true. *)
Inductive reading : list string -> string -> bool -> Prop :=
| reading_start : reading [] EmptyString false
| reading_next (pre : list string) (line : string) (mc : bool)
    (raw line' : string) (mc' : bool) :
    reading pre line mc ->
    ReadDBline_body raw line mc = Next line' mc' ->
    reading (pre ++ [raw])%list line' mc'.

(** The third end-to-end scenario of the specification. *)
Definition continued_file : string :=
  "y = 10 20" ++ NL ++ "30 40" ++ NL ++ "z = 5".

(** *** The converters for arrays and matrices *)

(** The element type of the matrix request types. *)
Definition matrix_type (t : VarType) : option NumT :=
  match t with
  | kFloatM => Some TFloat
  | kDoubleM => Some TDouble
  | kIntM => Some TInt
  | _ => None
  end.

(** The sixth end-to-end scenario of the specification. *)
Definition matrix_file : string := "m = 1 2 3 4 5 6" ++ NL ++ NL ++ "n = 1 2 3 4 5" ++ NL.

(** *** The path resolver *)

(** A database directory [DB] with two date directories and a [DEFAULT]
    directory; no other directory can be opened and [DB_DIR] is not
    set. *)
Definition example_sys : TSystem :=
  mk_sys None
    (fun d => if String.eqb d "DB"
              then Some ["."; ".."; "20200101"; "DEFAULT"; "20100101"; "db_run.dat"]
              else None).

(** *** The request loader *)

(** The prefixes above [prefix], the nearest first, each got from the one
    before by [ChopPrefix]; a prefix of [n] characters has at most [n] of
    them. *)
Fixpoint ancestors (n : nat) (prefix : string) : list string :=
  match n with
  | O => []
  | S n' =>
      if is_empty prefix then []
      else
        let newprefix := fst (ChopPrefix prefix) in
        newprefix :: ancestors n' newprefix
  end.

(** The level of a prefix: the number of its dots plus one. *)
Definition level (prefix : string) : Z :=
  Z.of_nat (count_char "."%char prefix) + 1.

Fixpoint take_while {A : Type} (p : A -> bool) (l : list A) : list A :=
  match l with
  | [] => []
  | x :: r => if p x then x :: take_while p r else []
  end.

(** The prefixes at which a key is looked up, in order, in the words of
    the specification: the prefix itself; with a negative search level
    [-k] at most [k] single steps up; with a positive search level [N] the
    steps up while the new level is at least [N]. *)
Definition search_path (prefix : string) (srch : Z) : list string :=
  let up := ancestors (slen prefix) prefix in
  prefix ::
    (if srch =? 0 then []
     else if srch <? 0 then firstn (Z.to_nat (- srch)) up
     else take_while (fun p => level p >=? srch) up).

(** The search level in effect for an item. *)
Definition effective_search (item : DBRequest) (search_ : Z) : Z :=
  if negb (search item =? 0) then search item else search_.

(** The outcome of the first lookup, along [prefixes], that does not
    report "key not found"; [missing] when there is none. *)
Fixpoint first_found {A : Type} (load : string -> behaviour (Z * A))
  (prefixes : list string) (missing : behaviour (Z * A)) : behaviour (Z * A) :=
  match prefixes with
  | [] => missing
  | p :: rest =>
      match load p with
      | Returns (ret, a) =>
          if ret >? 0 then first_found load rest missing else Returns (ret, a)
      | other => other
      end
  end.

(** The request loader in the words of the claim, over a request list:
    each item with a destination is looked up along its search path, and
    the first lookup that does not report "key not found" decides for the
    item.  Status 0 lets the loop go on to the next item, any other
    status ends it.  A key that is found nowhere on the path counts as
    status 0 for an optional item; for a required one the status is that
    of the code: 1 + [idx], the index of the item, when the path is the
    prefix alone, and 1 when it has steps up. *)
Fixpoint load_by_search (E : Externals) (bytes : string) (date : TDatime)
  (prefix : string) (search_ : Z) (req : list DBRequest) (idx : Z)
  (mem : Mem E) : behaviour (Z * Mem E) :=
  match req with
  | [] => Returns (0, mem)
  | item :: rest =>
      match var item with
      | None => load_by_search E bytes date prefix search_ rest (idx + 1) mem
      | Some dest =>
          let path := search_path prefix (effective_search item search_) in
          let missing :=
            if optional item then 0
            else match path with _ :: _ :: _ => 1 | _ => 1 + idx end in
          match first_found
                  (fun p => load_item E bytes date (p ++ name item) item dest mem)
                  path (Returns (missing, mem)) with
          | Returns (ret, mem1) =>
              if ret =? 0
              then load_by_search E bytes date prefix search_ rest (idx + 1) mem1
              else Returns (ret, mem1)
          | other => other
          end
      end
  end.

(** The fifth end-to-end scenario of the specification. *)
Definition nw_file : string := "L.nw = 7" ++ NL.

Definition nw_request (srch : Z) : DBRequest :=
  mk_req "nw" (Some O) kInt 1 false None srch.

(** The same request behind an optional one for a key that the file does
    not have. *)
Definition nx_nw_requests : list DBRequest :=
  [mk_req "nx" (Some 1%nat) kInt 1 true None 0; nw_request 0].

(** A file with the key [L.a] only, and requests for [a] and [b]. *)
Definition a_file : string := "L.a = 7" ++ NL.

Definition ab_requests : list DBRequest :=
  [mk_req "a" (Some O) kInt 1 false None 0;
   mk_req "b" (Some 1%nat) kInt 1 false None 0].

(* ====================================================================== *)
(** ** Section seeking ([SeekDBdate], [SeekDBconfig]) *)

(** The chunks that successive calls of [fgets(buf, LEN, file)], with
    [LEN] = 256, deliver from the bytes ahead, each with the bytes that
    remain behind it: a chunk ends behind a newline, after 255
    characters, or at the end of the file.  [k] counts the characters of
    the current chunk and [acc] holds them, reversed.  The bytes that
    remain stand for the file position that [ftello] reports and
    [fseeko] restores. *)
Fixpoint fgets_go (bytes : string) (k : nat) (acc : string)
  : list (string * string) :=
  match bytes with
  | EmptyString => if is_empty acc then [] else [(string_rev acc, EmptyString)]
  | String c rest =>
      if orb (Ascii.eqb c LF) (Nat.eqb (S k) 255)
      then (string_rev (String c acc), rest) :: fgets_go rest O EmptyString
      else fgets_go rest (S k) (String c acc)
  end.

Definition fgets_chunks (bytes : string) : list (string * string) :=
  fgets_go bytes O EmptyString.

(** [len < 2 || buf[0] == '#'], with [len = strlen(buf)]. *)
Definition skipped (buf : string) : bool :=
  orb (Nat.ltb (slen (c_str buf)) 2) (opt_ascii_eqb (front (c_str buf)) "#"%char).

(** [if( buf[len - 1] == '\n' ) buf[len - 1] = 0]: the C string in [buf]
    without its trailing newline. *)
Definition chomp (buf : string) : string :=
  let s := c_str buf in
  if opt_ascii_eqb (back s) LF then pop_back s else s.

(** [::Compress(buf)] of ROOT: the string without its blanks. *)
Fixpoint Compress (s : string) : string :=
  match s with
  | EmptyString => EmptyString
  | String c r => if Ascii.eqb c SP then Compress r else String c (Compress r)
  end.

(** [line.find(pat)]: the index of the first occurrence of [pat]. *)
Fixpoint find_str (pat s : string) : option nat :=
  if String.prefix pat s then Some O
  else
    match s with
    | EmptyString => None
    | String _ r =>
        match find_str pat r with Some i => Some (S i) | None => None end
    end.

Section Seek.

Variable E : Externals.

(** Whether [errno] is set when [IsDBdate] has returned 0 on a line
    ([strptime] may set it); a return of 1 clears it. *)
Variable errno_after : string -> bool.

(** The [while] loop of [SeekDBdate] over the chunks ahead: [foundpos]
    ([None] for -1, which is also [found] being false) and whether
    [errno] is set at the exit. *)
Fixpoint SeekDBdate_loop (date : TDatime) (end_on_tag : bool)
  (chunks : list (string * string)) (prevdate : TDatime)
  (foundpos : option string) : option string * bool :=
  match chunks with
  | [] => (foundpos, false)
  | (buf, after) :: rest =>
      if skipped buf then SeekDBdate_loop date end_on_tag rest prevdate foundpos
      else
        let line := chomp buf in
        match IsDBdate E line with
        | Some tagdate =>
            if andb (tagdate <=? date) (tagdate >=? prevdate)
            then SeekDBdate_loop date end_on_tag rest tagdate (Some after)
            else if andb end_on_tag (IsTag line) then (foundpos, false)
            else SeekDBdate_loop date end_on_tag rest prevdate foundpos
        | None =>
            if errno_after line then (foundpos, true)
            else if andb end_on_tag (IsTag line) then (foundpos, false)
            else SeekDBdate_loop date end_on_tag rest prevdate foundpos
        end
  end.

(** [SeekDBdate(file, date, end_on_tag)] on a file that is not null and
    without I/O errors: the value returned and the file position on
    return, the file being given by the bytes ahead of the position at
    the call. *)
Definition SeekDBdate (bytes : string) (date : TDatime) (end_on_tag : bool)
  : Z * string :=
  let '(foundpos, err) :=
    SeekDBdate_loop date end_on_tag (fgets_chunks bytes) date_sentinel None in
  match foundpos with
  | Some p => if err then (0, bytes) else (1, p)
  | None => (0, bytes)
  end.

End Seek.

(** The [while] loop of [SeekDBconfig]: the position behind the chunk
    with the tag, if it is found. *)
Fixpoint SeekDBconfig_loop (tag _label : string) (end_on_tag : bool)
  (chunks : list (string * string)) : option string :=
  match chunks with
  | [] => None
  | (buf, after) :: rest =>
      if skipped buf then SeekDBconfig_loop tag _label end_on_tag rest
      else
        let line := Compress (chomp buf) in
        let llen := slen _label in
        let no_label :=
          if andb end_on_tag (IsTag (chomp buf)) then None
          else SeekDBconfig_loop tag _label end_on_tag rest in
        match find_str _label line with
        | Some lbrk =>
            if Nat.ltb (lbrk + llen) (slen line) then
              match find_char_from "]"%char (lbrk + llen) line with
              | None => SeekDBconfig_loop tag _label end_on_tag rest
              | Some rbrk =>
                  if String.eqb (substring (lbrk + llen) (rbrk - lbrk - llen) line)
                       tag
                  then Some after
                  else SeekDBconfig_loop tag _label end_on_tag rest
              end
            else no_label
        | None => no_label
        end
  end.

(** ["["], followed by [label] and ["="] unless [label] is empty. *)
Definition config_label (label : string) : string :=
  "[" ++ (if is_empty (c_str label) then EmptyString else c_str label ++ "=").

(** [SeekDBconfig(file, tag, label, end_on_tag)] on a file and a tag that
    are not null and without I/O errors (a null [label] is the empty
    one): the value returned and the file position on return. *)
Definition SeekDBconfig (bytes : string) (tag label : string) (end_on_tag : bool)
  : Z * string :=
  if is_empty (c_str tag) then (0, bytes)
  else
    match SeekDBconfig_loop (c_str tag) (config_label label) end_on_tag
            (fgets_chunks bytes) with
    | Some p => (1, p)
    | None => (0, bytes)
    end.

(** The date tags that [SeekDBdate] meets among the bytes ahead, each
    with the position behind it. *)
Definition date_tags (E : Externals) (bytes : string) : list (TDatime * string) :=
  flat_map
    (fun chunk : string * string =>
       if skipped (fst chunk) then []
       else
         match IsDBdate E (chomp (fst chunk)) with
         | Some d => [(d, snd chunk)]
         | None => []
         end)
    (fgets_chunks bytes).

(** [p] is the position right behind [buf], one of the chunks that
    [fgets] delivers from [bytes]: the bytes are those in front of the
    chunk, the chunk and [p]. *)
Definition chunk_at (bytes buf p : string) : Prop :=
  In (buf, p) (fgets_chunks bytes) /\ exists pre, bytes = pre ++ buf ++ p.

(** [p] is the position right behind a chunk of [fgets] that is not
    skipped and holds a date tag not later than [date]. *)
Definition behind_date_tag (E : Externals) (bytes : string) (date : TDatime)
  (p : string) : Prop :=
  exists buf d,
    chunk_at bytes buf p /\ skipped buf = false /\
    IsDBdate E (chomp buf) = Some d /\ d <= date.

(** [p] is the position right behind a chunk of [fgets] that is not
    skipped and, without its blanks, holds [_label], [tag] and a closing
    bracket in a row. *)
Definition behind_config_tag (bytes tag _label : string) (p : string) : Prop :=
  exists buf a b,
    chunk_at bytes buf p /\ skipped buf = false /\
    Compress (chomp buf) = a ++ _label ++ tag ++ "]" ++ b.

(** The state of the loop of [SeekDBdate] against the best tag so far. *)
Definition seek_inv (prevdate : TDatime) (foundpos : option string)
  (best : option (TDatime * string)) : Prop :=
  match best with
  | Some (d, p) => foundpos = Some p /\ prevdate = d
  | None => foundpos = None /\ prevdate = date_sentinel
  end.

(** A file with a section per date and a configuration section. *)
Definition sections_file : string :=
  "a = 1" ++ NL ++ "[ 2000-01-01 00:00:00 ]" ++ NL ++ "a = 2" ++ NL ++
  "[ config = left ]" ++ NL ++ "a = 3" ++ NL ++
  "[ 2010-06-15 12:00:00 ]" ++ NL ++ "a = 4" ++ NL.

(* ====================================================================== *)
(** ** Opening the database file ([OpenDBFile]) *)

(** The [do ... while( !fi && ++it != fnames.end() )] loop of
    [OpenDBFile]: the candidates are opened in turn until [fopen]
    succeeds; [fopen path] tells whether [fopen(path, filemode)] gives a
    file.  The result is the candidate opened. *)
Fixpoint open_first (fopen : string -> bool) (fnames : list string)
  : option string :=
  match fnames with
  | [] => None
  | f :: rest => if fopen (c_str f) then Some f else open_first fopen rest
  end.

(** [OpenDBFile(name, date, here, filemode, debug_flag)] for a [name]
    that is not null: the path under which the file returned was opened,
    [None] when the null pointer is returned.  The overload with the
    further argument [openpath] returns the same file; the pointer that
    it leaves in [openpath] points into the local list of candidates,
    which is destroyed on return, so it gives no path to the caller and
    is not part of the result here. *)
Definition OpenDBFile (sys : TSystem) (fopen : string -> bool) (name : string)
  (date : TDatime) : option string :=
  if is_empty (c_str name) then None
  else
    match open_first fopen (GetDBFileList sys name date) with
    | Some f => Some (c_str f)
    | None => None
    end.

(* ====================================================================== *)
(** ** Message locations ([Here]) *)

(** The double quote character. *)
Definition QUOTE : ascii := ascii_of_nat 34.

(** [Here(method, prefix)]; [None] stands for a null pointer.  [TString]
    is taken with the meaning of its methods in ROOT: [EndsWith], [Chop]
    (drop the last character), [Prepend], [Append] and [Insert] (put a
    string in at an index); [strstr] finds the first occurrence. *)
Definition Here (method prefix : option string) : string :=
  let m := match method with Some m => c_str m | None => EmptyString end in
  let p := match prefix with Some p => c_str p | None => EmptyString end in
  if is_empty p then m
  else
    let chopped := if opt_ascii_eqb (back p) "."%char then pop_back p else p in
    let full_prefix :=
      String "("%char (String QUOTE EmptyString) ++ chopped ++
      String QUOTE (String ")"%char EmptyString) in
    match (if is_empty m then None else find_str "::" m) with
    | Some pos => substring 0 pos m ++ full_prefix ++ substr_from pos m
    | None => full_prefix ++ "::" ++ m
    end.

(* ====================================================================== *)
(** ** Further notions for the statements *)

(** The invariant of the loop of [ReadDBline]: [line] holds no comment
    or continuation mark, and a pending implicit continuation has left a
    blank behind a non-empty text. *)
Definition line_inv (line : string) (mc : bool) : Prop :=
  count_char "#" line = O /\ count_char "\" line = O /\
  (mc = true -> exists l0, l0 <> "" /\ line = push_back l0 SP).

Definition tab_to_space (c : ascii) : ascii := if Ascii.eqb c TAB then SP else c.

Fixpoint map_string (f : ascii -> ascii) (s : string) : string :=
  match s with
  | EmptyString => EmptyString
  | String c r => String (f c) (map_string f r)
  end.

(** The bytes of a text file with the lines [ls], each ended by a newline. *)
Fixpoint join_lines (ls : list string) : string :=
  match ls with
  | [] => EmptyString
  | l :: r => l ++ NL ++ join_lines r
  end.

(** [s] holds neither a newline nor a NUL. *)
Definition text_line (s : string) : Prop :=
  count_char LF s = O /\ count_char NUL s = O.

(** [v] is a whole number that a destination of type [T] can hold. *)
Definition fits (E : Externals) (T : NumT) (v : Num E) : Prop :=
  match v with
  | NInt _ z => min_T T <= z <= max_T T
  | NFlt _ _ => False
  end.

(** A line with an explicit continuation mark behind a blank, followed
    by an empty line. *)
Definition trailing_blank_file : string := "x = 1 2 \" ++ NL ++ NL.

(** The [assert] that [IsDBkey] makes of a line whose key matches
    (Database.cxx:353): the text behind the ['='] is empty or does not
    end in a blank. *)
Definition IsDBkey_assertion (line : string) : bool :=
  match find_char "="%char (c_str line) with
  | None => true
  | Some eq =>
      let ln := substr_from (S eq) (c_str line) in
      orb (is_empty ln) (negb (opt_ascii_eqb (back ln) SP))
  end.

(** [IsDBkey] in a build without [NDEBUG]; [None] stands for the abort
    of a failed [assert].  [IsDBkey] itself is modelled as in a build
    with [NDEBUG].  Of the three assertions of the function, the two on
    the pointers into the left-hand side hold by construction; the third
    is made when the key has matched, before the value is taken. *)
Definition IsDBkey_asserting (line key text : string) : option (Z * string) :=
  let r := IsDBkey line key text in
  if andb (fst r =? 1) (negb (IsDBkey_assertion line)) then None else Some r.

(** [text] reads as the whole numbers [zs], each in the range of [T] and
    each but the last with white space (or a NUL) behind it. *)
Inductive number_list (T : NumT) : string -> list Z -> Prop :=
| number_last (p : string) (z : Z) :
    integer_text p z "" -> min_T T <= z <= max_T T -> number_list T p [z]
| number_more (p : string) (z : Z) (rest : string) (zs : list Z) :
    integer_text p z rest -> rest <> "" -> junk_at_end rest = false ->
    min_T T <= z <= max_T T ->
    number_list T rest zs -> number_list T p (z :: zs).

(** The status codes of [LoadDatabase] below zero: unsupported type,
    matrix size mismatch, array size mismatch, conversion error. *)
Definition error_code (ret : Z) : Prop :=
  ret = -2 \/ ret = -129 \/ ret = -130 \/ ret = -131.


(** The element type of the scalar request types ([kLong] and [kULong]
    are read as [Long64_t] and [ULong64_t]). *)
Definition scalar_type (t : VarType) : option NumT :=
  match t with
  | kDouble => Some TDouble
  | kFloat => Some TFloat
  | kLong => Some TLong
  | kULong => Some TULong
  | kInt => Some TInt
  | kUInt => Some TUInt
  | kShort => Some TShort
  | kUShort => Some TUShort
  | kChar => Some TChar
  | kByte => Some TByte
  | _ => None
  end.

(** For an array ([nelem] at least 2), [load_and_assign<T>] copies
    [nelem * sizeof(Double_t)] bytes from the vector of converted values
    to the destination, whatever [T] is.  The bytes copied are the
    [nelem] values when [T] is as wide as a [Double_t]; for a narrower
    [T] the copy runs past the end of the vector.  The statements on the
    outcome of a load are therefore made for requests whose arrays, if
    any, have elements of eight bytes. *)
Definition array_copy_exact (req : list DBRequest) : Prop :=
  forall item T,
    In item req -> var item <> None ->
    scalar_type (type item) = Some T -> (2 <= nelem item)%nat ->
    sizeof T = 8.



(** The element type of the vector request types. *)
Definition vector_type (t : VarType) : option NumT :=
  match t with
  | kFloatV => Some TFloat
  | kDoubleV => Some TDouble
  | kIntV => Some TInt
  | _ => None
  end.

(** [GetDBFileList]'s test for the name of a date directory. *)
Definition is_time_dir (item : string) : bool :=
  andb (Nat.eqb (slen item) 8) (all_digits item).

(** Ascending in the order of the numbers that [atoi] reads. *)
Inductive ascending : list string -> Prop :=
| ascending_nil : ascending []
| ascending_cons (x : string) (l : list string) :
    (forall y, In y l -> atoi x <= atoi y) -> ascending l -> ascending (x :: l).

(** [s] without the blanks at its ends. *)
Definition blank_trim (s : string) : string :=
  drop_trailing is_blank (skip_while is_blank s).

(** A text that the line reader leaves as it is: not empty, without NUL,
    newline, tab, ['#'] and backslash, and without white space at its
    ends. *)
Definition plain_text (s : string) : Prop :=
  s <> "" /\
  count_char NUL s = O /\ count_char LF s = O /\ count_char TAB s = O /\
  count_char "#" s = O /\ count_char "\" s = O /\
  opt_isspace (front s) = false /\ opt_isspace (back s) = false.

(** The line [key = txt]. *)
Definition assignment_line (key txt : string) : string := key ++ " = " ++ txt.

(** The bytes of a file with the one line [key = txt]. *)
Definition assignment_file (key txt : string) : string :=
  key ++ " = " ++ txt ++ NL.

(* ====================================================================== *)
(** * Theorems *)

(** ** Strings *)

Lemma skip_while_app (p : ascii -> bool) (ws r : string) :
  all_chars p ws = true ->
  skip_while p (ws ++ r) = skip_while p r.
Proof.
  induction ws as [|c ws IH]; simpl; intros H; [reflexivity|].
  apply andb_prop in H. destruct H as [Hc Hws].
  rewrite Hc. now apply IH.
Qed.

Lemma skip_while_split (p : ascii -> bool) (s : string) :
  exists ws, s = ws ++ skip_while p s /\ all_chars p ws = true.
Proof.
  induction s as [|c s IH]; simpl.
  - exists "". now split.
  - destruct (p c) eqn:Hc.
    + destruct IH as [ws [H1 H2]].
      exists (String c ws). simpl. rewrite Hc, H2. split; [now f_equal|reflexivity].
    + exists "". now split.
Qed.

Lemma skip_while_head (p : ascii -> bool) (s : string) :
  match skip_while p s with
  | String c _ => p c = false
  | EmptyString => True
  end.
Proof.
  induction s as [|c s IH]; simpl; [exact I|].
  destruct (p c) eqn:Hc; [exact IH|exact Hc].
Qed.

(** ** Typed converters: scanning a number *)

Lemma scan_digits_app (ds rest : string) (acc : Z) :
  all_chars isdigit ds = true ->
  match rest with String c _ => isdigit c = false | EmptyString => True end ->
  scan_digits (ds ++ rest) acc = (decimal ds acc, slen ds, rest).
Proof.
  revert acc. induction ds as [|c ds IH]; simpl; intros acc Hds Hrest.
  - destruct rest as [|c r]; simpl; [reflexivity|]. now rewrite Hrest.
  - apply andb_prop in Hds. destruct Hds as [Hc Hds].
    rewrite Hc, (IH _ Hds Hrest). reflexivity.
Qed.

Lemma scan_digits_split (s : string) (acc : Z) :
  exists ds rest,
    scan_digits s acc = (decimal ds acc, slen ds, rest) /\
    s = ds ++ rest /\ all_chars isdigit ds = true /\
    match rest with String c _ => isdigit c = false | EmptyString => True end.
Proof.
  revert acc. induction s as [|c s IH]; simpl; intros acc.
  - exists "", "". simpl. auto.
  - destruct (isdigit c) eqn:Hc.
    + destruct (IH (acc * 10 + digit_val c)) as [ds [rest [H1 [H2 [H3 H4]]]]].
      exists (String c ds), rest. simpl. rewrite H1, Hc, H3.
      repeat split; [now f_equal|exact H4].
    + exists "", (String c s). simpl. auto.
Qed.

Lemma digit_val_nonneg (c : ascii) : isdigit c = true -> 0 <= digit_val c.
Proof.
  unfold isdigit, digit_val. intros H. apply andb_prop in H.
  destruct H as [H _]. apply Nat.leb_le in H. lia.
Qed.

Lemma decimal_nonneg (ds : string) (acc : Z) :
  all_chars isdigit ds = true -> 0 <= acc -> 0 <= decimal ds acc.
Proof.
  revert acc. induction ds as [|c ds IH]; simpl; intros acc H Hacc; [exact Hacc|].
  apply andb_prop in H. destruct H as [Hc Hds].
  apply IH; [exact Hds|]. pose proof (digit_val_nonneg c Hc). lia.
Qed.

Lemma isdigit_not_space (c : ascii) : isdigit c = true -> isspace c = false.
Proof.
  unfold isdigit, isspace. intros H. apply andb_prop in H. destruct H as [H1 H2].
  apply Nat.leb_le in H1. apply Nat.leb_le in H2.
  destruct (Nat.eqb_spec (chr c) 32); [lia|]. simpl.
  apply andb_false_iff. right. apply Nat.leb_gt. lia.
Qed.

(** [scan_int] accepts exactly the texts that read as a whole number. *)
Lemma scan_int_sound (s : string) (neg : bool) (m : Z) (rest : string) :
  scan_int s = Some (neg, m, rest) ->
  integer_text s (if neg then - m else m) rest /\ 0 <= m /\
  (neg = true -> starts_negative s = true).
Proof.
  unfold scan_int, starts_negative.
  destruct (skip_while_split isspace s) as [ws [Hs Hws]].
  remember (skip_while isspace s) as s1 eqn:Hs1. clear Hs1.
  assert (Hcase : exists sign s2,
             s1 = sign ++ s2 /\ (sign = "" \/ sign = "+" \/ sign = "-") /\
             (match s1 with
              | String c r =>
                  if Ascii.eqb c "-"%char then (true, r)
                  else if Ascii.eqb c "+"%char then (false, r) else (false, s1)
              | EmptyString => (false, s1)
              end) = (String.eqb sign "-", s2) /\
             (String.eqb sign "-" = true ->
              match s1 with String c _ => Ascii.eqb c "-"%char | EmptyString => false end = true)).
  { destruct s1 as [|c r].
    - exists "", "". simpl. intuition congruence.
    - destruct (Ascii.eqb_spec c "-"%char) as [->|Hm].
      + exists "-", r. simpl. intuition.
      + destruct (Ascii.eqb_spec c "+"%char) as [->|Hp].
        * exists "+", r. simpl. intuition congruence.
        * exists "", (String c r). simpl. intuition congruence. }
  destruct Hcase as [sign [s2 [Hs1 [Hsign [Heq Hneg]]]]].
  rewrite Heq.
  destruct (scan_digits_split s2 0) as [ds [rest' [Hscan [Hs2 [Hds Hrest]]]]].
  rewrite Hscan.
  destruct ds as [|d ds]; simpl slen; [discriminate|].
  intros H. inversion H; subst neg m rest'. clear H.
  split; [|split].
  - exists ws, sign, (String d ds). subst s1 s2.
    repeat split; auto. discriminate.
  - apply (decimal_nonneg (String d ds) 0 Hds). lia.
  - exact Hneg.
Qed.

Lemma scan_int_complete (s : string) (v : Z) (rest : string) :
  integer_text s v rest ->
  exists neg m, scan_int s = Some (neg, m, rest) /\
                v = (if neg then - m else m) /\
                (starts_negative s = true -> neg = true).
Proof.
  intros [ws [sign [ds [Hs [Hws [Hsign [Hne [Hds [Hrest Hv]]]]]]]]].
  destruct ds as [|d ds]; [congruence|].
  assert (Hd : isdigit d = true) by (simpl in Hds; apply andb_prop in Hds; tauto).
  assert (Hdm : Ascii.eqb d "-"%char = false).
  { destruct (Ascii.eqb_spec d "-"%char) as [-> | ]; [discriminate Hd|reflexivity]. }
  assert (Hdp : Ascii.eqb d "+"%char = false).
  { destruct (Ascii.eqb_spec d "+"%char) as [-> | ]; [discriminate Hd|reflexivity]. }
  assert (Hskip : skip_while isspace s = sign ++ String d ds ++ rest).
  { subst s. rewrite (skip_while_app isspace ws _ Hws).
    destruct Hsign as [-> | [-> | ->]]; simpl;
      [now rewrite (isdigit_not_space d Hd)|reflexivity|reflexivity]. }
  pose proof (scan_digits_app (String d ds) rest 0 Hds Hrest) as Hscan.
  unfold scan_int, starts_negative. rewrite Hskip.
  destruct Hsign as [-> | [-> | ->]].
  - change ("" ++ String d ds ++ rest) with (String d (ds ++ rest)).
    cbv iota. rewrite Hdm, Hdp.
    change (String d (ds ++ rest)) with (String d ds ++ rest). rewrite Hscan.
    exists false, (decimal (String d ds) 0).
    repeat split; [exact Hv|discriminate].
  - change ("+" ++ String d ds ++ rest) with (String "+"%char (String d ds ++ rest)).
    cbv iota. change (Ascii.eqb "+" "-") with false.
    change (Ascii.eqb "+" "+") with true. cbv iota. rewrite Hscan.
    exists false, (decimal (String d ds) 0).
    repeat split; [exact Hv|discriminate].
  - change ("-" ++ String d ds ++ rest) with (String "-"%char (String d ds ++ rest)).
    cbv iota. change (Ascii.eqb "-" "-") with true. cbv iota. rewrite Hscan.
    exists true, (decimal (String d ds) 0).
    repeat split; exact Hv.
Qed.

(** ** Typed converters: scalar conversion *)

Section Conversion.

Variable E : Externals.

Lemma int_limits (T : NumT) :
  is_floating_point T = false ->
  (is_unsigned T = false -> LLONG_MIN <= min_T T /\ max_T T <= LLONG_MAX) /\
  (is_unsigned T = true -> min_T T = 0 /\ max_T T <= ULLONG_MAX).
Proof.
  destruct T; intros H; try discriminate H;
    (split; intros H'; try discriminate H'; vm_compute; split; congruence).
Qed.

(** Integer conversion in closed form: what [convert_value] computes from
    the scanned sign, magnitude and remainder. *)
Lemma convert_value_signed (T : NumT) (s : string) :
  is_floating_point T = false -> is_unsigned T = false ->
  convert_value E T s =
  match scan_int s with
  | None => (-131, None)
  | Some (neg, m, rest) =>
      let v := if neg then - m else m in
      if andb (negb (junk_at_end rest)) (andb (min_T T <=? v) (v <=? max_T T))
      then (0, Some (NInt E v)) else (-131, None)
  end.
Proof.
  intros HT HuT. destruct (int_limits T HT) as [Hs _].
  destruct (Hs HuT) as [Hmin Hmax].
  unfold convert_value, convert_field, convert_string, strtoll.
  rewrite HT, HuT.
  destruct (scan_int s) as [[[neg m] rest]|]; [|reflexivity].
  cbv zeta. set (v := if neg then - m else m).
  destruct (LLONG_MAX <? v) eqn:H1;
    [|destruct (v <? LLONG_MIN) eqn:H2];
    cbn [cv_moved cv_rest cv_errno cv_val negb orb].
  - apply Z.ltb_lt in H1.
    replace (v <=? max_T T) with false by (symmetry; apply Z.leb_gt; lia).
    rewrite orb_true_r, !andb_false_r. reflexivity.
  - apply Z.ltb_lt in H2.
    replace (min_T T <=? v) with false by (symmetry; apply Z.leb_gt; lia).
    rewrite orb_true_r, !andb_false_r. reflexivity.
  - unfold is_in_range, cast. rewrite HuT.
    destruct (junk_at_end rest); [reflexivity|]. cbn [negb orb andb].
    rewrite Z.geb_leb.
    destruct (v <=? max_T T); [|rewrite andb_false_r; reflexivity].
    destruct (min_T T <=? v); reflexivity.
Qed.

Lemma convert_value_unsigned (T : NumT) (s : string) :
  is_floating_point T = false -> is_unsigned T = true ->
  convert_value E T s =
  match scan_int s with
  | None => (-131, None)
  | Some (neg, m, rest) =>
      let v := if neg then (2 ^ 64 - m) mod 2 ^ 64 else m in
      if andb (negb (junk_at_end rest)) (andb (m <=? ULLONG_MAX) (v <=? max_T T))
      then (0, Some (NInt E v)) else (-131, None)
  end.
Proof.
  intros HT HuT.
  unfold convert_value, convert_field, convert_string, strtoull.
  rewrite HT, HuT.
  destruct (scan_int s) as [[[neg m] rest]|]; [|reflexivity].
  cbv zeta. set (v := if neg then (2 ^ 64 - m) mod 2 ^ 64 else m).
  destruct (ULLONG_MAX <? m) eqn:H1;
    cbn [cv_moved cv_rest cv_errno cv_val negb orb].
  - apply Z.ltb_lt in H1.
    replace (m <=? ULLONG_MAX) with false by (symmetry; apply Z.leb_gt; lia).
    rewrite orb_true_r, !andb_false_r. reflexivity.
  - apply Z.ltb_ge in H1.
    replace (m <=? ULLONG_MAX) with true by (symmetry; apply Z.leb_le; lia).
    unfold is_in_range, cast.
    destruct (junk_at_end rest); [reflexivity|]. cbn [negb orb andb].
    destruct (v <=? max_T T); reflexivity.
Qed.

(** The status of a scalar conversion is 0 or -131. *)
Lemma convert_value_status (T : NumT) (s : string) :
  (exists v, convert_value E T s = (0, Some v)) \/
  convert_value E T s = (-131, None).
Proof.
  unfold convert_value. destruct (convert_field E T s) as [[v rest]|].
  - left. now exists v.
  - now right.
Qed.

End Conversion.

(** ** Claims on the typed converters *)

(** Claim C2, as the code has it: for every integer type [T] and every
    text [s] (for an unsigned [T]: every text without a minus sign), the
    scalar conversion succeeds with value [v] if and only if [s] reads as
    the whole number [v] within [min(T), max(T)] and the digits are
    followed by the end of the text, a NUL or one white-space character;
    whatever comes behind that character is not looked at.  In every
    other case the conversion fails with -131. *)
Theorem convert_value_integer (E : Externals) (T : NumT) (s : string) :
  is_floating_point T = false ->
  (is_unsigned T = true -> starts_negative s = false) ->
  (forall v : Z,
      convert_value E T s = (0, Some (NInt E v)) <->
      exists rest, integer_text s v rest /\ junk_at_end rest = false /\
                   min_T T <= v <= max_T T) /\
  ((exists v : Z, convert_value E T s = (0, Some (NInt E v))) \/
   convert_value E T s = (-131, None)).
Proof.
  intros HT Hneg.
  assert (Hform : forall neg m rest,
             scan_int s = Some (neg, m, rest) ->
             convert_value E T s =
             (if andb (negb (junk_at_end rest))
                      (andb (min_T T <=? (if neg then - m else m))
                            ((if neg then - m else m) <=? max_T T))
              then (0, Some (NInt E (if neg then - m else m)))
              else (-131, None))).
  { intros neg m rest Hscan.
    destruct (is_unsigned T) eqn:HuT.
    - rewrite (convert_value_unsigned E T s HT HuT), Hscan. cbv zeta.
      destruct (scan_int_sound s neg m rest Hscan) as [_ [Hm Hstart]].
      destruct neg; [rewrite (Hstart eq_refl) in Hneg; now discriminate Hneg|].
      destruct (int_limits T HT) as [_ Hu]. destruct (Hu HuT) as [Hmin Hmax].
      rewrite Hmin.
      replace (0 <=? m) with true by (symmetry; apply Z.leb_le; exact Hm).
      destruct (m <=? max_T T) eqn:H1.
      + apply Z.leb_le in H1.
        replace (m <=? ULLONG_MAX) with true by (symmetry; apply Z.leb_le; lia).
        reflexivity.
      + rewrite !andb_false_r. reflexivity.
    - rewrite (convert_value_signed E T s HT HuT), Hscan. reflexivity. }
  split.
  - intros v. split.
    + intros Hconv.
      destruct (scan_int s) as [[[neg m] rest]|] eqn:Hscan.
      * rewrite (Hform neg m rest eq_refl) in Hconv.
        destruct (junk_at_end rest) eqn:Hj; [discriminate Hconv|].
        destruct (min_T T <=? _) eqn:H1; [|discriminate Hconv].
        destruct (_ <=? max_T T) eqn:H2; [|discriminate Hconv].
        cbn [negb andb] in Hconv. inversion Hconv; subst v.
        exists rest. split; [|split; [exact Hj|]].
        -- apply (scan_int_sound s neg m rest Hscan).
        -- apply Z.leb_le in H1. apply Z.leb_le in H2. lia.
      * exfalso.
        destruct (is_unsigned T) eqn:HuT.
        -- rewrite (convert_value_unsigned E T s HT HuT), Hscan in Hconv.
           discriminate Hconv.
        -- rewrite (convert_value_signed E T s HT HuT), Hscan in Hconv.
           discriminate Hconv.
    + intros [rest [Htext [Hj [Hlo Hhi]]]].
      destruct (scan_int_complete s v rest Htext) as [neg [m [Hscan [Hv _]]]].
      rewrite (Hform neg m rest Hscan), Hj, <- Hv.
      replace (min_T T <=? v) with true by (symmetry; apply Z.leb_le; exact Hlo).
      replace (v <=? max_T T) with true by (symmetry; apply Z.leb_le; exact Hhi).
      reflexivity.
  - destruct (scan_int s) as [[[neg m] rest]|] eqn:Hscan.
    + rewrite (Hform neg m rest eq_refl).
      destruct (andb _ _); [left; eexists; reflexivity|now right].
    + right. destruct (is_unsigned T) eqn:HuT.
      * now rewrite (convert_value_unsigned E T s HT HuT), Hscan.
      * now rewrite (convert_value_signed E T s HT HuT), Hscan.
Qed.

(** The theorem at [T] = [Byte_t] and the text ["255"]. *)
Lemma convert_value_integer_witness :
  is_floating_point TByte = false /\
  (is_unsigned TByte = true -> starts_negative "255" = false) /\
  (convert_value plain_ext TByte "255" = (0, Some (NInt plain_ext 255)) <->
   exists rest, integer_text "255" 255 rest /\ junk_at_end rest = false /\
                min_T TByte <= 255 <= max_T TByte).
Proof.
  split; [reflexivity|]. split; [intros _; reflexivity|].
  apply (convert_value_integer plain_ext TByte "255");
    [reflexivity|intros _; reflexivity].
Defined.

(** Claim C2 as stated fails: the text ["12 abc"] is not a whole number
    followed by nothing but white space, and yet the conversion to [Int_t]
    succeeds with 12. *)
Lemma convert_value_trailing_text_accepted :
  whole_number_in_range TInt "12 abc" = false /\
  convert_value plain_ext TInt "12 abc" = (0, Some (NInt plain_ext 12)) /\
  ~ (forall (T : NumT) (s : string),
        is_floating_point T = false ->
        ((exists v, convert_value plain_ext T s = (0, Some v)) <->
         whole_number_in_range T s = true)).
Proof.
  split; [reflexivity|]. split; [reflexivity|].
  intros H. specialize (H TInt "12 abc" eq_refl).
  destruct H as [H _].
  assert (Hex : exists v, convert_value plain_ext TInt "12 abc" = (0, Some v))
    by (eexists; reflexivity).
  specialize (H Hex). discriminate H.
Qed.

(** Claim C3 at the code: for the widest unsigned type the text ["-1"] is
    converted, to 2^64 - 1, and for [Byte_t] the negative number
    -18446744073709551615 is converted to 1; the three [Byte_t] examples
    of the claim behave as it says. *)
Theorem unsigned_conversion_of_negative_text (E : Externals) :
  convert_value E TULong "-1" = (0, Some (NInt E 18446744073709551615)) /\
  convert_value E TByte "-18446744073709551615" = (0, Some (NInt E 1)) /\
  convert_value E TByte "-1" = (-131, None) /\
  convert_value E TByte "256" = (-131, None) /\
  convert_value E TByte "255" = (0, Some (NInt E 255)).
Proof.
  repeat split; reflexivity.
Qed.

(** ** Claims on the tag recognizers *)

(** Claim C4 at the code: [IsDBkey] compares only as many characters as
    the left-hand side has, so a line whose left-hand side is a proper
    prefix of the key is reported as a match.  Lines without ['='] give 0,
    and an equal left-hand side gives +1 with the value stripped of
    leading blanks. *)
Theorem IsDBkey_accepts_prefix_of_key :
  IsDBkey "nw = 7" "nwires" "old" = (1, "7") /\
  IsDBkey "nw = 7" "nw" "old" = (1, "7") /\
  IsDBkey "  nw   =    7 8" "nw" "old" = (1, "7 8") /\
  IsDBkey "nx = 7" "nw" "old" = (-1, "old") /\
  IsDBkey "nw 7" "nw" "old" = (0, "old").
Proof.
  repeat split; reflexivity.
Qed.

(** ** Line reader: every call makes progress *)

Lemma ReadDBline_body_rewind (raw line : string) (mc : bool) (l : string) (m : bool) :
  ReadDBline_body raw line mc = Stop l m true -> mc = true.
Proof.
  unfold ReadDBline_body.
  destruct (andb (is_empty line) (is_empty (p_linbuf (prepare_line raw)))); [discriminate|].
  destruct (negb (is_empty (p_linbuf (prepare_line raw)))).
  - destruct mc; [reflexivity|]. cbn [andb orb].
    destruct (orb _ _); discriminate.
  - destruct (orb _ _); discriminate.
Qed.

Lemma ReadDBline_loop_length (file : FILE) (line : string) (mc : bool)
  (r : Z) (line' : string) (mc' : bool) (file' : FILE) :
  ReadDBline_loop file line mc = (r, line', mc', file') ->
  (List.length file' <= List.length file)%nat /\
  (r = EOF /\ file' = [] \/
   r = 0 /\ (mc = false -> (List.length file' < List.length file)%nat)).
Proof.
  revert line mc. induction file as [|raw rest IH]; intros line mc; simpl.
  - intros H. inversion H. subst. split; [simpl; lia|]. left. now split.
  - destruct (ReadDBline_body raw line mc) as [l m|l m rw] eqn:Hb.
    + intros H. destruct (IH _ _ H) as [Hlen Hcase]. split; [lia|].
      destruct Hcase as [[-> ->] | [-> Hlt]]; [left; now split|].
      right. split; [reflexivity|]. intros _. lia.
    + intros H. inversion H. subst. clear H. destruct rw.
      * apply ReadDBline_body_rewind in Hb. subst mc. split; [simpl; lia|].
        right. split; [reflexivity|discriminate].
      * split; [simpl; lia|]. right. split; [reflexivity|]. intros _. simpl. lia.
Qed.

Lemma ReadDBline_progress (file : FILE) (r : Z) (line : string) (file' : FILE) :
  ReadDBline file = (r, line, file') -> r <> EOF ->
  (List.length file' < List.length file)%nat.
Proof.
  unfold ReadDBline.
  destruct (ReadDBline_loop file "" false) as [[[r0 l0] mc0] f0] eqn:Hloop.
  destruct (ReadDBline_loop_length file "" false _ _ _ _ Hloop) as [Hlen Hcase].
  destruct mc0.
  - intros H _. inversion H. subst. clear H.
    destruct Hcase as [[_ ->] | [_ Hlt]]; [|now apply Hlt].
    destruct file as [|raw rest]; [simpl in Hloop; discriminate Hloop|simpl; lia].
  - intros H Hr. inversion H. subst. clear H.
    destruct Hcase as [[-> _] | [_ Hlt]]; [congruence|now apply Hlt].
Qed.

(** The fuel that [LoadDBvalue] is given lets the scan reach the end of
    the file: more fuel reads the same lines. *)
Lemma ReadDBlines_fuel (n m : nat) (file : FILE) :
  (List.length file < n)%nat -> (List.length file < m)%nat ->
  ReadDBlines n file = ReadDBlines m file.
Proof.
  revert m file. induction n as [|n IH]; intros m file Hn Hm; [lia|].
  destruct m as [|m]; [lia|]. simpl.
  destruct (ReadDBline file) as [[r line] file'] eqn:Hr.
  destruct (r =? EOF) eqn:He; [reflexivity|].
  apply Z.eqb_neq in He.
  pose proof (ReadDBline_progress file _ _ _ Hr He).
  f_equal. apply IH; lia.
Qed.

(** ** Value resolver *)

Lemma IsDBkey_text (line key text : string) :
  IsDBkey line key text =
  (if fst (IsDBkey line key "") =? 1 then IsDBkey line key ""
   else (fst (IsDBkey line key ""), text)).
Proof.
  unfold IsDBkey.
  destruct (find_char "=" (c_str line)) as [eq|]; [|reflexivity].
  destruct (is_empty _); [reflexivity|].
  destruct (negb _); reflexivity.
Qed.

Lemma IsDBkey_status (line key text : string) :
  fst (IsDBkey line key text) = fst (IsDBkey line key "").
Proof.
  rewrite IsDBkey_text. destruct (_ =? 1); reflexivity.
Qed.

Section Resolver.

Variable E : Externals.
Variable date : TDatime.
Variable key : string.
Variable value0 : string.

Hypothesis calendar : calendar_fields E.
Hypothesis date_valid : date_sentinel <= date.

Lemma IsDBdate_sentinel (line : string) (d : TDatime) :
  IsDBdate E line = Some d -> date_sentinel <= d.
Proof.
  unfold IsDBdate.
  destruct (find_char "[" line) as [lbrk|]; [|discriminate].
  destruct (_ >=? _); [discriminate|].
  destruct (find_char_from "]" lbrk line) as [rbrk|]; [|discriminate].
  destruct (Nat.leb rbrk (lbrk + 11)); [discriminate|].
  destruct (parse_tm E _) as [t|] eqn:Ht; [|discriminate].
  destruct (tm_year t <? 95) eqn:Hy; [discriminate|].
  intros H. inversion H. subst d. clear H.
  apply Z.ltb_ge in Hy.
  destruct (calendar _ _ Ht) as [Hmon [Hday [Hh [Hm Hs]]]].
  unfold TDatime_Set. change date_sentinel with 19950101000000. lia.
Qed.

(** What one line does to the scan, by the kind of line. *)
Lemma scan_line_date (st : scan_state) (line : string) (d : TDatime) :
  IsDBdate E line = Some d ->
  do_ignore st = true \/ fst (IsDBkey line key "") = 0 ->
  scan_line E date key st line =
  mk_scan d (prevdate st) (found st)
    (orb (d >? date) (d <? prevdate st)) (value st).
Proof.
  intros Hd Hcase. unfold scan_line.
  destruct (do_ignore st) eqn:Hi.
  - cbn [negb andb]. now rewrite Hd.
  - destruct Hcase as [Hc|Hc]; [discriminate Hc|].
    pose proof (IsDBkey_status line key (value st)) as Hs. rewrite Hc in Hs.
    destruct (IsDBkey line key (value st)) as [status v'].
    simpl in Hs. subst status. cbn [Z.eqb negb andb]. now rewrite Hd.
Qed.

Lemma scan_step (st : scan_state) (cur : TDatime)
  (best : option (TDatime * string)) (line : string) :
  scan_inv date value0 st cur best ->
  (fst (IsDBkey line key "") <> 0 -> IsDBdate E line = None) ->
  match IsDBdate E line with
  | Some d => scan_inv date value0 (scan_line E date key st line) d best
  | None =>
      scan_inv date value0 (scan_line E date key st line) cur
        (if fst (IsDBkey line key "") =? 1
         then choose date best (cur, snd (IsDBkey line key ""))
         else best)
  end.
Proof.
  intros [Hkey [Hcur [Hign Hbest]]] Hsep.
  destruct (IsDBdate E line) as [d|] eqn:Hd.
  - assert (Hst : fst (IsDBkey line key "") = 0).
    { destruct (Z.eq_dec (fst (IsDBkey line key "")) 0) as [H0|H0]; [exact H0|].
      specialize (Hsep H0). discriminate Hsep. }
    rewrite (scan_line_date st line d Hd (or_intror Hst)).
    unfold scan_inv. cbn [keydate prevdate found do_ignore value].
    repeat split; [now apply IsDBdate_sentinel with line|exact Hbest].
  - unfold scan_line. rewrite Hd.
    rewrite (IsDBkey_text line key (value st)).
    destruct (IsDBkey line key "") as [status text] eqn:Hk. cbn [fst snd].
    destruct (do_ignore st) eqn:Hi; cbn [negb andb].
    + (* ignoring: the state is unchanged, and so is the best candidate *)
      assert (Hsame : (if status =? 1 then choose date best (cur, text) else best) = best).
      { destruct (status =? 1); [|reflexivity].
        unfold choose. cbn [fst].
        symmetry in Hign. apply orb_true_iff in Hign.
        destruct Hign as [Hgt|Hlt].
        - replace (cur <=? date) with false; [reflexivity|].
          symmetry. apply Z.leb_gt. apply Z.gtb_lt in Hgt. lia.
        - apply Z.ltb_lt in Hlt.
          destruct best as [[g t]|].
          + destruct Hbest as [_ [Hp _]]. cbn [fst].
            replace (g <=? cur) with false; [now rewrite andb_false_r|].
            symmetry. apply Z.leb_gt. lia.
          + destruct Hbest as [_ [Hp _]]. lia. }
      rewrite Hsame. unfold scan_inv.
      repeat split; try assumption. rewrite Hi. exact Hign.
    + symmetry in Hign. apply orb_false_iff in Hign. destruct Hign as [Hgt Hlt].
      assert (Hle : cur <= date).
      { destruct (Z.gtb_spec cur date); [discriminate Hgt|lia]. }
      apply Z.ltb_ge in Hlt.
      destruct (status =? 1) eqn:H1.
      * apply Z.eqb_eq in H1. subst status. cbn [fst Z.eqb negb Z.gtb Z.compare].
        unfold scan_inv. cbn [keydate prevdate found do_ignore value]. rewrite Hkey.
        assert (Hch : choose date best (cur, text) = Some (cur, text)).
        { unfold choose. cbn [fst].
          replace (cur <=? date) with true by (symmetry; now apply Z.leb_le).
          destruct best as [[g t]|]; [|reflexivity].
          destruct Hbest as [_ [Hp _]]. cbn [fst].
          replace (g <=? cur) with true; [reflexivity|].
          symmetry. apply Z.leb_le. lia. }
        rewrite Hch. repeat split; [exact Hcur|].
        rewrite Z.ltb_irrefl, orb_false_r. symmetry. exact Hgt.
      * cbn [fst].
        assert (Hin : status = 0 \/ status = -1 \/ status = 1).
        { revert Hk. unfold IsDBkey.
          destruct (find_char "=" (c_str line)); [|intros H; inversion H; auto].
          destruct (is_empty _); [intros H; inversion H; auto|].
          destruct (negb _); intros H; inversion H; auto. }
        apply Z.eqb_neq in H1.
        assert (Hgoal : scan_inv date value0 st cur best)
          by (unfold scan_inv; repeat split; try assumption;
              rewrite Hi; symmetry; apply orb_false_iff; split;
              [exact Hgt|now apply Z.ltb_ge]).
        destruct Hin as [-> | [-> | ->]];
          [exact Hgoal|exact Hgoal|congruence].
Qed.

Lemma scan_fold (lines : list string) :
  forall (st : scan_state) (cur : TDatime) (best : option (TDatime * string)),
    scan_inv date value0 st cur best ->
    well_separated E key lines ->
    exact_keys key lines ->
    exists cur',
      scan_inv date value0 (fold_left (scan_line E date key) lines st) cur'
        (fold_left (choose date) (assignments E key cur lines) best).
Proof.
  induction lines as [|line rest IH]; intros st cur best Hinv Hsep Hkeys.
  - exists cur. exact Hinv.
  - inversion Hsep as [|? ? Hline Hrest]; subst.
    inversion Hkeys as [|? ? Hkey Hkeys']; subst.
    pose proof (scan_step st cur best line Hinv Hline) as Hstep.
    unfold assignments in *. cbn [fold_left assignments_by].
    destruct (IsDBdate E line) as [d|].
    + exact (IH _ _ _ Hstep Hrest Hkeys').
    + rewrite Hkey.
      destruct (fst (IsDBkey line key "") =? 1).
      * cbn [fold_left]. exact (IH _ _ _ Hstep Hrest Hkeys').
      * exact (IH _ _ _ Hstep Hrest Hkeys').
Qed.

Lemma initial_scan_inv :
  scan_inv date value0 (initial_scan value0) date_sentinel None.
Proof.
  unfold scan_inv, initial_scan. cbn [keydate prevdate found do_ignore value].
  repeat split; [lia|].
  rewrite Z.ltb_irrefl, orb_false_r.
  symmetry. destruct (Z.gtb_spec date_sentinel date); [lia|reflexivity].
Qed.

Lemma scan_lines_spec (lines : list string) :
  well_separated E key lines ->
  exact_keys key lines ->
  let st := fold_left (scan_line E date key) lines (initial_scan value0) in
  ((if found st then 0 else 1), value st) = spec_load_value E date key value0 lines.
Proof.
  intros Hsep Hkeys st.
  destruct (scan_fold lines _ _ _ initial_scan_inv Hsep Hkeys)
    as [cur' [_ [_ [_ Hbest]]]].
  unfold spec_load_value, spec_load_value_by, latest_assignment.
  fold (assignments E key date_sentinel lines). fold st in Hbest.
  destruct (fold_left (choose date) _ None) as [[g t]|].
  - destruct Hbest as [-> [_ ->]]. reflexivity.
  - destruct Hbest as [-> [_ ->]]. reflexivity.
Qed.

End Resolver.

(** What [latest_assignment] selects: an eligible candidate that no
    eligible candidate before it exceeds and that every eligible candidate
    behind it stays below; nothing when no candidate is eligible. *)
Lemma latest_assignment_spec (date : TDatime) (cands : list (TDatime * string)) :
  match latest_assignment date cands with
  | Some c =>
      fst c <= date /\
      exists before after,
        cands = (before ++ c :: after)%list /\
        Forall (fun c' => fst c' <= date -> fst c' <= fst c) before /\
        Forall (fun c' => fst c' <= date -> fst c' < fst c) after
  | None => Forall (fun c' => date < fst c') cands
  end.
Proof.
  unfold latest_assignment.
  induction cands as [|c cands IH] using rev_ind; [constructor|].
  rewrite fold_left_app. cbn [fold_left].
  destruct (fold_left (choose date) cands None) as [b|]; unfold choose.
  - destruct IH as [Hb [before [after [Hsplit [Hbef Haft]]]]].
    destruct (fst c <=? date) eqn:Hc; cbn [andb].
    + apply Z.leb_le in Hc. destruct (fst b <=? fst c) eqn:Hbc.
      * apply Z.leb_le in Hbc. split; [exact Hc|].
        exists cands, []. split; [reflexivity|]. split; [|constructor].
        subst cands. apply Forall_app. split; [|constructor].
        -- eapply Forall_impl; [|exact Hbef]. cbv beta. intros a Ha H. specialize (Ha H). lia.
        -- intros _. exact Hbc.
        -- eapply Forall_impl; [|exact Haft]. cbv beta. intros a Ha H. specialize (Ha H). lia.
      * apply Z.leb_gt in Hbc. split; [exact Hb|].
        exists before, (after ++ [c])%list. split; [|split].
        -- subst cands. now rewrite <- app_assoc.
        -- exact Hbef.
        -- apply Forall_app. split; [exact Haft|]. constructor; [|constructor].
           intros _. exact Hbc.
    + apply Z.leb_gt in Hc. split; [exact Hb|].
      exists before, (after ++ [c])%list. split; [|split].
      * subst cands. now rewrite <- app_assoc.
      * exact Hbef.
      * apply Forall_app. split; [exact Haft|]. constructor; [|constructor].
        cbv beta. unfold TDatime in *. lia.
  - destruct (fst c <=? date) eqn:Hc; cbn [andb].
    + apply Z.leb_le in Hc. split; [exact Hc|].
      exists cands, []. split; [reflexivity|]. split; [|constructor].
      eapply Forall_impl; [|exact IH]. cbv beta. intros a Ha H.
      unfold TDatime in *. lia.
    + apply Z.leb_gt in Hc. apply Forall_app. split; [exact IH|].
      constructor; [exact Hc|constructor].
Qed.

(** Where the scan agrees with the reading of the specification: on a
    file whose lines, as the line reader delivers them, keep time stamps
    and assignments apart and whose keys [IsDBkey] matches as written,
    and for a date not before 1995-01-01, [LoadDBvalue] returns the text
    of the assignment to the key with the greatest governing stamp not
    after the date, the last one in file order among those of equal
    stamp, and status 1 with the value untouched when there is none. *)
Lemma LoadDBvalue_separated_lines (E : Externals) (date : TDatime)
  (key value0 bytes : string) :
  calendar_fields E ->
  date_sentinel <= date ->
  well_separated E key (db_lines E bytes) ->
  exact_keys key (db_lines E bytes) ->
  LoadDBvalue E bytes date key value0 =
    spec_load_value E date key value0 (db_lines E bytes).
Proof.
  intros Hcal Hdate Hsep Hkeys.
  exact (scan_lines_spec E date key value0 Hcal Hdate (db_lines E bytes) Hsep Hkeys).
Qed.

Lemma canonical_tm_calendar : calendar_fields plain_ext.
Proof.
  intros ts t. cbn [parse_tm plain_ext]. unfold canonical_tm.
  destruct (negb (Nat.eqb (slen ts) 21)); [discriminate|].
  destruct (negb (String.eqb _ " -- :: ")); [discriminate|].
  destruct (digits_val (substring 1 4 ts)) as [y|]; [|discriminate].
  destruct (digits_val (substring 6 2 ts)) as [mo|]; [|discriminate].
  destruct (digits_val (substring 9 2 ts)) as [d|]; [|discriminate].
  destruct (digits_val (substring 12 2 ts)) as [h|]; [|discriminate].
  destruct (digits_val (substring 15 2 ts)) as [mi|]; [|discriminate].
  destruct (digits_val (substring 18 2 ts)) as [s|]; [|discriminate].
  destruct (andb _ _) eqn:Hb; [|discriminate].
  intros H. inversion H. subst t. clear H. cbn [tm_mon tm_mday tm_hour tm_min tm_sec].
  repeat match goal with
         | H : andb _ _ = true |- _ => apply andb_prop in H; destruct H
         | H : (_ <=? _) = true |- _ => apply Z.leb_le in H
         end.
  lia.
Qed.

(** The first scenario of the specification with a blank line in front
    of the second stamp is such a file. *)
Lemma LoadDBvalue_separated_lines_example :
  db_lines plain_ext two_stamps_separated =
    ["[ 2000-01-01 00:00:00 ]"; "x = 1"; "[ 2010-06-15 12:00:00 ]"; "x = 2"] /\
  well_separated plain_ext "x" (db_lines plain_ext two_stamps_separated) /\
  exact_keys "x" (db_lines plain_ext two_stamps_separated) /\
  LoadDBvalue plain_ext two_stamps_separated 20050101000000 "x" "" =
    spec_load_value plain_ext 20050101000000 "x" ""
      (db_lines plain_ext two_stamps_separated).
Proof.
  assert (Hlines : db_lines plain_ext two_stamps_separated =
            ["[ 2000-01-01 00:00:00 ]"; "x = 1"; "[ 2010-06-15 12:00:00 ]"; "x = 2"])
    by (vm_compute; reflexivity).
  assert (Hsep : well_separated plain_ext "x" (db_lines plain_ext two_stamps_separated)).
  { rewrite Hlines. unfold well_separated.
    repeat constructor; intros H; try reflexivity; exfalso; apply H; reflexivity. }
  assert (Hkeys : exact_keys "x" (db_lines plain_ext two_stamps_separated)).
  { rewrite Hlines. unfold exact_keys. repeat constructor. }
  split; [exact Hlines|]. split; [exact Hsep|]. split; [exact Hkeys|].
  apply LoadDBvalue_separated_lines;
    [exact canonical_tm_calendar|vm_compute; discriminate|exact Hsep|exact Hkeys].
Qed.

(** Claim C1 at the code: on the first scenario of the specification
    [LoadDBvalue] returns [2] for the date 2005-01-01, where the claim,
    and the function's own description ("values with time stamps later
    than [date] are ignored"), give [1], the assignment under the stamp
    of 2000.  The lines of the file are a stamp, [x = 1], a stamp and
    [x = 2]; the line reader takes the second stamp for a continuation of
    the assignment above it, so the scan never sees the stamp of 2010 and
    honors [x = 2] under the stamp of 2000.  For 2015-01-01 and for
    1999-01-01 the code gives what the claim gives, and with a blank line
    in front of the second stamp also for 2005-01-01.  The assignment
    honored need not be one to the key either: [IsDBkey] accepts a line
    whose left-hand side only begins the key, so with the lines [nw = 7],
    [nwires = 9], [n = 11] the key [nwires] gets [11], the value of [n],
    where the claim gives [9].  The second sentence of the claim holds
    wherever the date recognizer is reached: a line recognized as a date
    stamp while assignments are ignored, or without a ['='], sets
    [do_ignore] to [keydate > date || keydate < prevdate]. *)
Theorem LoadDBvalue_honors_later_stamp :
  (GetLines two_stamps_file =
     ["[ 2000-01-01 00:00:00 ]"; "x = 1"; "[ 2010-06-15 12:00:00 ]"; "x = 2"] /\
   spec_load_value plain_ext 20050101000000 "x" "" (GetLines two_stamps_file)
     = (0, "1") /\
   LoadDBvalue plain_ext two_stamps_file 20050101000000 "x" "" = (0, "2") /\
   db_lines plain_ext two_stamps_file =
     ["[ 2000-01-01 00:00:00 ]"; "x = 1 [ 2010-06-15 12:00:00 ]"; "x = 2"]) /\
  (spec_load_value plain_ext 20150101000000 "x" "" (GetLines two_stamps_file)
     = (0, "2") /\
   LoadDBvalue plain_ext two_stamps_file 20150101000000 "x" "" = (0, "2") /\
   spec_load_value plain_ext 19990101000000 "x" "" (GetLines two_stamps_file)
     = (1, "") /\
   LoadDBvalue plain_ext two_stamps_file 19990101000000 "x" "" = (1, "") /\
   LoadDBvalue plain_ext two_stamps_separated 20050101000000 "x" "" = (0, "1")) /\
  (GetLines prefix_keys_file = ["nw = 7"; "nwires = 9"; "n = 11"] /\
   spec_load_value plain_ext 20150101000000 "nwires" "" (GetLines prefix_keys_file)
     = (0, "9") /\
   LoadDBvalue plain_ext prefix_keys_file 20150101000000 "nwires" "" = (0, "11")) /\
  (forall (E : Externals) (date : TDatime) (key : string) (st : scan_state)
          (line : string) (d : TDatime),
      IsDBdate E line = Some d ->
      do_ignore st = true \/ fst (IsDBkey line key "") = 0 ->
      keydate (scan_line E date key st line) = d /\
      do_ignore (scan_line E date key st line) =
        orb (d >? date) (d <? prevdate st)).
Proof.
  split; [repeat split; vm_compute; reflexivity|].
  split; [repeat split; vm_compute; reflexivity|].
  split; [repeat split; vm_compute; reflexivity|].
  intros E date key st line d Hd Hcase.
  rewrite (scan_line_date E date key st line d Hd Hcase). now split.
Qed.

(** ** Line reader: implicit continuation *)

Lemma sapp_assoc (a b c : string) : (a ++ b) ++ c = a ++ (b ++ c).
Proof. induction a as [|x a IH]; simpl; [reflexivity|now rewrite IH]. Qed.

Lemma string_rev_app_spec (s acc : string) :
  string_rev_app s acc = string_rev s ++ acc.
Proof.
  unfold string_rev. revert acc.
  induction s as [|c s IH]; intros acc; simpl; [reflexivity|].
  rewrite IH, (IH (String c "")), sapp_assoc. reflexivity.
Qed.

Lemma string_rev_push_back (s : string) (c : ascii) :
  string_rev (push_back s c) = String c (string_rev s).
Proof.
  unfold push_back. induction s as [|x s IH]; [reflexivity|].
  unfold string_rev in *. simpl.
  rewrite (string_rev_app_spec (s ++ String c "") (String x "")).
  rewrite (string_rev_app_spec s (String x "")).
  unfold string_rev. rewrite IH. reflexivity.
Qed.

Lemma back_push_back (s : string) (c : ascii) : back (push_back s c) = Some c.
Proof. unfold back. now rewrite string_rev_push_back. Qed.

Lemma substring_prefix (s t : string) : substring 0 (slen s) (s ++ t) = s.
Proof.
  induction s as [|c s IH]; simpl.
  - destruct t; reflexivity.
  - now rewrite IH.
Qed.

Lemma slen_push_back (s : string) (c : ascii) : slen (push_back s c) = S (slen s).
Proof. unfold push_back. induction s as [|x s IH]; simpl; [reflexivity|now rewrite IH]. Qed.

Lemma pop_back_push_back (s : string) (c : ascii) : pop_back (push_back s c) = s.
Proof.
  unfold pop_back, erase_from. rewrite slen_push_back.
  replace (S (slen s) - 1)%nat with (slen s) by lia.
  apply substring_prefix.
Qed.

Lemma push_back_append (s t : string) (c : ascii) :
  s ++ push_back t c = push_back (s ++ t) c.
Proof. unfold push_back. now rewrite sapp_assoc. Qed.

(** The loop runs through the lines that [reading] has read. *)
Lemma ReadDBline_loop_reading (pre : list string) (line : string) (mc : bool) :
  reading pre line mc ->
  forall rest,
    ReadDBline_loop (pre ++ rest)%list "" false = ReadDBline_loop rest line mc.
Proof.
  induction 1 as [|pre line mc raw line' mc' Hread IH Hbody]; intros rest.
  - reflexivity.
  - rewrite <- app_assoc. cbn [app]. rewrite IH. cbn [ReadDBline_loop].
    now rewrite Hbody.
Qed.

(** While an implicit continuation is pending, the line ends with the
    tentative space. *)
Lemma reading_pending_space (pre : list string) (line : string) (mc : bool) :
  reading pre line mc -> mc = true -> exists l0, line = push_back l0 SP.
Proof.
  induction 1 as [|pre line mc raw line' mc' Hread IH Hbody]; [discriminate|].
  intros ->. revert Hbody. unfold ReadDBline_body.
  set (p := prepare_line raw). set (linbuf := p_linbuf p).
  destruct (andb (is_empty line) (is_empty linbuf)).
  { intros H. inversion H. subst. now apply IH. }
  destruct (negb (is_empty linbuf)).
  - destruct (andb mc (IsAssignment linbuf)); [discriminate|].
    set (mc2 := orb mc _). destruct (orb (p_continued p) mc2); [|discriminate].
    intros H. inversion H as [[Hl Hm]]. rewrite Hm. cbn [orb].
    eexists. apply push_back_append.
  - destruct (orb (p_continued p) (p_comment p)); [|discriminate].
    intros H. inversion H. subst. now apply IH.
Qed.

Lemma IsAssignment_nonempty (s : string) : IsAssignment s = true -> is_empty s = false.
Proof. destruct s; [discriminate|reflexivity]. Qed.

(** Claim C7: while an implicit continuation is pending, a new assignment
    line makes [ReadDBline] return the pending logical line, without the
    tentative space at its end, and leaves the file where the next
    [GetLine] reads that assignment line again; when the file ends
    instead, [ReadDBline] returns the pending line in the same way with
    status 0 and reports [EOF] on the next call.  The file
    [y = 10 20 / 30 40 / z = 5] is read as [y = 10 20 30 40] and
    [z = 5]. *)
Theorem ReadDBline_implicit_continuation :
  (forall (pre : list string) (line nxt : string) (rest : FILE),
      reading pre line true ->
      IsAssignment (p_linbuf (prepare_line nxt)) = true ->
      exists l0,
        line = push_back l0 SP /\
        ReadDBline (pre ++ nxt :: rest)%list = (0, l0, nxt :: rest) /\
        GetLine (nxt :: rest) = (0, nxt, rest)) /\
  (forall (pre : list string) (line : string),
      reading pre line true ->
      exists l0,
        line = push_back l0 SP /\
        ReadDBline pre = (0, l0, []) /\
        ReadDBline [] = (EOF, "", [])) /\
  (ReadDBline (GetLines continued_file) = (0, "y = 10 20 30 40", ["z = 5"]) /\
   ReadDBline ["z = 5"] = (0, "z = 5", []) /\
   ReadDBline [] = (EOF, "", []) /\
   forall (E : Externals) (date : TDatime),
     Substitute E = None ->
     LoadDBvalue E continued_file date "y" "" = (0, "10 20 30 40") /\
     LoadDBvalue E continued_file date "z" "" = (0, "5")).
Proof.
  split; [|split].
  - intros pre line nxt rest Hread Hassign.
    destruct (reading_pending_space pre line true Hread eq_refl) as [l0 Hl0].
    exists l0. split; [exact Hl0|]. split; [|reflexivity].
    unfold ReadDBline.
    rewrite (ReadDBline_loop_reading pre line true Hread (nxt :: rest)).
    cbn [ReadDBline_loop]. unfold ReadDBline_body.
    rewrite (IsAssignment_nonempty _ Hassign), Hassign, andb_false_r.
    cbn [negb andb]. subst line.
    now rewrite back_push_back, pop_back_push_back.
  - intros pre line Hread.
    destruct (reading_pending_space pre line true Hread eq_refl) as [l0 Hl0].
    exists l0. split; [exact Hl0|]. split; [|reflexivity].
    unfold ReadDBline.
    pose proof (ReadDBline_loop_reading pre line true Hread []) as Hloop.
    rewrite app_nil_r in Hloop. rewrite Hloop. cbn [ReadDBline_loop].
    subst line. now rewrite back_push_back, pop_back_push_back.
  - split; [vm_compute; reflexivity|]. split; [vm_compute; reflexivity|].
    split; [reflexivity|]. intros E date Hsub.
    unfold LoadDBvalue, scan_lines.
    replace (ReadDBlines _ (GetLines continued_file))
      with ["y = 10 20 30 40"; "z = 5"] by (vm_compute; reflexivity).
    cbn [filter is_empty negb flat_map]. unfold expand. rewrite Hsub.
    cbn [app]. split; reflexivity.
Qed.

(** ** Tag recognizers: what [IsDBkey] matches *)

Lemma app_empty_r (s : string) : s ++ "" = s.
Proof. induction s as [|c s IH]; simpl; [reflexivity|now rewrite IH]. Qed.

Lemma string_rev_append (a b : string) :
  string_rev (a ++ b) = string_rev b ++ string_rev a.
Proof.
  induction a as [|c a IH]; simpl.
  - now rewrite app_empty_r.
  - unfold string_rev in *. simpl.
    rewrite (string_rev_app_spec (a ++ b) (String c "")).
    rewrite (string_rev_app_spec a (String c "")).
    unfold string_rev. rewrite IH. apply sapp_assoc.
Qed.

Lemma string_rev_involutive (s : string) : string_rev (string_rev s) = s.
Proof.
  induction s as [|c s IH]; [reflexivity|].
  change (String c s) with (String c "" ++ s) at 1.
  rewrite string_rev_append, string_rev_append, IH. reflexivity.
Qed.

Lemma all_chars_rev (p : ascii -> bool) (s : string) :
  all_chars p s = true -> all_chars p (string_rev s) = true.
Proof.
  assert (Happ : forall a b, all_chars p a = true -> all_chars p b = true ->
                             all_chars p (a ++ b) = true).
  { induction a as [|c a IH]; simpl; intros b Ha Hb; [exact Hb|].
    apply andb_prop in Ha. destruct Ha as [Hc Ha]. now rewrite Hc, IH. }
  induction s as [|c s IH]; simpl; intros H; [reflexivity|].
  apply andb_prop in H. destruct H as [Hc Hs].
  change (String c s) with (String c "" ++ s). rewrite string_rev_append.
  apply Happ; [now apply IH|]. simpl. now rewrite Hc.
Qed.

(** [drop_trailing] removes a run of characters satisfying [p] from the
    end, and nothing else. *)
Lemma drop_trailing_split (p : ascii -> bool) (s : string) :
  exists tail, s = drop_trailing p s ++ tail /\ all_chars p tail = true.
Proof.
  unfold drop_trailing.
  destruct (skip_while_split p (string_rev s)) as [ws [Hs Hws]].
  exists (string_rev ws). split; [|now apply all_chars_rev].
  rewrite <- string_rev_append, <- Hs. symmetry. apply string_rev_involutive.
Qed.

Lemma drop_trailing_nonempty (p : ascii -> bool) (c : ascii) (r : string) :
  p c = false -> drop_trailing p (String c r) <> "".
Proof.
  intros Hc Hd.
  destruct (drop_trailing_split p (String c r)) as [tail [Hs Htail]].
  rewrite Hd in Hs. simpl in Hs. subst tail. simpl in Htail.
  rewrite Hc in Htail. discriminate Htail.
Qed.

(** [strncmp] over the length of [a] asks whether [b] begins with [a]. *)
Lemma strncmp_eq_prefix (a x b : string) :
  strncmp_eq (a ++ x) b (slen a) = true <-> exists t, b = a ++ t.
Proof.
  revert b. induction a as [|c a IH]; intros b; cbn [slen String.length strncmp_eq append].
  - split; [intros _; now exists b|reflexivity].
  - destruct b as [|d b].
    + split; [discriminate|]. intros [t Ht]. discriminate Ht.
    + destruct (Ascii.eqb_spec c d) as [->|Hcd].
      * rewrite (IH b). split; intros [t Ht].
        -- exists t. now rewrite Ht.
        -- exists t. now inversion Ht.
      * split; [discriminate|]. intros [t Ht]. inversion Ht. congruence.
Qed.

(** [IsDBkey] in full: no ['='] gives 0; otherwise the left-hand side is
    [lhs], the text before the first ['='] without the blanks around it,
    and the line matches exactly when [lhs] is not empty and the key
    begins with [lhs]. *)
Lemma IsDBkey_spec (line key text : string) :
  match find_char "=" (c_str line) with
  | None => IsDBkey line key text = (0, text)
  | Some eq =>
      let lhs :=
        drop_trailing is_blank
          (skip_while is_blank (erase_from eq (c_str line))) in
      (lhs <> "" /\ (exists t, c_str key = lhs ++ t) /\
       IsDBkey line key text =
         (1, skip_while is_blank (substr_from (S eq) (c_str line)))) \/
      ((lhs = "" \/ ~ (exists t, c_str key = lhs ++ t)) /\
       IsDBkey line key text = (-1, text))
  end.
Proof.
  unfold IsDBkey.
  destruct (find_char "=" (c_str line)) as [eq|]; [|reflexivity].
  cbv zeta.
  set (s := skip_while is_blank (erase_from eq (c_str line))).
  pose proof (skip_while_head is_blank (erase_from eq (c_str line))) as Hhead.
  fold s in Hhead.
  destruct s as [|c r] eqn:Hs.
  - right. split; [left; reflexivity|reflexivity].
  - cbn [is_empty].
    pose proof (drop_trailing_nonempty is_blank c r Hhead) as Hne.
    destruct (drop_trailing_split is_blank (String c r)) as [tail [Hsplit _]].
    set (lhs := drop_trailing is_blank (String c r)) in *.
    pose proof (strncmp_eq_prefix lhs (tail ++ substr_from eq (c_str line))
                  (c_str key)) as Hcmp.
    rewrite <- sapp_assoc, <- Hsplit in Hcmp.
    destruct (strncmp_eq _ (c_str key) (slen lhs)) eqn:Hc; cbn [negb].
    + left. split; [exact Hne|]. split; [now apply Hcmp|reflexivity].
    + right. split; [|reflexivity]. right. intros Hex.
      apply Hcmp in Hex. discriminate Hex.
Qed.

(** The witness of the theorem on implicit continuation: the pending line
    [y = 10 20 / 30 40] in front of [z = 5]. *)
Lemma ReadDBline_implicit_continuation_witness :
  reading ["y = 10 20"; "30 40"] "y = 10 20 30 40 " true /\
  IsAssignment (p_linbuf (prepare_line "z = 5")) = true /\
  exists l0,
    "y = 10 20 30 40 " = push_back l0 SP /\
    ReadDBline (["y = 10 20"; "30 40"] ++ ["z = 5"])%list = (0, l0, ["z = 5"]) /\
    GetLine ["z = 5"] = (0, "z = 5", []).
Proof.
  assert (Hread : reading ["y = 10 20"; "30 40"] "y = 10 20 30 40 " true).
  { apply (reading_next ["y = 10 20"] "y = 10 20 " true "30 40");
      [|reflexivity].
    apply (reading_next [] "" false "y = 10 20"); [|reflexivity].
    exact reading_start. }
  split; [exact Hread|]. split; [reflexivity|].
  exact (proj1 ReadDBline_implicit_continuation
           ["y = 10 20"; "30 40"] "y = 10 20 30 40 " "z = 5" [] Hread eq_refl).
Defined.

(** ** Typed converters: arrays and matrices *)

Lemma slen_app (a b : string) : slen (a ++ b) = (slen a + slen b)%nat.
Proof. induction a as [|c a IH]; simpl; [reflexivity|now rewrite IH]. Qed.

Lemma slen_substring (n m : nat) (s : string) : (slen (substring n m s) <= m)%nat.
Proof.
  revert n m. induction s as [|c s IH]; intros n m.
  - destruct n, m; simpl; lia.
  - destruct n as [|n].
    + destruct m as [|m]; simpl; [lia|]. specialize (IH O m). lia.
    + simpl. apply IH.
Qed.

Lemma scan_int_shorter (p : string) (neg : bool) (m : Z) (rest : string) :
  scan_int p = Some (neg, m, rest) -> (slen rest < slen p)%nat.
Proof.
  intros H. destruct (scan_int_sound p neg m rest H) as [Htext _].
  destruct Htext as [ws [sign [ds [Hp [_ [_ [Hne _]]]]]]].
  subst p. rewrite !slen_app. destruct ds; [congruence|simpl; lia].
Qed.

Section Arrays.

Variable E : Externals.

(** A field that converts leaves less text than it was given, unless
    nothing is left. *)
Lemma convert_field_progress (T : NumT) (p : string) (v : Num E) (rest : string) :
  convert_field E T p = Some (v, rest) ->
  rest = "" \/ (slen rest < slen p)%nat.
Proof.
  unfold convert_field.
  destruct (cv_moved (convert_string E T p)) eqn:Hmoved;
    [|cbn [negb orb]; discriminate].
  destruct (orb _ _); [discriminate|].
  intros H. inversion H. subst v rest. clear H.
  revert Hmoved. unfold convert_string.
  destruct (is_floating_point T).
  - destruct (strtofp E T p) as [[x n] err]. cbn [cv_moved cv_rest].
    intros Hn. unfold substr_from.
    pose proof (slen_substring n (slen p - n) p) as Hlen.
    destruct n as [|n]; [discriminate Hn|].
    destruct p as [|c p]; [left; reflexivity|].
    right. cbn [slen String.length] in *. lia.
  - destruct (is_unsigned T).
    + unfold strtoull. destruct (scan_int p) as [[[neg m] rest]|] eqn:Hs;
        [|discriminate].
      pose proof (scan_int_shorter p neg m rest Hs).
      destruct (_ <? _); cbn [cv_moved cv_rest]; intros _; now right.
    + unfold strtoll. destruct (scan_int p) as [[[neg m] rest]|] eqn:Hs;
        [|discriminate].
      pose proof (scan_int_shorter p neg m rest Hs).
      destruct (_ <? _); [|destruct (_ <? _)]; cbn [cv_moved cv_rest];
        intros _; now right.
Qed.

(** The loop of [LoadDBarray] ends within the fuel it is given. *)
Lemma array_loop_total (T : NumT) (fuel : nat) :
  forall (p : string) (values : list (Num E)),
    (slen p < fuel)%nat -> array_loop E T fuel p values <> None.
Proof.
  induction fuel as [|fuel IH]; intros p values Hlt; [lia|].
  cbn [array_loop].
  destruct (convert_field E T p) as [[v rest]|] eqn:Hf; [|discriminate].
  destruct (is_empty rest) eqn:He; [discriminate|].
  apply IH.
  destruct (convert_field_progress T p v rest Hf) as [-> | Hlt'];
    [discriminate He|lia].
Qed.

Lemma LoadDBarray_total (T : NumT) (bytes : string) (date : TDatime) (key : string) :
  exists st vals, LoadDBarray E T bytes date key = Some (st, vals).
Proof.
  unfold LoadDBarray.
  destruct (LoadDBvalue E bytes date key "") as [err text].
  destruct (negb (err =? 0)); [now eexists; eexists|].
  unfold convert_array.
  pose proof (array_loop_total T (S (slen text)) text [] (Nat.lt_succ_diag_r _)) as H.
  destruct (array_loop E T (S (slen text)) text []) as [[st vals]|];
    [now eexists; eexists|congruence].
Qed.

(** *** Reshaping *)

Lemma skipn_nth_error {A : Type} (l : list A) (n : nat) (x : A) :
  nth_error l n = Some x -> skipn n l = x :: skipn (S n) l.
Proof.
  revert n. induction l as [|a l IH]; intros [|n]; simpl; try discriminate.
  - intros H. now inversion H.
  - intros H. now apply IH.
Qed.

Lemma firstn_plus {A : Type} (n m : nat) (l : list A) :
  firstn (n + m) l = (firstn n l ++ firstn m (skipn n l))%list.
Proof.
  revert l. induction n as [|n IH]; intros l; [reflexivity|].
  destruct l as [|a l]; simpl; [now rewrite firstn_nil|].
  now rewrite IH.
Qed.

Lemma matrix_row_gather (tmpval : list (Num E)) (off k : nat) :
  forall (a : nat) (acc : list (Num E)),
    (a + off + k <= List.length tmpval)%nat ->
    fold_left
      (fun (row : option (list (Num E))) (i : nat) =>
         match row, nth_error tmpval (i + off) with
         | Some r, Some x => Some (r ++ [x])%list
         | _, _ => None
         end)
      (seq a k) (Some acc)
    = Some (acc ++ firstn k (skipn (a + off) tmpval))%list.
Proof.
  induction k as [|k IH]; intros a acc Hlen; cbn [seq fold_left].
  - now rewrite app_nil_r.
  - destruct (nth_error tmpval (a + off)) as [x|] eqn:Hx.
    + rewrite IH by lia. rewrite (skipn_nth_error tmpval (a + off) x Hx).
      cbn [firstn]. rewrite <- app_assoc. reflexivity.
    + apply nth_error_None in Hx. lia.
Qed.

Lemma matrix_row_spec (tmpval : list (Num E)) (ncols irow : nat) :
  (irow * ncols + ncols <= List.length tmpval)%nat ->
  matrix_row E tmpval ncols irow = Some (firstn ncols (skipn (irow * ncols) tmpval)).
Proof.
  intros Hlen. unfold matrix_row.
  rewrite (matrix_row_gather tmpval (irow * ncols) ncols O []) by lia.
  reflexivity.
Qed.

Lemma matrix_rows_gather (tmpval : list (Num E)) (ncols k : nat) :
  forall (a : nat) (acc : list (list (Num E))),
    ((a + k) * ncols <= List.length tmpval)%nat ->
    fold_left
      (fun (vals : option (list (list (Num E)))) (irow : nat) =>
         match vals, matrix_row E tmpval ncols irow with
         | Some v, Some row => Some (v ++ [row])%list
         | _, _ => None
         end)
      (seq a k) (Some acc)
    = Some (acc ++ map (fun irow => firstn ncols (skipn (irow * ncols) tmpval))
                     (seq a k))%list.
Proof.
  induction k as [|k IH]; intros a acc Hlen; cbn [seq fold_left map].
  - now rewrite app_nil_r.
  - rewrite matrix_row_spec by nia.
    rewrite IH by nia. rewrite <- app_assoc. reflexivity.
Qed.

Lemma concat_chunks (tmpval : list (Num E)) (ncols k : nat) :
  forall a : nat,
    List.concat (map (fun irow => firstn ncols (skipn (irow * ncols) tmpval)) (seq a k))
    = firstn (k * ncols) (skipn (a * ncols) tmpval).
Proof.
  induction k as [|k IH]; intros a; cbn [seq map List.concat]; [reflexivity|].
  rewrite IH. cbn [Nat.mul]. rewrite firstn_plus, skipn_skipn.
  replace (ncols + a * ncols)%nat with (S a * ncols)%nat by (cbn [Nat.mul]; lia).
  reflexivity.
Qed.

(** With at least one column and a divisible element count, the loops of
    [LoadDBmatrix] cut the array into rows of [ncols] elements, in
    order. *)
Lemma reshape_row_major (tmpval : list (Num E)) (ncols : nat) :
  (0 < ncols)%nat ->
  Nat.modulo (List.length tmpval) ncols = O ->
  exists mat,
    reshape E tmpval ncols = Returns (0, Some mat) /\
    List.length mat = Nat.div (List.length tmpval) ncols /\
    Forall (fun row => List.length row = ncols) mat /\
    List.concat mat = tmpval.
Proof.
  intros Hpos Hmod. unfold reshape.
  destruct ncols as [|n]; [lia|]. set (ncols := S n) in *.
  rewrite Hmod. cbn [Nat.eqb negb].
  assert (Hlen : List.length tmpval = (Nat.div (List.length tmpval) ncols * ncols)%nat).
  { pose proof (Nat.div_mod_eq (List.length tmpval) ncols). lia. }
  set (nrows := Nat.div (List.length tmpval) ncols) in *.
  unfold matrix_rows.
  rewrite (matrix_rows_gather tmpval ncols nrows O []) by lia.
  cbn [app]. eexists. split; [reflexivity|]. split; [|split].
  - now rewrite length_map, length_seq.
  - apply Forall_forall. intros row Hin. apply in_map_iff in Hin.
    destruct Hin as [irow [<- Hin]]. apply in_seq in Hin.
    rewrite length_firstn, length_skipn. nia.
  - rewrite concat_chunks. cbn [Nat.mul skipn].
    rewrite <- Hlen. apply firstn_all.
Qed.

End Arrays.

(** What [LoadDBmatrix] returns with at least one column, by the outcome
    of the array conversion. *)
Lemma LoadDBmatrix_cases (E : Externals) (T : NumT) (bytes : string)
  (date : TDatime) (key : string) (ncols : nat) :
  (0 < ncols)%nat ->
  exists st vals,
    LoadDBarray E T bytes date key = Some (st, vals) /\
    (st <> 0 -> LoadDBmatrix E T bytes date key ncols = Returns (st, None)) /\
    (st = 0 -> forall tmpval, vals = Some tmpval ->
       (Nat.modulo (List.length tmpval) ncols <> O ->
        LoadDBmatrix E T bytes date key ncols = Returns (-129, None)) /\
       (Nat.modulo (List.length tmpval) ncols = O ->
        exists mat,
          LoadDBmatrix E T bytes date key ncols = Returns (0, Some mat) /\
          List.length mat = Nat.div (List.length tmpval) ncols /\
          Forall (fun row => List.length row = ncols) mat /\
          List.concat mat = tmpval)).
Proof.
  intros Hpos.
  destruct (LoadDBarray_total E T bytes date key) as [st [vals Harr]].
  exists st, vals. split; [exact Harr|]. split.
  - intros Hst. unfold LoadDBmatrix. rewrite Harr.
    apply Z.eqb_neq in Hst. now rewrite Hst.
  - intros -> tmpval ->. unfold LoadDBmatrix. rewrite Harr.
    cbn [Z.eqb negb]. split.
    + intros Hmod. unfold reshape. destruct ncols as [|n]; [lia|].
      apply Nat.eqb_neq in Hmod. now rewrite Hmod.
    + intros Hmod. exact (reshape_row_major E tmpval ncols Hpos Hmod).
Qed.

(** Claim C9: for a matrix request with [ncols] >= 1 columns,
    [LoadDBmatrix] converts the value as an array first and passes on the
    status of a failure; on success it returns -129 unless the number of
    elements is divisible by [ncols], and otherwise the elements in rows
    of [ncols], in order.  With three columns the value [1 2 3 4 5 6]
    gives the rows [1 2 3] and [4 5 6], the value [1 2 3 4 5] gives
    -129. *)
Theorem LoadDBmatrix_row_major (E : Externals) (T : NumT) (bytes : string)
  (date : TDatime) (key : string) (ncols : nat) :
  (0 < ncols)%nat ->
  (exists st vals,
      LoadDBarray E T bytes date key = Some (st, vals) /\
      (st <> 0 -> LoadDBmatrix E T bytes date key ncols = Returns (st, None)) /\
      (st = 0 -> forall tmpval, vals = Some tmpval ->
         (Nat.modulo (List.length tmpval) ncols <> O ->
          LoadDBmatrix E T bytes date key ncols = Returns (-129, None)) /\
         (Nat.modulo (List.length tmpval) ncols = O ->
          exists mat,
            LoadDBmatrix E T bytes date key ncols = Returns (0, Some mat) /\
            List.length mat = Nat.div (List.length tmpval) ncols /\
            Forall (fun row => List.length row = ncols) mat /\
            List.concat mat = tmpval))) /\
  (forall d : TDatime,
      Substitute E = None ->
      LoadDBmatrix E TInt matrix_file d "m" 3 =
        Returns (0, Some [[NInt E 1; NInt E 2; NInt E 3];
                          [NInt E 4; NInt E 5; NInt E 6]]) /\
      LoadDBmatrix E TInt matrix_file d "n" 3 = Returns (-129, None)).
Proof.
  intros Hpos. split.
  - exact (LoadDBmatrix_cases E T bytes date key ncols Hpos).
  - intros d Hsub.
    assert (Hval : forall k, LoadDBvalue E matrix_file d k ""
              = let st := fold_left (scan_line E d k)
                            ["m = 1 2 3 4 5 6"; "n = 1 2 3 4 5"] (initial_scan "") in
                ((if found st then 0 else 1), value st)).
    { intros k. unfold LoadDBvalue, scan_lines.
      replace (ReadDBlines _ (GetLines matrix_file))
        with ["m = 1 2 3 4 5 6"; "n = 1 2 3 4 5"] by (vm_compute; reflexivity).
      cbn [filter is_empty negb flat_map]. unfold expand. rewrite Hsub.
      reflexivity. }
    unfold LoadDBmatrix, LoadDBarray. rewrite !Hval. split; reflexivity.
Qed.

(** The theorem at the sixth scenario of the specification. *)
Lemma LoadDBmatrix_row_major_witness :
  (0 < 3)%nat /\
  exists st vals,
    LoadDBarray plain_ext TInt matrix_file 20150101000000 "m" = Some (st, vals) /\
    (st = 0 -> forall tmpval, vals = Some tmpval ->
       Nat.modulo (List.length tmpval) 3 = O ->
       exists mat,
         LoadDBmatrix plain_ext TInt matrix_file 20150101000000 "m" 3
           = Returns (0, Some mat) /\
         List.concat mat = tmpval).
Proof.
  split; [lia|].
  destruct (LoadDBmatrix_row_major plain_ext TInt matrix_file 20150101000000 "m" 3
              ltac:(lia)) as [[st [vals [Harr [_ Hok]]]] _].
  exists st, vals. split; [exact Harr|].
  intros Hst tmpval Hvals Hmod.
  destruct (Hok Hst tmpval Hvals) as [_ Hdiv].
  destruct (Hdiv Hmod) as [mat [Hmat [_ [_ Hconcat]]]].
  exists mat. now split.
Defined.

(** Claim C10: with [ncols] = 0 every successful array conversion leads
    [LoadDBmatrix] to the remainder by zero, which is undefined; with at
    least one column [LoadDBmatrix] always returns.  [LoadDatabase] passes
    [nelem] on as [ncols], so a matrix-typed request with [nelem] = 0
    whose value converts is undefined as well. *)
Theorem LoadDBmatrix_zero_columns (E : Externals) (bytes : string)
  (date : TDatime) :
  (forall (T : NumT) (key : string) (tmpval : list (Num E)),
      LoadDBarray E T bytes date key = Some (0, Some tmpval) ->
      LoadDBmatrix E T bytes date key 0 = Undefined) /\
  (forall (T : NumT) (key : string) (ncols : nat),
      (0 < ncols)%nat ->
      exists r, LoadDBmatrix E T bytes date key ncols = Returns r) /\
  (forall (item : DBRequest) (rest : list DBRequest) (T : NumT) (dest : nat)
          (prefix : string) (search_ : Z) (mem : Mem E) (tmpval : list (Num E)),
      matrix_type (type item) = Some T ->
      var item = Some dest ->
      nelem item = O ->
      LoadDBarray E T bytes date (prefix ++ name item) = Some (0, Some tmpval) ->
      LoadDatabase E bytes date (item :: rest) prefix search_ mem = Undefined).
Proof.
  split; [|split].
  - intros T key tmpval Harr. unfold LoadDBmatrix. now rewrite Harr.
  - intros T key ncols Hpos.
    destruct (LoadDBmatrix_cases E T bytes date key ncols Hpos)
      as [st [vals [Harr [Hbad Hok]]]].
    destruct (Z.eq_dec st 0) as [->|Hst].
    + destruct vals as [tmpval|].
      * destruct (Hok eq_refl tmpval eq_refl) as [Hnd Hdiv].
        destruct (Nat.eq_dec (Nat.modulo (List.length tmpval) ncols) O) as [Hm|Hm].
        -- destruct (Hdiv Hm) as [mat [Hmat _]]. eexists. exact Hmat.
        -- eexists. exact (Hnd Hm).
      * unfold LoadDBmatrix. rewrite Harr. cbn [Z.eqb negb]. now eexists.
    + eexists. exact (Hbad Hst).
  - intros item rest T dest prefix search_ mem tmpval Hty Hvar Hn Harr.
    unfold LoadDatabase. cbn [LoadDatabase_rec LoadDatabase_items]. rewrite Hvar.
    assert (Hload : load_item E bytes date (prefix ++ name item) item dest mem
                    = Undefined).
    { unfold load_item. rewrite Hn.
      destruct (type item); try discriminate Hty;
        inversion Hty; subst T; unfold load_and_assign_matrix, LoadDBmatrix;
        now rewrite Harr. }
    now rewrite Hload.
Qed.

Lemma matrix_file_array (E : Externals) (d : TDatime) :
  Substitute E = None ->
  LoadDBarray E TInt matrix_file d "m"
    = Some (0, Some [NInt E 1; NInt E 2; NInt E 3; NInt E 4; NInt E 5; NInt E 6]).
Proof.
  intros Hsub. unfold LoadDBarray, LoadDBvalue, scan_lines.
  replace (ReadDBlines _ (GetLines matrix_file))
    with ["m = 1 2 3 4 5 6"; "n = 1 2 3 4 5"] by (vm_compute; reflexivity).
  cbn [filter is_empty negb flat_map]. unfold expand. rewrite Hsub.
  reflexivity.
Qed.

(** The theorem at a request for an integer matrix with [nelem] = 0. *)
Lemma LoadDBmatrix_zero_columns_witness :
  LoadDBarray plain_ext TInt matrix_file 20150101000000 "m"
    = Some (0, Some [NInt plain_ext 1; NInt plain_ext 2; NInt plain_ext 3;
                     NInt plain_ext 4; NInt plain_ext 5; NInt plain_ext 6]) /\
  LoadDBmatrix plain_ext TInt matrix_file 20150101000000 "m" 0 = Undefined /\
  LoadDatabase plain_ext matrix_file 20150101000000
    [mk_req "m" (Some O) kIntM 0 false None 0] "" 0 (fun _ => None) = Undefined.
Proof.
  pose proof (matrix_file_array plain_ext 20150101000000 eq_refl) as Harr.
  destruct (LoadDBmatrix_zero_columns plain_ext matrix_file 20150101000000)
    as [Hzero [_ Hload]].
  split; [exact Harr|]. split.
  - exact (Hzero TInt "m" _ Harr).
  - exact (Hload (mk_req "m" (Some O) kIntM 0 false None 0) [] TInt O "" 0
             (fun _ => None) _ eq_refl eq_refl eq_refl Harr).
Defined.

(** ** Path resolver *)

(** Claim C8, as the code has it: a name with a ['/'] is returned alone
    and verbatim; for any other non-empty name, when a database directory
    [dir] can be opened, the list begins with the bare file name
    [db_<name>.dat], without a [./] in front of it, and ends with
    [<dir>/db_<name>.dat]. *)
Theorem GetDBFileList_first_and_last (sys : TSystem) (name : string)
  (date : TDatime) :
  c_str name = name ->
  (forall i, find_char "/" name = Some i ->
             GetDBFileList sys name date = [name]) /\
  (forall dir entries,
      name <> "" ->
      find_char "/" name = None ->
      first_open sys (search_dirs sys) = Some (dir, entries) ->
      (4 <= slen (db_prefixed name))%nat ->
      exists middle,
        GetDBFileList sys name date =
          (db_filename name
             :: middle ++ [(dir ++ "/" ++ db_filename name)%string])%list) /\
  (db_filename "run" = "db_run.dat" /\ db_filename "L." = "db_L.dat" /\
   db_filename "db_run.dat" = "db_run.dat").
Proof.
  intros Hc. unfold GetDBFileList. rewrite Hc. split; [|split].
  - intros i Hi. destruct name as [|c r]; [discriminate Hi|]. cbn [is_empty].
    now rewrite Hi.
  - intros dir entries Hne Hslash Hopen Hlen.
    destruct name as [|c r]; [congruence|]. cbn [is_empty].
    rewrite Hslash, Hopen.
    apply Nat.ltb_ge in Hlen. rewrite Hlen.
    eexists. rewrite app_assoc. reflexivity.
  - repeat split; reflexivity.
Qed.

(** The theorem in the example directory, for the name [run]. *)
Lemma GetDBFileList_first_and_last_witness :
  c_str "run" = "run" /\ "run" <> "" /\ find_char "/" "run" = None /\
  first_open example_sys (search_dirs example_sys)
    = Some ("DB", ["."; ".."; "20200101"; "DEFAULT"; "20100101"; "db_run.dat"]) /\
  (4 <= slen (db_prefixed "run"))%nat /\
  exists middle,
    GetDBFileList example_sys "run" 20150101000000 =
      ("db_run.dat" :: middle ++ ["DB/db_run.dat"])%list.
Proof.
  split; [reflexivity|]. split; [discriminate|]. split; [reflexivity|].
  split; [reflexivity|]. split; [vm_compute; lia|].
  exact (proj1 (proj2 (GetDBFileList_first_and_last example_sys "run"
                         20150101000000 eq_refl))
           "DB" _ ltac:(discriminate) eq_refl eq_refl ltac:(vm_compute; lia)).
Defined.

(** Claim C8 as stated fails: the first candidate is the bare file name,
    not the string [./db_<name>.dat]. *)
Lemma GetDBFileList_first_is_bare :
  GetDBFileList example_sys "run" 20150101000000 =
    ["db_run.dat"; "DB/20100101/db_run.dat"; "DB/DEFAULT/db_run.dat";
     "DB/db_run.dat"] /\
  ~ (forall (sys : TSystem) (name : string) (date : TDatime),
        find_char "/" name = None ->
        hd_error (GetDBFileList sys name date)
          = Some ("./" ++ db_filename name)).
Proof.
  split; [vm_compute; reflexivity|].
  intros H. specialize (H example_sys "run" 20150101000000 eq_refl).
  vm_compute in H. discriminate H.
Qed.

(** ** Request loader *)

Lemma rfind_char_le (c : ascii) (s : string) :
  forall pos i, rfind_char c pos s = Some i -> (i <= pos)%nat.
Proof.
  induction s as [|x s IH]; intros pos i.
  { destruct pos; intros H; discriminate H. }
  destruct pos as [|pos]; cbn [rfind_char].
  - destruct (Ascii.eqb x c); [|discriminate]. intros H. inversion H. lia.
  - destruct (rfind_char c pos s) as [j|] eqn:Hj.
    + intros H. inversion H. specialize (IH pos j Hj). lia.
    + destruct (Ascii.eqb x c); [|discriminate]. intros H. inversion H. lia.
Qed.

Lemma ChopPrefix_shorter (s : string) :
  s <> "" -> (slen (fst (ChopPrefix s)) < slen s)%nat.
Proof.
  intros Hne. unfold ChopPrefix.
  destruct (Nat.leb 2 (slen s)) eqn:Hlen.
  - apply Nat.leb_le in Hlen.
    destruct (rfind_char "." (slen s - 2) s) as [pos|] eqn:Hpos; cbn [fst].
    + apply rfind_char_le in Hpos. unfold erase_from.
      pose proof (slen_substring 0 (pos + 1) s). lia.
    + simpl. lia.
  - cbn [fst]. destruct s; [congruence|simpl; lia].
Qed.

Lemma ChopPrefix_level (s : string) :
  snd (ChopPrefix s) + 1 = level (fst (ChopPrefix s)).
Proof.
  unfold ChopPrefix, level.
  destruct (Nat.leb 2 (slen s)); [|reflexivity].
  destruct (rfind_char "." (slen s - 2) s); reflexivity.
Qed.

Lemma is_empty_false (s : string) : is_empty s = false <-> s <> "".
Proof. destruct s; simpl; split; congruence. Qed.

Lemma ancestors_fuel (n : nat) :
  forall (m : nat) (p : string),
    (slen p <= n)%nat -> (slen p <= m)%nat -> ancestors n p = ancestors m p.
Proof.
  induction n as [|n IH]; intros m p Hn Hm.
  - destruct p; [|simpl in Hn; lia]. destruct m; reflexivity.
  - destruct m as [|m].
    + destruct p; [reflexivity|simpl in Hm; lia].
    + cbn [ancestors]. destruct (is_empty p) eqn:He; [reflexivity|].
      apply is_empty_false in He.
      pose proof (ChopPrefix_shorter p He).
      f_equal. apply IH; lia.
Qed.

(** [search_path] follows the steps that [LoadDatabase] takes. *)
Lemma search_path_unfold (prefix : string) (srch : Z) :
  search_path prefix srch =
  prefix ::
    (if andb (negb (srch =? 0)) (negb (is_empty prefix)) then
       let '(newprefix, ndot) := ChopPrefix prefix in
       if orb (srch <? 0) (ndot + 1 >=? srch)
       then search_path newprefix (if srch <? 0 then srch + 1 else srch)
       else []
     else []).
Proof.
  unfold search_path at 1. f_equal.
  destruct (srch =? 0) eqn:H0; [reflexivity|]. cbn [negb andb].
  apply Z.eqb_neq in H0.
  destruct (is_empty prefix) eqn:He.
  - destruct prefix; [|discriminate He]. cbn [slen String.length ancestors].
    destruct (srch <? 0); [apply firstn_nil|reflexivity].
  - pose proof (proj1 (is_empty_false prefix) He) as Hne.
    pose proof (ChopPrefix_shorter prefix Hne) as Hshort.
    pose proof (ChopPrefix_level prefix) as Hlevel.
    destruct (ChopPrefix prefix) as [newprefix ndot] eqn:Hchop.
    cbn [fst snd] in Hshort, Hlevel.
    destruct (slen prefix) as [|n] eqn:Hn; [lia|].
    cbn [ancestors]. rewrite He, Hchop. cbn [fst].
    rewrite (ancestors_fuel n (slen newprefix) newprefix) by lia.
    destruct (srch <? 0) eqn:Hneg; cbn [orb].
    + apply Z.ltb_lt in Hneg.
      replace (Z.to_nat (- srch)) with (S (Z.to_nat (- (srch + 1)))) by lia.
      cbn [firstn]. unfold search_path. f_equal.
      destruct (srch + 1 =? 0) eqn:H1.
      * apply Z.eqb_eq in H1. replace (Z.to_nat (- (srch + 1))) with O by lia.
        reflexivity.
      * apply Z.eqb_neq in H1.
        replace (srch + 1 <? 0) with true by (symmetry; apply Z.ltb_lt; lia).
        reflexivity.
    + cbn [take_while]. rewrite <- Hlevel.
      destruct (ndot + 1 >=? srch); [|reflexivity].
      unfold search_path. rewrite Hneg.
      replace (srch =? 0) with false by (symmetry; now apply Z.eqb_neq).
      reflexivity.
Qed.

Section Loader.

Variable E : Externals.
Variable bytes : string.
Variable date : TDatime.

Lemma array_loop_status (T : NumT) (fuel : nat) :
  forall (p : string) (values : list (Num E)) (st : Z) (vals : list (Num E)),
    array_loop E T fuel p values = Some (st, vals) -> st = 0 \/ st = -131.
Proof.
  induction fuel as [|fuel IH]; intros p values st vals; cbn [array_loop];
    [discriminate|].
  destruct (convert_field E T p) as [[v rest]|].
  - destruct (is_empty rest).
    + intros H. inversion H. now left.
    + apply IH.
  - intros H. inversion H. now right.
Qed.

Lemma LoadDBarray_status (T : NumT) (key : string) (st : Z)
  (vals : option (list (Num E))) :
  LoadDBarray E T bytes date key = Some (st, vals) ->
  match vals with
  | Some _ => st = 0 \/ st = -131
  | None => st <> 0
  end.
Proof.
  unfold LoadDBarray.
  destruct (LoadDBvalue E bytes date key "") as [err text].
  destruct (negb (err =? 0)) eqn:Herr.
  - intros H. inversion H. subst. apply negb_true_iff in Herr.
    now apply Z.eqb_neq.
  - unfold convert_array.
    destruct (array_loop E T (S (slen text)) text []) as [[st' vals']|] eqn:Hloop;
      [|discriminate].
    intros H. inversion H. subst. eapply array_loop_status. exact Hloop.
Qed.

(** A lookup that reports "key not found" leaves the destinations as
    they are. *)
Lemma load_item_not_found (key : string) (item : DBRequest) (dest : nat)
  (mem mem1 : Mem E) (ret1 : Z) :
  load_item E bytes date key item dest mem = Returns (ret1, mem1) ->
  ret1 > 0 -> mem1 = mem.
Proof.
  assert (Hnum : forall T n,
             load_and_assign E T bytes date key dest n mem = Returns (ret1, mem1) ->
             ret1 > 0 -> mem1 = mem).
  { intros T n. unfold load_and_assign. destruct (Nat.ltb n 2).
    - destruct (LoadDBvalue_num E T bytes date key) as [st [val|]].
      + intros H Hpos. inversion H. subst.
        destruct (ret1 =? 0) eqn:H0; [apply Z.eqb_eq in H0; lia|reflexivity].
      + intros H _. now inversion H.
    - destruct (LoadDBarray E T bytes date key) as [[st [vals|]]|] eqn:Harr;
        [| |discriminate].
      + destruct (st =? 0) eqn:H0.
        * apply Z.eqb_eq in H0.
          destruct (negb _); [|destruct (sizeof T =? 8)];
            intros H Hpos; inversion H; subst; lia.
        * intros H _. now inversion H.
      + intros H _. now inversion H. }
  assert (Hvec : forall T n,
             load_and_assign_vector E T bytes date key dest n mem
               = Returns (ret1, mem1) ->
             ret1 > 0 -> mem1 = mem).
  { intros T n. unfold load_and_assign_vector.
    destruct (LoadDBarray E T bytes date key) as [[st [vals|]]|] eqn:Harr;
      [| |discriminate].
    - pose proof (LoadDBarray_status T key st (Some vals) Harr) as Hst.
      cbv iota in Hst.
      destruct (andb _ _); intros H Hpos; inversion H; subst; lia.
    - intros H _. now inversion H. }
  assert (Hmat : forall T n,
             load_and_assign_matrix E T bytes date key dest n mem
               = Returns (ret1, mem1) ->
             ret1 > 0 -> mem1 = mem).
  { intros T n. unfold load_and_assign_matrix, LoadDBmatrix.
    destruct (LoadDBarray E T bytes date key) as [[st [vals|]]|] eqn:Harr;
      [| |discriminate].
    - pose proof (LoadDBarray_status T key st (Some vals) Harr) as Hst.
      cbv iota in Hst.
      destruct (negb (st =? 0)) eqn:H0.
      + intros H _. now inversion H.
      + unfold reshape. destruct n as [|n]; [discriminate|].
        destruct (matrix_rows E vals (S n) _);
          destruct (negb (Nat.eqb _ _));
          intros H Hpos; inversion H; subst; lia.
    - destruct (negb (st =? 0)); intros H _; now inversion H. }
  assert (Hstr : load_string E bytes date key dest mem = Returns (ret1, mem1) ->
                 ret1 > 0 -> mem1 = mem).
  { unfold load_string. destruct (LoadDBvalue E bytes date key "") as [err text].
    destruct (err =? 0) eqn:H0.
    - apply Z.eqb_eq in H0. intros H Hpos. inversion H. subst. lia.
    - intros H _. now inversion H. }
  unfold load_item. destruct (type item); eauto.
  intros H Hpos. inversion H. subst. lia.
Qed.

Lemma load_item_no_search (key : string) (item : DBRequest) (dest : nat)
  (mem : Mem E) :
  load_item E bytes date key (no_search item) dest mem
  = load_item E bytes date key item dest mem.
Proof. reflexivity. Qed.

(** The loader on a single request, for any fuel above the length of the
    prefix. *)
Lemma LoadDatabase_rec_single (fuel : nat) :
  forall (item : DBRequest) (dest : nat) (prefix : string) (search_ : Z)
         (mem : Mem E),
    var item = Some dest ->
    (slen prefix < fuel)%nat ->
    LoadDatabase_rec E fuel bytes date [item] prefix search_ mem =
    first_found
      (fun p => load_item E bytes date (p ++ name item) item dest mem)
      (search_path prefix (effective_search item search_))
      (Returns ((if optional item then 0 else 1), mem)).
Proof.
  induction fuel as [|fuel IH]; intros item dest prefix search_ mem Hvar Hfuel;
    [lia|].
  cbn [LoadDatabase_rec LoadDatabase_items]. rewrite Hvar.
  rewrite search_path_unfold. cbn [first_found].
  destruct (load_item E bytes date (prefix ++ name item) item dest mem)
    as [[ret1 mem1]| | |] eqn:Hload; try reflexivity.
  destruct (ret1 =? 0) eqn:H0.
  { apply Z.eqb_eq in H0. subst ret1. reflexivity. }
  destruct (ret1 >? 0) eqn:Hpos; [|reflexivity].
  assert (Hmem : mem1 = mem).
  { apply (load_item_not_found _ _ _ _ _ _ Hload).
    destruct (Z.gtb_spec ret1 0); [lia|discriminate]. }
  subst mem1. fold (effective_search item search_).
  set (srch := effective_search item search_).
  assert (Hmissing : (if optional item
                      then Returns (0, mem)
                      else Returns (1 + 0, mem))
                     = Returns ((if optional item then 0 else 1), mem) :> behaviour (Z * Mem E))
    by (destruct (optional item); reflexivity).
  destruct (andb (negb (srch =? 0)) (negb (is_empty prefix))) eqn:Hup;
    [|cbn [first_found]; exact Hmissing].
  apply andb_prop in Hup. destruct Hup as [_ Hne].
  apply negb_true_iff in Hne.
  pose proof (ChopPrefix_shorter prefix (proj1 (is_empty_false prefix) Hne)) as Hshort.
  destruct (ChopPrefix prefix) as [newprefix ndot]. cbn [fst] in Hshort.
  destruct (orb (srch <? 0) (ndot + 1 >=? srch));
    [|cbn [first_found]; exact Hmissing].
  rewrite (IH (no_search item) dest newprefix _ mem Hvar) by lia.
  unfold effective_search at 1. cbn [search no_search Z.eqb negb].
  cbn [name no_search optional].
  change (fun p => load_item E bytes date (p ++ name item) (no_search item) dest mem)
    with (fun p => load_item E bytes date (p ++ name item) item dest mem).
  match goal with
  | |- match ?x with _ => _ end = _ => destruct x as [[ret2 mem2]| | |]
  end; try reflexivity.
  destruct (ret2 =? 0) eqn:H2; cbn [negb]; [|reflexivity].
  apply Z.eqb_eq in H2. now subst ret2.
Qed.

(** The loop over the items of a request, for any fuel that covers the
    prefixes above [prefix]. *)
Lemma LoadDatabase_items_search (fuel : nat) (prefix : string) (search_ : Z) :
  (slen prefix <= fuel)%nat ->
  forall (req : list DBRequest) (idx : Z) (mem : Mem E),
    0 <= idx ->
    LoadDatabase_items E (LoadDatabase_rec E fuel bytes date) bytes date
      prefix search_ req idx 0 mem =
    load_by_search E bytes date prefix search_ req idx mem.
Proof.
  intros Hfuel. induction req as [|item rest IH]; intros idx mem Hidx;
    [reflexivity|].
  assert (Hnext : forall m,
             LoadDatabase_items E (LoadDatabase_rec E fuel bytes date) bytes date
               prefix search_ rest (idx + 1) 0 m =
             load_by_search E bytes date prefix search_ rest (idx + 1) m)
    by (intros m; apply IH; lia).
  cbn [LoadDatabase_items load_by_search].
  destruct (var item) as [dest|] eqn:Hvar; [|apply Hnext].
  cbv zeta. fold (effective_search item search_).
  set (srch := effective_search item search_).
  rewrite (search_path_unfold prefix srch). cbn [first_found].
  destruct (load_item E bytes date (prefix ++ name item) item dest mem)
    as [[ret1 mem1]| | |] eqn:Hload; try reflexivity.
  destruct (ret1 =? 0) eqn:H0.
  { apply Z.eqb_eq in H0. subst ret1. cbn [Z.gtb Z.compare Z.eqb]. apply Hnext. }
  destruct (ret1 >? 0) eqn:Hpos; [|rewrite H0; reflexivity].
  assert (Hmem : mem1 = mem).
  { apply (load_item_not_found _ _ _ _ _ _ Hload).
    destruct (Z.gtb_spec ret1 0); [lia|discriminate]. }
  subst mem1.
  assert (Hmissing :
            (if optional item
             then LoadDatabase_items E (LoadDatabase_rec E fuel bytes date)
                    bytes date prefix search_ rest (idx + 1) 0 mem
             else Returns (1 + idx, mem))
            = (if (if optional item then 0 else 1 + idx) =? 0
               then load_by_search E bytes date prefix search_ rest (idx + 1) mem
               else Returns ((if optional item then 0 else 1 + idx), mem))).
  { destruct (optional item); [apply Hnext|].
    replace (1 + idx =? 0) with false by (symmetry; apply Z.eqb_neq; lia).
    reflexivity. }
  destruct (andb (negb (srch =? 0)) (negb (is_empty prefix))) eqn:Hup;
    [|cbn [first_found]; exact Hmissing].
  apply andb_prop in Hup. destruct Hup as [_ Hne].
  apply negb_true_iff in Hne.
  pose proof (ChopPrefix_shorter prefix (proj1 (is_empty_false prefix) Hne)) as Hshort.
  destruct (ChopPrefix prefix) as [newprefix ndot]. cbn [fst] in Hshort.
  destruct (orb (srch <? 0) (ndot + 1 >=? srch));
    [|cbn [first_found]; exact Hmissing].
  destruct fuel as [|fuel']; [lia|].
  rewrite (LoadDatabase_rec_single (S fuel') (no_search item) dest
             newprefix _ mem Hvar) by lia.
  unfold effective_search at 1. cbn [search no_search Z.eqb negb].
  cbn [name no_search optional].
  change (fun p => load_item E bytes date (p ++ name item) (no_search item) dest mem)
    with (fun p => load_item E bytes date (p ++ name item) item dest mem).
  set (srch' := if srch <? 0 then srch + 1 else srch).
  rewrite (search_path_unfold newprefix srch').
  match goal with
  | |- match ?x with _ => _ end = _ => destruct x as [[ret2 mem2]| | |]
  end; try reflexivity.
  destruct (ret2 =? 0) eqn:H2; cbn [negb]; [|reflexivity].
  apply Z.eqb_eq in H2. subst ret2. apply Hnext.
Qed.

End Loader.

Lemma take_while_In {A : Type} (p : A -> bool) (l : list A) (x : A) :
  In x (take_while p l) -> p x = true.
Proof.
  induction l as [|y l IH]; cbn [take_while]; [intros []|].
  destruct (p y) eqn:Hy; [|intros []].
  intros [->|H]; [exact Hy|now apply IH].
Qed.

(** Claim C5: for every item of a request that has a destination,
    [LoadDatabase] looks the key up at the prefix and, while the key is
    not found, at the prefixes above it, one [ChopPrefix] step at a time:
    with a negative effective search level [-k] at most [k] steps up (the
    level counts up towards 0 with every step), with a positive one [N]
    only while the new level is at least [N], and not at all with 0 or
    with an empty prefix; the first lookup that finds the key (or fails
    for another reason) decides for the item.  With prefix [L.vdc.u1.],
    key [nw] and the single line [L.nw = 7], a global search level 1 finds
    7, also for an item behind another one, and a search level -1, global
    or of the item, fails after the one step up to [L.vdc.]. *)
Theorem LoadDatabase_search_up (E : Externals) (bytes : string) (date : TDatime)
  (req : list DBRequest) (prefix : string) (search_ : Z) (mem : Mem E) :
  LoadDatabase E bytes date req prefix search_ mem =
    load_by_search E bytes date prefix search_ req 0 mem /\
  (forall srch : Z,
      search_path prefix srch =
      prefix ::
        (if andb (negb (srch =? 0)) (negb (is_empty prefix)) then
           let newprefix := fst (ChopPrefix prefix) in
           if orb (srch <? 0) (level newprefix >=? srch)
           then search_path newprefix (if srch <? 0 then srch + 1 else srch)
           else []
         else [])) /\
  (forall srch : Z, srch < 0 ->
      (List.length (search_path prefix srch) <= 1 + Z.to_nat (- srch))%nat) /\
  (forall (srch : Z) (p : string), 0 < srch ->
      In p (tl (search_path prefix srch)) -> srch <= level p) /\
  (search_path "L.vdc.u1." 1 = ["L.vdc.u1."; "L.vdc."; "L."; ""] /\
   search_path "L.vdc.u1." 2 = ["L.vdc.u1."; "L.vdc."; "L."] /\
   search_path "L.vdc.u1." (-1) = ["L.vdc.u1."; "L.vdc."] /\
   search_path "L.vdc.u1." 0 = ["L.vdc.u1."]) /\
  (Substitute E = None ->
   LoadDatabase E nw_file date [nw_request 0] "L.vdc.u1." 1 mem
     = Returns (0, store E mem O (VNum E (NInt E 7))) /\
   LoadDatabase E nw_file date nx_nw_requests "L.vdc.u1." 1 mem
     = Returns (0, store E mem O (VNum E (NInt E 7))) /\
   LoadDatabase E nw_file date [nw_request 0] "L.vdc.u1." (-1) mem
     = Returns (1, mem) /\
   LoadDatabase E nw_file date [nw_request (-1)] "L.vdc.u1." 0 mem
     = Returns (1, mem) /\
   LoadDatabase E nw_file date nx_nw_requests "L.vdc.u1." (-1) mem
     = Returns (1, mem)).
Proof.
  assert (Heq : forall bytes' req' prefix' search',
             LoadDatabase E bytes' date req' prefix' search' mem =
             load_by_search E bytes' date prefix' search' req' 0 mem).
  { intros bytes' req' prefix' search'. unfold LoadDatabase.
    cbn [LoadDatabase_rec].
    apply (LoadDatabase_items_search E bytes' date (slen prefix') prefix' search');
      lia. }
  split; [apply Heq|].
  split; [|split; [|split; [|split]]].
  - intros srch. rewrite (search_path_unfold prefix srch) at 1. f_equal.
    destruct (andb _ _); [|reflexivity].
    pose proof (ChopPrefix_level prefix) as Hlevel.
    destruct (ChopPrefix prefix) as [newprefix ndot]. cbn [fst snd] in *.
    cbv zeta. rewrite <- Hlevel. reflexivity.
  - intros srch Hneg. unfold search_path.
    replace (_ =? 0) with false by (symmetry; apply Z.eqb_neq; lia).
    replace (_ <? 0) with true by (symmetry; apply Z.ltb_lt; lia).
    cbn [List.length]. rewrite length_firstn. lia.
  - intros srch p Hpos. unfold search_path. cbn [tl].
    replace (_ =? 0) with false by (symmetry; apply Z.eqb_neq; lia).
    replace (_ <? 0) with false by (symmetry; apply Z.ltb_ge; lia).
    intros Hin. apply take_while_In in Hin.
    destruct (Z.geb_spec (level p) srch); [lia|discriminate].
  - repeat split; reflexivity.
  - intros Hsub.
    assert (Hval : forall k, LoadDBvalue E nw_file date k ""
              = let st := scan_line E date k (initial_scan "") "L.nw = 7" in
                ((if found st then 0 else 1), value st)).
    { intros k. unfold LoadDBvalue, scan_lines.
      replace (ReadDBlines _ (GetLines nw_file)) with ["L.nw = 7"]
        by (vm_compute; reflexivity).
      cbn [filter is_empty negb flat_map]. unfold expand. rewrite Hsub.
      reflexivity. }
    assert (Hmiss : forall item dest m k,
               type item = kInt -> nelem item = 1%nat ->
               k = "L.vdc.u1.nw" \/ k = "L.vdc.nw" \/ k = "nw" \/
               k = "L.vdc.u1.nx" \/ k = "L.vdc.nx" \/ k = "L.nx" \/ k = "nx" ->
               load_item E nw_file date k item dest m = Returns (1, m)).
    { intros item dest m k Hty Hn Hk.
      unfold load_item, load_and_assign, LoadDBvalue_num.
      rewrite Hty, Hn. cbn [Nat.ltb Nat.leb]. rewrite Hval.
      destruct Hk as [-> | [-> | [-> | [-> | [-> | [-> | ->]]]]]]; reflexivity. }
    assert (Hhit : forall item dest m,
               type item = kInt -> nelem item = 1%nat ->
               load_item E nw_file date "L.nw" item dest m
               = Returns (0, store E m dest (VNum E (NInt E 7)))).
    { intros item dest m Hty Hn.
      unfold load_item, load_and_assign, LoadDBvalue_num.
      rewrite Hty, Hn. cbn [Nat.ltb Nat.leb]. rewrite Hval. reflexivity. }
    rewrite !Heq. unfold nx_nw_requests.
    cbn [load_by_search var nw_request name optional].
    change (effective_search (nw_request 0) 1) with 1.
    change (effective_search (nw_request 0) (-1)) with (-1).
    change (effective_search (nw_request (-1)) 0) with (-1).
    change (effective_search (mk_req "nx" (Some 1%nat) kInt 1 true None 0) 1) with 1.
    change (effective_search (mk_req "nx" (Some 1%nat) kInt 1 true None 0) (-1))
      with (-1).
    replace (search_path "L.vdc.u1." 1) with ["L.vdc.u1."; "L.vdc."; "L."; ""]
      by reflexivity.
    replace (search_path "L.vdc.u1." (-1)) with ["L.vdc.u1."; "L.vdc."]
      by reflexivity.
    cbn [first_found append].
    repeat
      (match goal with
       | |- context [load_item E nw_file date ?k ?it ?d ?m] =>
           first [ rewrite (Hhit it d m) by reflexivity
                 | rewrite (Hmiss it d m k) by (try reflexivity; tauto) ]
       end;
       cbn [Z.gtb Z.compare Z.eqb]).
    repeat split; reflexivity.
Qed.

(** The loader on the file with [L.a] only, for any externals without
    text variables. *)
Lemma LoadDatabase_ab (E : Externals) (date : TDatime) (mem : Mem E) :
  Substitute E = None ->
  (exists mem', LoadDatabase E a_file date ab_requests "L." 1 mem
                = Returns (1, mem')) /\
  (exists mem', LoadDatabase E a_file date ab_requests "L." 0 mem
                = Returns (2, mem')) /\
  (exists mem',
      LoadDatabase E a_file date
        [mk_req "b" (Some 1%nat) kInt 1 true None 0;
         mk_req "a" (Some O) kInt 1 false None 0] "L." 0 mem
        = Returns (0, mem') /\
      mem' 1%nat = mem 1%nat /\ mem' O = Some (VNum E (NInt E 7))) /\
  (exists mem',
      LoadDatabase E a_file date
        [mk_req "b" (Some 1%nat) kInt 1 true None 0;
         mk_req "a" (Some O) kInt 1 false None 0] "L." 1 mem
        = Returns (0, mem') /\
      mem' 1%nat = mem 1%nat /\ mem' O = Some (VNum E (NInt E 7))).
Proof.
  intros Hsub.
  assert (Hval : forall k, LoadDBvalue E a_file date k ""
            = let st := scan_line E date k (initial_scan "") "L.a = 7" in
              ((if found st then 0 else 1), value st)).
  { intros k. unfold LoadDBvalue, scan_lines.
    replace (ReadDBlines _ (GetLines a_file)) with ["L.a = 7"]
      by (vm_compute; reflexivity).
    cbn [filter is_empty negb flat_map]. unfold expand. rewrite Hsub.
    reflexivity. }
  assert (Ha : LoadDBvalue_num E TInt a_file date "L.a" = (0, Some (NInt E 7)))
    by (unfold LoadDBvalue_num; rewrite Hval; reflexivity).
  assert (Hb : LoadDBvalue_num E TInt a_file date "L.b" = (1, None))
    by (unfold LoadDBvalue_num; rewrite Hval; reflexivity).
  assert (Hb' : LoadDBvalue_num E TInt a_file date "b" = (1, None))
    by (unfold LoadDBvalue_num; rewrite Hval; reflexivity).
  split; [|split; [|split]].
  - unfold LoadDatabase, ab_requests.
    cbn -[LoadDBvalue_num a_file]. rewrite Ha. cbn -[LoadDBvalue_num a_file]. rewrite Hb.
    cbn -[LoadDBvalue_num a_file]. rewrite Hb'. cbn -[LoadDBvalue_num a_file].
    eexists. reflexivity.
  - unfold LoadDatabase, ab_requests.
    cbn -[LoadDBvalue_num a_file]. rewrite Ha. cbn -[LoadDBvalue_num a_file]. rewrite Hb.
    cbn -[LoadDBvalue_num a_file]. eexists. reflexivity.
  - unfold LoadDatabase.
    cbn -[LoadDBvalue_num a_file]. rewrite Hb. cbn -[LoadDBvalue_num a_file]. rewrite Ha.
    cbn -[LoadDBvalue_num a_file]. eexists. repeat split; reflexivity.
  - unfold LoadDatabase.
    cbn -[LoadDBvalue_num a_file]. rewrite Hb. cbn -[LoadDBvalue_num a_file]. rewrite Hb'.
    cbn -[LoadDBvalue_num a_file]. rewrite Ha. cbn -[LoadDBvalue_num a_file].
    eexists. repeat split; reflexivity.
Qed.

(** Claim C6 at the code: the second of two required items is missing,
    and with a search level that makes the loader try the prefix above,
    the value returned is the 1 of the recursive call on the single
    item, not 1 + 1; without the retry (search level 0) it is 2.  A
    missing optional item gives 0, with or without the retry, its
    destination stays as it was and the item behind it is loaded. *)
Theorem LoadDatabase_missing_item_index (date : TDatime) (mem : Mem plain_ext) :
  (exists mem', LoadDatabase plain_ext a_file date ab_requests "L." 1 mem
                = Returns (1, mem')) /\
  (exists mem', LoadDatabase plain_ext a_file date ab_requests "L." 0 mem
                = Returns (2, mem')) /\
  (exists mem',
      LoadDatabase plain_ext a_file date
        [mk_req "b" (Some 1%nat) kInt 1 true None 0;
         mk_req "a" (Some O) kInt 1 false None 0] "L." 0 mem
        = Returns (0, mem') /\
      mem' 1%nat = mem 1%nat /\
      mem' O = Some (VNum plain_ext (NInt plain_ext 7))) /\
  (exists mem',
      LoadDatabase plain_ext a_file date
        [mk_req "b" (Some 1%nat) kInt 1 true None 0;
         mk_req "a" (Some O) kInt 1 false None 0] "L." 1 mem
        = Returns (0, mem') /\
      mem' 1%nat = mem 1%nat /\
      mem' O = Some (VNum plain_ext (NInt plain_ext 7))).
Proof.
  exact (LoadDatabase_ab plain_ext date mem eq_refl).
Qed.

(* ====================================================================== *)
(** ** Further properties *)

Lemma count_char_app (c : ascii) (a b : string) :
  count_char c (a ++ b) = (count_char c a + count_char c b)%nat.
Proof. induction a as [|x a IH]; simpl; [reflexivity|rewrite IH; lia]. Qed.

Lemma count_char_erase (c : ascii) (s : string) :
  forall b : nat,
    (forall i, find_char c s = Some i -> (b <= i)%nat) ->
    count_char c (erase_from b s) = O.
Proof.
  unfold erase_from.
  induction s as [|x s IH]; intros b Hb; [destruct b; reflexivity|].
  destruct b as [|b]; [reflexivity|].
  simpl in *. destruct (Ascii.eqb x c).
  - specialize (Hb O eq_refl). lia.
  - simpl. apply IH. intros i Hi. rewrite Hi in Hb. specialize (Hb (S i) eq_refl). lia.
Qed.

Lemma count_char_none (c : ascii) (s : string) :
  find_char c s = None -> count_char c s = O.
Proof.
  induction s as [|x s IH]; simpl; [reflexivity|].
  destruct (Ascii.eqb x c); [discriminate|].
  destruct (find_char c s); [discriminate|]. intros _. now apply IH.
Qed.

Lemma count_char_rev (c : ascii) (s : string) :
  count_char c (string_rev s) = count_char c s.
Proof.
  induction s as [|x s IH]; [reflexivity|].
  change (String x s) with ((String x "") ++ s).
  rewrite string_rev_append, !count_char_app, IH. cbn. lia.
Qed.

Lemma count_char_skip_while (c : ascii) (p : ascii -> bool) (s : string) :
  (count_char c (skip_while p s) <= count_char c s)%nat.
Proof.
  destruct (skip_while_split p s) as [ws [Hs _]].
  rewrite Hs at 2. rewrite count_char_app. lia.
Qed.

Lemma count_char_Trim (c : ascii) (s : string) :
  (count_char c (Trim s) <= count_char c s)%nat.
Proof.
  unfold Trim, drop_trailing. rewrite count_char_rev.
  etransitivity; [apply count_char_skip_while|].
  rewrite count_char_rev. apply count_char_skip_while.
Qed.

Lemma back_drop_trailing (p : ascii -> bool) (s : string) :
  match back (drop_trailing p s) with Some c => p c = false | None => True end.
Proof.
  unfold back, drop_trailing. rewrite string_rev_involutive.
  pose proof (skip_while_head p (string_rev s)) as H.
  destruct (skip_while p (string_rev s)); simpl; assumption.
Qed.

Lemma front_drop_trailing (p : ascii -> bool) (s : string) :
  match front s with
  | Some c => p c = false -> front (drop_trailing p s) = Some c
  | None => drop_trailing p s = ""
  end.
Proof.
  destruct s as [|c r]; [reflexivity|]. cbn [front]. intros Hc.
  pose proof (drop_trailing_nonempty p c r Hc) as Hne.
  destruct (drop_trailing_split p (String c r)) as [tail [Hs _]].
  destruct (drop_trailing p (String c r)) as [|d r']; [congruence|].
  simpl in Hs. inversion Hs. reflexivity.
Qed.

Lemma Trim_ends (s : string) :
  opt_isspace (front (Trim s)) = false /\ opt_isspace (back (Trim s)) = false.
Proof.
  unfold Trim. split.
  - pose proof (skip_while_head isspace s) as Hh.
    pose proof (front_drop_trailing isspace (skip_while isspace s)) as Hf.
    destruct (skip_while isspace s) as [|c r]; cbn [front] in Hf.
    + now rewrite Hf.
    + rewrite (Hf Hh). exact Hh.
  - pose proof (back_drop_trailing isspace (skip_while isspace s)) as Hb.
    destruct (back _); [exact Hb|reflexivity].
Qed.

Lemma prepare_line_ends (s : string) (cm ct : bool) :
  let p :=
    if is_empty s then mk_prepared s cm ct false false
    else
      let leading := opt_isspace (front s) in
      let trailing := opt_isspace (back s) in
      mk_prepared (if orb leading trailing then Trim s else s) cm ct leading trailing in
  opt_isspace (front (p_linbuf p)) = false /\
  opt_isspace (back (p_linbuf p)) = false /\
  (forall c, count_char c (p_linbuf p) <= count_char c s)%nat.
Proof.
  destruct s as [|c r]; [cbn; auto|].
  cbn [is_empty]. cbv zeta. cbn [p_linbuf].
  destruct (opt_isspace (front (String c r))) eqn:Hf;
    destruct (opt_isspace (back (String c r))) eqn:Hb; cbn [orb];
    try (split; [apply Trim_ends|split; [apply Trim_ends|intros; apply count_char_Trim]]).
  auto.
Qed.

(** Property X9: what [prepare_line] leaves in [linbuf] holds neither a
    ['#'] nor a backslash and neither begins nor ends with white space;
    [comment] and [continued] are never both set, and when neither is set
    the line held neither mark. *)
Theorem prepare_line_clean (linbuf : string) :
  let p := prepare_line linbuf in
  count_char "#" (p_linbuf p) = O /\
  count_char "\" (p_linbuf p) = O /\
  opt_isspace (front (p_linbuf p)) = false /\
  opt_isspace (back (p_linbuf p)) = false /\
  (p_comment p = true -> p_continued p = false) /\
  (p_comment p = false -> p_continued p = false ->
   count_char "#" linbuf = O /\ count_char "\" linbuf = O).
Proof.
  cbv zeta. unfold prepare_line.
  destruct (is_empty linbuf) eqn:He.
  { destruct linbuf; [cbn; auto 10|discriminate]. }
  assert (Hgen : forall (s : string) (cm ct : bool),
             count_char "#" s = O -> count_char "\" s = O ->
             (cm = true -> ct = false) ->
             (cm = false -> ct = false ->
              count_char "#" linbuf = O /\ count_char "\" linbuf = O) ->
             let p :=
               if is_empty s then mk_prepared s cm ct false false
               else
                 let leading := opt_isspace (front s) in
                 let trailing := opt_isspace (back s) in
                 mk_prepared (if orb leading trailing then Trim s else s)
                   cm ct leading trailing in
             count_char "#" (p_linbuf p) = O /\
             count_char "\" (p_linbuf p) = O /\
             opt_isspace (front (p_linbuf p)) = false /\
             opt_isspace (back (p_linbuf p)) = false /\
             (p_comment p = true -> p_continued p = false) /\
             (p_comment p = false -> p_continued p = false ->
              count_char "#" linbuf = O /\ count_char "\" linbuf = O)).
  { intros s cm ct H1 H2 H3 H4.
    pose proof (prepare_line_ends s cm ct) as [Hf [Hb Hc]].
    cbv zeta in *.
    pose proof (Hc "#"%char) as Hc1. pose proof (Hc "\"%char) as Hc2.
    destruct (is_empty s); cbn [p_linbuf p_comment p_continued] in *;
      (repeat split; [lia|lia|assumption|assumption|assumption|now apply H4|now apply H4]). }
  destruct (find_char "#" linbuf) as [a|] eqn:Ha;
    destruct (find_char "\" linbuf) as [b|] eqn:Hb.
  - destruct a as [|a]; [cbn; repeat split; auto; discriminate|].
    destruct (Nat.leb b (S a)) eqn:Hle.
    + apply Hgen; try discriminate.
      * apply count_char_erase. intros i Hi. rewrite Ha in Hi. inversion Hi; subst.
        apply Nat.leb_le in Hle. lia.
      * apply count_char_erase. intros i Hi. rewrite Hb in Hi. inversion Hi; subst. lia.
    + apply Hgen; try discriminate; try reflexivity.
      * apply count_char_erase. intros i Hi. rewrite Ha in Hi. inversion Hi; subst. lia.
      * apply count_char_erase. intros i Hi. rewrite Hb in Hi. inversion Hi; subst.
        apply Nat.leb_gt in Hle. lia.
  - destruct a as [|a]; [cbn; repeat split; auto; discriminate|].
    apply Hgen; try discriminate; try reflexivity.
    + apply count_char_erase. intros i Hi. rewrite Ha in Hi. inversion Hi; subst. lia.
    + apply count_char_erase. intros i Hi. rewrite Hb in Hi. discriminate.
  - apply Hgen; try discriminate.
    + apply count_char_erase. intros i Hi. rewrite Ha in Hi. discriminate.
    + apply count_char_erase. intros i Hi. rewrite Hb in Hi. inversion Hi; subst. lia.
  - apply Hgen.
    + now apply count_char_none.
    + now apply count_char_none.
    + discriminate.
    + intros _ _. split; now apply count_char_none.
Qed.

Lemma prepare_line_marks (linbuf : string) (c : ascii) :
  c = "#"%char \/ c = "\"%char ->
  count_char c (p_linbuf (prepare_line linbuf)) = O.
Proof.
  intros Hc. unfold prepare_line.
  destruct (is_empty linbuf) eqn:He.
  { destruct linbuf; [reflexivity|discriminate]. }
  assert (Hgen : forall (s : string) (cm ct : bool),
             count_char c s = O ->
             count_char c
               (p_linbuf
                  (if is_empty s then mk_prepared s cm ct false false
                   else
                     let leading := opt_isspace (front s) in
                     let trailing := opt_isspace (back s) in
                     mk_prepared (if orb leading trailing then Trim s else s)
                       cm ct leading trailing)) = O).
  { intros s cm ct H1.
    pose proof (prepare_line_ends s cm ct) as [_ [_ H]]. cbv zeta in H.
    specialize (H c). cbv zeta. lia. }
  destruct (find_char "#" linbuf) as [a|] eqn:Ha;
    destruct (find_char "\" linbuf) as [b|] eqn:Hb.
  - destruct a as [|a]; [reflexivity|].
    destruct (Nat.leb b (S a)) eqn:Hle; apply Hgen; apply count_char_erase;
      intros i Hi; destruct Hc as [-> | ->];
      rewrite ?Ha, ?Hb in Hi; inversion Hi; subst;
      try (apply Nat.leb_le in Hle); try (apply Nat.leb_gt in Hle); lia.
  - destruct a as [|a]; [reflexivity|].
    apply Hgen; apply count_char_erase;
      intros i Hi; destruct Hc as [-> | ->];
      rewrite ?Ha, ?Hb in Hi; inversion Hi; subst; lia.
  - apply Hgen; apply count_char_erase;
      intros i Hi; destruct Hc as [-> | ->];
      rewrite ?Ha, ?Hb in Hi; inversion Hi; subst; lia.
  - apply Hgen. destruct Hc as [-> | ->]; now apply count_char_none.
Qed.

Lemma app_nonempty_r (a b : string) : b <> "" -> a ++ b <> "".
Proof. destruct a; simpl; [auto|discriminate]. Qed.

Lemma push_back_nonempty (s : string) (c : ascii) : push_back s c <> "".
Proof. unfold push_back. apply app_nonempty_r. discriminate. Qed.

Lemma count_char_push_back_SP (c : ascii) (s : string) :
  c = "#"%char \/ c = "\"%char ->
  count_char c (push_back s SP) = count_char c s.
Proof.
  intros Hc. unfold push_back. rewrite count_char_app.
  destruct Hc as [-> | ->]; cbn; lia.
Qed.

Lemma ReadDBline_body_inv (raw line : string) (mc : bool) :
  line_inv line mc ->
  match ReadDBline_body raw line mc with
  | Next line' mc' => line_inv line' mc'
  | Stop line' mc' _ => line_inv line' mc' /\ line' <> ""
  end.
Proof.
  intros [H1 [H2 H3]]. unfold ReadDBline_body. cbv zeta.
  pose proof (prepare_line_marks raw "#" (or_introl eq_refl)) as P1.
  pose proof (prepare_line_marks raw "\" (or_intror eq_refl)) as P2.
  set (p := prepare_line raw) in *.
  destruct (is_empty (p_linbuf p)) eqn:Eb.
  - rewrite andb_true_r. cbn [negb].
    destruct (is_empty line) eqn:El; [repeat split; assumption|].
    destruct (orb (p_continued p) (p_comment p)); [repeat split; assumption|].
    split; [repeat split; assumption|]. now apply is_empty_false.
  - rewrite andb_false_r. cbn [negb].
    apply is_empty_false in Eb.
    destruct (andb mc (IsAssignment (p_linbuf p))) eqn:Hs.
    { apply andb_prop in Hs. destruct Hs as [-> _].
      split; [repeat split; assumption|].
      destruct (H3 eq_refl) as [l0 [_ ->]]. apply push_back_nonempty. }
    set (mc' := orb mc (andb (andb (is_empty line) (negb (p_continued p)))
                          (IsAssignment (p_linbuf p)))).
    set (b2 := orb mc' (andb (p_trailing_space p) (p_continued p))).
    set (b1 := andb (andb (p_leading_space p) (negb (is_empty line)))
                 (negb (opt_isspace (back line)))).
    assert (C : forall c, c = "#"%char \/ c = "\"%char -> count_char c line = O ->
                count_char c (p_linbuf p) = O ->
                count_char c ((if b1 then push_back line SP else line) ++
                              (if b2 then push_back (p_linbuf p) SP else p_linbuf p)) = O).
    { intros c Hc A B. rewrite count_char_app.
      destruct b1; destruct b2;
        rewrite ?count_char_push_back_SP by assumption; lia. }
    assert (L3 : mc' = true ->
                 exists l0, l0 <> "" /\
                   (if b1 then push_back line SP else line) ++
                   (if b2 then push_back (p_linbuf p) SP else p_linbuf p)
                   = push_back l0 SP).
    { intros Hm. subst b2. rewrite Hm. cbn [orb].
      exists ((if b1 then push_back line SP else line) ++ p_linbuf p).
      split; [now apply app_nonempty_r|]. apply push_back_append. }
    assert (L4 : (if b1 then push_back line SP else line) ++
                 (if b2 then push_back (p_linbuf p) SP else p_linbuf p) <> "").
    { apply app_nonempty_r. destruct b2; [apply push_back_nonempty|assumption]. }
    destruct (orb (p_continued p) mc'); repeat split; auto.
Qed.

Lemma ReadDBline_loop_inv (file : FILE) :
  forall (line : string) (mc : bool),
    line_inv line mc ->
    let '(r, line', mc', file') := ReadDBline_loop file line mc in
    line_inv line' mc' /\ (exists read, file = (read ++ file')%list) /\
    (r = EOF /\ file' = [] \/ r = 0 /\ line' <> "").
Proof.
  induction file as [|raw rest IH]; intros line mc Hinv.
  - cbn. split; [assumption|]. split; [now exists []|now left].
  - cbn [ReadDBline_loop].
    pose proof (ReadDBline_body_inv raw line mc Hinv) as Hb.
    destruct (ReadDBline_body raw line mc) as [l m|l m rw].
    + specialize (IH l m Hb).
      destruct (ReadDBline_loop rest l m) as [[[r l'] m'] f'].
      destruct IH as [I1 [[read I2] I3]].
      split; [assumption|]. split; [|assumption].
      exists (raw :: read). now rewrite I2.
    + destruct Hb as [Hb Hne]. split; [assumption|]. split; [|now right].
      destruct rw; [now exists []|now exists [raw]].
Qed.

Lemma count_char_pop_back (c : ascii) (s : string) :
  (count_char c (pop_back s) <= count_char c s)%nat.
Proof.
  unfold pop_back, erase_from.
  generalize (slen s - 1)%nat. induction s as [|x s IH]; intros n.
  - destruct n; simpl; lia.
  - destruct n; simpl; [lia|]. specialize (IH n). lia.
Qed.

(** Property X10: [ReadDBline] returns 0 only with a non-empty logical
    line and only after consuming at least one physical line; otherwise
    it returns [EOF] at the end of the file.  What remains to be read is
    always a tail of the file, and the logical line never holds a ['#']
    or a backslash. *)
Theorem ReadDBline_data_or_EOF (file : FILE) :
  let '(r, line, file') := ReadDBline file in
  (exists read, file = (read ++ file')%list) /\
  count_char "#" line = O /\ count_char "\" line = O /\
  (r = EOF /\ file' = [] \/
   r = 0 /\ line <> "" /\ (List.length file' < List.length file)%nat).
Proof.
  destruct (ReadDBline file) as [[r line] file'] eqn:HR.
  assert (Hprog : r <> EOF -> (List.length file' < List.length file)%nat).
  { intros Hr. exact (ReadDBline_progress file r line file' HR Hr). }
  unfold ReadDBline in HR.
  assert (H0 : line_inv "" false).
  { repeat split; try reflexivity. discriminate. }
  pose proof (ReadDBline_loop_inv file "" false H0) as HL.
  destruct (ReadDBline_loop file "" false) as [[[r1 l1] m1] f1].
  destruct HL as [[I1 [I2 I3]] [Hread Hcase]].
  destruct m1.
  - destruct (I3 eq_refl) as [l0 [Hl0 ->]].
    rewrite back_push_back in HR. cbn in HR.
    rewrite pop_back_push_back in HR. inversion HR; subst.
    rewrite count_char_push_back_SP in I1 by (now left).
    rewrite count_char_push_back_SP in I2 by (now right).
    split; [assumption|]. split; [assumption|]. split; [assumption|].
    right. split; [reflexivity|]. split; [assumption|]. apply Hprog. discriminate.
  - inversion HR; subst.
    split; [assumption|]. split; [assumption|]. split; [assumption|].
    destruct Hcase as [[-> ->]|[-> Hne]]; [now left|].
    right. split; [reflexivity|]. split; [assumption|]. apply Hprog. discriminate.
Qed.

(** Property X11: when the file ends while the loop of [ReadDBline] is
    still unfinished without a pending implicit continuation (an explicit
    continuation mark was the last thing read, or nothing but blank and
    comment lines), [ReadDBline] returns [EOF]; the text gathered so far
    is not delivered, and a reader that stops at [EOF] never sees it. *)
Theorem ReadDBline_unterminated_continuation (pre : list string) (line : string) :
  reading pre line false ->
  ReadDBline pre = (EOF, line, []) /\
  forall fuel : nat, ReadDBlines fuel pre = [].
Proof.
  intros Hr.
  assert (H : ReadDBline pre = (EOF, line, [])).
  { unfold ReadDBline.
    pose proof (ReadDBline_loop_reading pre line false Hr []) as HL.
    rewrite app_nil_r in HL. rewrite HL. reflexivity. }
  split; [assumption|].
  intros [|fuel]; [reflexivity|]. cbn [ReadDBlines]. rewrite H. reflexivity.
Qed.

Lemma ReadDBline_unterminated_continuation_witness :
  reading ["x = 1 \"] "x = 1 " false /\
  ReadDBline ["x = 1 \"] = (EOF, "x = 1 ", []) /\
  ReadDBlines 2 ["x = 1 \"] = [].
Proof.
  assert (Hr : reading ["x = 1 \"] "x = 1 " false).
  { apply (reading_next [] "" false "x = 1 \" "x = 1 " false reading_start).
    reflexivity. }
  split; [exact Hr|].
  destruct (ReadDBline_unterminated_continuation ["x = 1 \"] "x = 1 " Hr) as [H1 H2].
  split; [exact H1|exact (H2 2%nat)].
Defined.

Lemma all_chars_find_none (p : ascii -> bool) (c : ascii) (s : string) :
  p c = false -> all_chars p s = true -> find_char c s = None.
Proof.
  intros Hc. induction s as [|x s IH]; [reflexivity|].
  cbn [all_chars find_char]. intros H. apply andb_prop in H. destruct H as [Hx Hs].
  destruct (Ascii.eqb_spec x c) as [->|_]; [congruence|].
  now rewrite (IH Hs).
Qed.

Lemma skip_while_all (p : ascii -> bool) (s : string) :
  all_chars p s = true -> skip_while p s = "".
Proof.
  induction s as [|x s IH]; [reflexivity|].
  cbn [all_chars skip_while]. intros H. apply andb_prop in H. destruct H as [-> Hs].
  now apply IH.
Qed.

Lemma prepare_line_blank (raw : string) :
  all_chars isspace raw = true ->
  p_linbuf (prepare_line raw) = "" /\ p_comment (prepare_line raw) = false /\
  p_continued (prepare_line raw) = false.
Proof.
  intros H. unfold prepare_line.
  destruct raw as [|c r]; [auto|]. cbn [is_empty].
  rewrite (all_chars_find_none isspace "#" _ eq_refl H).
  rewrite (all_chars_find_none isspace "\" _ eq_refl H).
  cbn [is_empty]. cbv zeta.
  assert (Hf : opt_isspace (front (String c r)) = true).
  { cbn in *. now apply andb_prop in H. }
  rewrite Hf. cbn [orb p_linbuf p_comment p_continued].
  split; [|auto]. unfold Trim. now rewrite (skip_while_all isspace _ H).
Qed.

(** Property X12: a blank line ends a continuation: [ReadDBline] hands
    back the text gathered from the lines before it and leaves the lines
    behind it unread.  The tentative blank of a pending implicit
    continuation is taken off; otherwise the text is handed back as
    gathered, and behind an explicit continuation mark that followed
    white space it ends in a blank, which the note and the [assert] in
    [IsDBkey] take to be impossible. *)
Theorem ReadDBline_blank_line_ends_continuation (pre : list string)
  (line : string) (mc : bool) (raw : string) (rest : FILE) :
  reading pre line mc -> line <> "" -> all_chars isspace raw = true ->
  ReadDBline (pre ++ raw :: rest)%list
  = (0, (if mc then pop_back line else line), rest).
Proof.
  intros Hr Hne Hraw. unfold ReadDBline.
  rewrite (ReadDBline_loop_reading pre line mc Hr (raw :: rest)).
  cbn [ReadDBline_loop]. unfold ReadDBline_body.
  destruct (prepare_line_blank raw Hraw) as [Hb [Hc Hk]].
  rewrite Hb, Hc, Hk. apply is_empty_false in Hne. rewrite Hne.
  cbn [is_empty andb negb orb].
  destruct mc; [|reflexivity].
  destruct (reading_pending_space pre line true Hr eq_refl) as [l0 ->].
  now rewrite back_push_back.
Qed.

Lemma ReadDBline_blank_line_ends_continuation_witness :
  reading ["x = 1 2 \"] "x = 1 2 " false /\ "x = 1 2 " <> "" /\
  all_chars isspace "" = true /\
  ReadDBline (["x = 1 2 \"] ++ ["" ; "y = 3"])%list = (0, "x = 1 2 ", ["y = 3"]).
Proof.
  assert (Hr : reading ["x = 1 2 \"] "x = 1 2 " false).
  { apply (reading_next [] "" false "x = 1 2 \" "x = 1 2 " false reading_start).
    reflexivity. }
  assert (Hne : "x = 1 2 " <> "") by discriminate.
  split; [exact Hr|]. split; [exact Hne|]. split; [reflexivity|].
  exact (ReadDBline_blank_line_ends_continuation ["x = 1 2 \"] "x = 1 2 " false
           "" ["y = 3"] Hr Hne eq_refl).
Defined.

Lemma IsDBkey_found (line key text : string) (status : Z) (value' : string) :
  IsDBkey line key text = (status, value') -> status <> 0 -> status > 0 ->
  IsDBkey line key "" = (1, value').
Proof.
  unfold IsDBkey.
  destruct (find_char "=" (c_str line)) as [eq|]; [|intros H; inversion H; congruence].
  destruct (is_empty _); [intros H; inversion H; lia|].
  destruct (negb _); intros H; inversion H; subst; [lia|reflexivity].
Qed.

Lemma scan_line_origin (E : Externals) (date : TDatime) (key value0 : string)
  (all : list string) (st : scan_state) (line : string) :
  In line all ->
  (found st = false /\ value st = value0 \/
   found st = true /\ exists l, In l all /\ IsDBkey l key "" = (1, value st)) ->
  let st' := scan_line E date key st line in
  (found st' = false /\ value st' = value0 \/
   found st' = true /\ exists l, In l all /\ IsDBkey l key "" = (1, value st')).
Proof.
  intros Hin Hst. unfold scan_line.
  destruct (do_ignore st) eqn:Hi; cbn [negb andb].
  - destruct (IsDBdate E line); cbn; assumption.
  - destruct (IsDBkey line key (value st)) as [status value'] eqn:Hk.
    destruct (status =? 0) eqn:H0; cbn [negb].
    + destruct (IsDBdate E line); cbn; assumption.
    + destruct (status >? 0) eqn:Hp; [|assumption].
      cbn. right. split; [reflexivity|]. exists line. split; [assumption|].
      apply (IsDBkey_found line key (value st) status); [assumption|lia|lia].
Qed.

Lemma scan_fold_origin (E : Externals) (date : TDatime) (key value0 : string)
  (all : list string) (lines : list string) :
  forall st : scan_state,
    (forall l, In l lines -> In l all) ->
    (found st = false /\ value st = value0 \/
     found st = true /\ exists l, In l all /\ IsDBkey l key "" = (1, value st)) ->
    let st' := fold_left (scan_line E date key) lines st in
    (found st' = false /\ value st' = value0 \/
     found st' = true /\ exists l, In l all /\ IsDBkey l key "" = (1, value st')).
Proof.
  induction lines as [|line lines IH]; intros st Hall Hst; [exact Hst|].
  cbn [fold_left]. apply IH.
  - intros l Hl. apply Hall. now right.
  - apply scan_line_origin; [apply Hall; now left|assumption].
Qed.

(** Property X1: [LoadDBvalue] either reports "key not found" (status 1)
    and leaves the caller's [value] as it was, or reports success
    (status 0) with the text that [IsDBkey] extracts from one of the
    logical lines of the file, a line whose left-hand side matches the
    key.  This holds for every file, date and key. *)
Theorem LoadDBvalue_found_or_unchanged (E : Externals) (bytes : string)
  (date : TDatime) (key value0 : string) :
  LoadDBvalue E bytes date key value0 = (1, value0) \/
  exists line text,
    LoadDBvalue E bytes date key value0 = (0, text) /\
    In line (db_lines E bytes) /\ IsDBkey line key "" = (1, text).
Proof.
  assert (H := scan_fold_origin E date key value0 (db_lines E bytes)
                 (db_lines E bytes) (initial_scan value0) (fun l H => H)
                 (or_introl (conj eq_refl eq_refl))).
  cbv zeta in H. unfold LoadDBvalue, scan_lines, db_lines in *.
  destruct H as [[Hf Hv]|[Hf [l [Hl Hk]]]]; rewrite Hf.
  - left. now rewrite Hv.
  - right. exists l. eexists. repeat split; eassumption.
Qed.

Lemma text_line_cons (c : ascii) (l : string) :
  text_line (String c l) ->
  Ascii.eqb c LF = false /\ Ascii.eqb c NUL = false /\ text_line l.
Proof.
  unfold text_line. cbn [count_char].
  destruct (Ascii.eqb c LF); destruct (Ascii.eqb c NUL); intros [A B];
    try discriminate; auto.
Qed.

Lemma GetLines_go_line (l : string) :
  forall (rest : string) (k : nat) (acc : string),
    text_line l ->
    exists k',
      GetLines_go (l ++ rest) k false acc =
      GetLines_go rest k' false (string_rev (map_string tab_to_space l) ++ acc).
Proof.
  induction l as [|c l IH]; intros rest k acc Hl.
  - exists k. reflexivity.
  - apply text_line_cons in Hl. destruct Hl as [H1 [H2 Hl]].
    cbn [append GetLines_go]. rewrite H1, H2.
    assert (Hd : (if Nat.leb 255 k then false else false) = false)
      by (destruct (Nat.leb 255 k); reflexivity).
    rewrite Hd.
    destruct (IH rest (S (if Nat.leb 255 k then O else k))
                (String (if Ascii.eqb c TAB then SP else c) acc) Hl) as [k' Hk].
    exists k'. rewrite Hk. f_equal.
    cbn [map_string]. unfold string_rev at 2. cbn [string_rev_app].
    rewrite string_rev_app_spec. rewrite sapp_assoc. reflexivity.
Qed.

Lemma GetLines_go_newline (rest : string) (k : nat) (acc : string) :
  GetLines_go (String LF rest) k false acc =
  string_rev acc :: GetLines_go rest O false "".
Proof.
  cbn [GetLines_go]. 
  replace (Ascii.eqb LF LF) with true by reflexivity.
  destruct (Nat.leb 255 k); reflexivity.
Qed.

Lemma GetLines_go_lines (ls : list string) (last : string) :
  Forall text_line ls -> text_line last ->
  forall k : nat,
    GetLines_go (join_lines ls ++ last) k false "" =
    (map (map_string tab_to_space) ls ++
     (if is_empty last then [] else [map_string tab_to_space last]))%list.
Proof.
  intros Hls Hlast. induction Hls as [|l ls Hl Hls IH]; intros k.
  - cbn [join_lines map app append].
    destruct (GetLines_go_line last "" k "" Hlast) as [k' Hk].
    rewrite !app_empty_r in Hk. rewrite Hk. cbn [GetLines_go].
    destruct last as [|c last]; [reflexivity|].
    cbn [map_string is_empty].
    destruct (string_rev (String (tab_to_space c) (map_string tab_to_space last))) eqn:Hrev.
    + apply (f_equal string_rev) in Hrev. rewrite string_rev_involutive in Hrev.
      discriminate.
    + cbn [is_empty]. rewrite <- Hrev, string_rev_involutive. reflexivity.
  - cbn [join_lines map app]. rewrite !sapp_assoc.
    destruct (GetLines_go_line l (NL ++ join_lines ls ++ last) k "" Hl) as [k' Hk].
    rewrite Hk. unfold NL. cbn [append].
    rewrite GetLines_go_newline, app_empty_r, string_rev_involutive.
    f_equal. apply IH.
Qed.

(** Property X7: on a text file, [GetLine] gives the lines back: for
    lines without newline and NUL characters, each ended by a newline,
    and a last line that may lack its newline, the physical lines read
    are these lines with every tab turned into a blank; a line longer
    than the buffer is put together again, and an empty last line is not
    delivered. *)
Theorem GetLines_join_lines (ls : list string) (last : string) :
  Forall text_line ls -> text_line last ->
  GetLines (join_lines ls ++ last) =
  (map (map_string tab_to_space) ls ++
   (if is_empty last then [] else [map_string tab_to_space last]))%list.
Proof.
  intros Hls Hlast. unfold GetLines. now apply GetLines_go_lines.
Qed.

Lemma GetLines_join_lines_witness :
  Forall text_line ["a = 1"; ""; String TAB "b"] /\ text_line "c" /\
  GetLines (join_lines ["a = 1"; ""; String TAB "b"] ++ "c") =
    ["a = 1"; ""; " b"; "c"].
Proof.
  assert (H1 : Forall text_line ["a = 1"; ""; String TAB "b"]).
  { repeat constructor. }
  assert (H2 : text_line "c") by (split; reflexivity).
  split; [exact H1|]. split; [exact H2|].
  exact (GetLines_join_lines ["a = 1"; ""; String TAB "b"] "c" H1 H2).
Defined.

Lemma GetLines_go_clean (bytes : string) :
  forall (k : nat) (dead : bool) (acc : string),
    (count_char TAB acc = O /\ count_char LF acc = O /\ count_char NUL acc = O) ->
    Forall (fun l => count_char TAB l = O /\ count_char LF l = O /\
                     count_char NUL l = O)
      (GetLines_go bytes k dead acc).
Proof.
  induction bytes as [|c rest IH]; intros k dead acc Hacc.
  - cbn [GetLines_go]. destruct (is_empty acc); constructor; [|constructor].
    now rewrite !count_char_rev.
  - cbn [GetLines_go].
    destruct (Ascii.eqb c LF) eqn:HLF.
    + destruct (if Nat.leb 255 k then false else dead).
      * now apply IH.
      * constructor; [now rewrite !count_char_rev|]. apply IH. repeat split.
    + destruct (if Nat.leb 255 k then false else dead); [now apply IH|].
      destruct (Ascii.eqb c NUL) eqn:HNUL; [now apply IH|].
      apply IH. destruct Hacc as [A [B C]]. cbn [count_char].
      rewrite A, B, C.
      destruct (Ascii.eqb c TAB) eqn:HTAB.
      * repeat split.
      * rewrite HTAB, HLF, HNUL. repeat split.
Qed.

(** Property X8: no line that [GetLine] delivers holds a tab, a newline
    or a NUL character, whatever the bytes of the file. *)
Theorem GetLines_clean (bytes : string) :
  Forall (fun l => count_char TAB l = O /\ count_char LF l = O /\
                   count_char NUL l = O)
    (GetLines bytes).
Proof.
  unfold GetLines. apply GetLines_go_clean. repeat split.
Qed.

Lemma convert_field_inv (E : Externals) (T : NumT) (p : string) (v : Num E)
  (rest : string) :
  convert_field E T p = Some (v, rest) ->
  cv_moved (convert_string E T p) = true /\
  junk_at_end (cv_rest (convert_string E T p)) = false /\
  cv_errno (convert_string E T p) = false /\
  is_in_range E T (cv_val (convert_string E T p)) = true /\
  v = cast E (cv_val (convert_string E T p)) /\
  rest = cv_rest (convert_string E T p).
Proof.
  unfold convert_field.
  destruct (cv_moved _); destruct (junk_at_end _); destruct (cv_errno _);
    destruct (is_in_range E T _); cbn [negb orb]; try discriminate.
  intros H. inversion H. auto 10.
Qed.

Lemma convert_string_integer (E : Externals) (T : NumT) (p : string) :
  is_floating_point T = false ->
  cv_moved (convert_string E T p) = true ->
  cv_errno (convert_string E T p) = false ->
  exists neg m,
    scan_int p = Some (neg, m, cv_rest (convert_string E T p)) /\ 0 <= m /\
    cv_val (convert_string E T p) =
      (if is_unsigned T
       then WULL E (if neg then (2 ^ 64 - m) mod 2 ^ 64 else m)
       else WLL E (if neg then - m else m)).
Proof.
  intros Hfp. unfold convert_string. rewrite Hfp.
  destruct (is_unsigned T); [unfold strtoull|unfold strtoll];
    destruct (scan_int p) as [[[neg m] r]|] eqn:Hs; try discriminate.
  - destruct (scan_int_sound p neg m r Hs) as [_ [Hm _]].
    destruct (ULLONG_MAX <? m); [discriminate|].
    intros _ _. exists neg, m. auto.
  - destruct (scan_int_sound p neg m r Hs) as [_ [Hm _]].
    destruct (LLONG_MAX <? _); [discriminate|].
    destruct (_ <? LLONG_MIN); [discriminate|].
    intros _ _. exists neg, m. auto.
Qed.

Lemma convert_field_fits (E : Externals) (T : NumT) (p : string) (v : Num E)
  (rest : string) :
  is_floating_point T = false ->
  convert_field E T p = Some (v, rest) -> fits E T v.
Proof.
  intros Hfp Hc.
  destruct (convert_field_inv E T p v rest Hc) as [Hm [_ [He [Hr [-> _]]]]].
  destruct (convert_string_integer E T p Hfp Hm He) as [neg [m [_ [Hm0 Hv]]]].
  rewrite Hv in *. unfold min_T, is_in_range in *.
  destruct (is_unsigned T) eqn:Hu; cbn [cast fits].
  - apply Z.leb_le in Hr. split; [|exact Hr].
    unfold min_T. rewrite Hu.
    destruct neg; [apply Z.mod_pos_bound; lia|exact Hm0].
  - unfold min_T in *. rewrite Hu in *.
    destruct (_ <=? max_T T) eqn:Hr1; [|discriminate].
    apply Z.leb_le in Hr1. apply Z.geb_le in Hr. lia.
Qed.

Lemma array_loop_fits (E : Externals) (T : NumT) (fuel : nat) :
  is_floating_point T = false ->
  forall (p : string) (values : list (Num E)) (st : Z) (vals : list (Num E)),
    Forall (fits E T) values ->
    array_loop E T fuel p values = Some (st, vals) ->
    Forall (fits E T) vals.
Proof.
  intros Hfp. induction fuel as [|fuel IH]; intros p values st vals Hv; [discriminate|].
  cbn [array_loop].
  destruct (convert_field E T p) as [[v rest]|] eqn:Hc.
  - assert (Hv' : Forall (fits E T) (values ++ [v])).
    { apply Forall_app. split; [assumption|]. constructor; [|constructor].
      exact (convert_field_fits E T p v rest Hfp Hc). }
    destruct (is_empty rest).
    + intros H. inversion H; subst. assumption.
    + now apply IH.
  - intros H. inversion H; subst. assumption.
Qed.

(** Property X13: at an integer type [T], every value that
    [LoadDBvalue<T>] or [LoadDBarray<T>] hands back lies between
    [numeric_limits<T>::min()] and [numeric_limits<T>::max()]; this
    includes the values that [LoadDBarray] has stored when a later field
    fails to convert. *)
Theorem integer_values_in_range (E : Externals) (T : NumT) (bytes : string)
  (date : TDatime) (key : string) :
  is_floating_point T = false ->
  (forall (st : Z) (v : Num E),
      LoadDBvalue_num E T bytes date key = (st, Some v) -> st = 0 /\ fits E T v) /\
  (forall (st : Z) (vals : list (Num E)),
      LoadDBarray E T bytes date key = Some (st, Some vals) ->
      Forall (fits E T) vals).
Proof.
  intros Hfp. split.
  - intros st v. unfold LoadDBvalue_num.
    destruct (LoadDBvalue E bytes date key "") as [err text].
    destruct (negb (err =? 0)); [discriminate|].
    unfold convert_value.
    destruct (convert_field E T text) as [[v' rest]|] eqn:Hc; [|discriminate].
    intros H. inversion H; subst. split; [reflexivity|].
    exact (convert_field_fits E T text v rest Hfp Hc).
  - intros st vals. unfold LoadDBarray, convert_array.
    destruct (LoadDBvalue E bytes date key "") as [err text].
    destruct (negb (err =? 0)); [discriminate|].
    destruct (array_loop E T (S (slen text)) text []) as [[st' vals']|] eqn:Ha;
      [|discriminate].
    intros H. inversion H; subst.
    exact (array_loop_fits E T (S (slen text)) Hfp text [] st vals (Forall_nil _) Ha).
Qed.

Lemma integer_values_in_range_witness :
  is_floating_point TByte = false /\
  (forall (st : Z) (vals : list (Num plain_ext)),
      LoadDBarray plain_ext TByte matrix_file 20150101000000 "m"
        = Some (st, Some vals) ->
      Forall (fits plain_ext TByte) vals).
Proof.
  split; [reflexivity|].
  exact (proj2 (integer_values_in_range plain_ext TByte matrix_file
                  20150101000000 "m" eq_refl)).
Defined.


Lemma back_app (a b : string) : b <> "" -> back (a ++ b) = back b.
Proof.
  intros Hb. unfold back. rewrite string_rev_append.
  destruct (string_rev b) eqn:Hr; [|reflexivity].
  apply (f_equal string_rev) in Hr. rewrite string_rev_involutive in Hr.
  now subst.
Qed.

Lemma back_all_chars (p : ascii -> bool) (s : string) :
  all_chars p s = true ->
  match back s with Some c => p c = true | None => s = "" end.
Proof.
  intros H. apply all_chars_rev in H. unfold back.
  destruct (string_rev s) eqn:Hr.
  - apply (f_equal string_rev) in Hr. now rewrite string_rev_involutive in Hr.
  - simpl in *. now apply andb_prop in H.
Qed.

Lemma convert_field_trailing_space (E : Externals) (T : NumT) (p : string)
  (v : Num E) (rest : string) :
  is_floating_point T = false ->
  opt_isspace (back p) = true ->
  convert_field E T p = Some (v, rest) ->
  rest <> "" /\ opt_isspace (back rest) = true.
Proof.
  intros Hfp Hsp Hc.
  assert (Hs : exists neg m, scan_int p = Some (neg, m, rest)).
  { destruct (convert_field_inv E T p v rest Hc) as [Hm [_ [He [_ [_ ->]]]]].
    destruct (convert_string_integer E T p Hfp Hm He) as [neg [m [Hs _]]].
    now exists neg, m. }
  destruct Hs as [neg [m Hs]].
  destruct (scan_int_sound p neg m rest Hs) as [[ws [sign [ds [Hp [_ [_ [Hne [Hds _]]]]]]]] _].
  assert (Hrest : rest <> "").
  { intros ->. rewrite app_empty_r in Hp.
    rewrite Hp, <- sapp_assoc, back_app in Hsp by assumption.
    pose proof (back_all_chars isdigit ds Hds) as Hb.
    destruct (back ds) as [c|]; [|contradiction].
    cbn in Hsp. rewrite (isdigit_not_space c Hb) in Hsp. discriminate. }
  split; [assumption|].
  rewrite Hp, <- !sapp_assoc, back_app in Hsp by assumption. exact Hsp.
Qed.

Lemma array_loop_trailing_space (E : Externals) (T : NumT) (fuel : nat) :
  is_floating_point T = false ->
  forall (p : string) (values : list (Num E)) (st : Z) (vals : list (Num E)),
    opt_isspace (back p) = true ->
    array_loop E T fuel p values = Some (st, vals) -> st = -131.
Proof.
  intros Hfp. induction fuel as [|fuel IH]; intros p values st vals Hsp; [discriminate|].
  cbn [array_loop].
  destruct (convert_field E T p) as [[v rest]|] eqn:Hc.
  - destruct (convert_field_trailing_space E T p v rest Hfp Hsp Hc) as [Hne Hb].
    apply is_empty_false in Hne. rewrite Hne. now apply IH.
  - intros H. now inversion H.
Qed.

Lemma trailing_blank_file_value (E : Externals) (d : TDatime) :
  Substitute E = None ->
  LoadDBvalue E trailing_blank_file d "x" "" = (0, "1 2 ").
Proof.
  intros HS. unfold LoadDBvalue, scan_lines.
  change (GetLines trailing_blank_file) with ["x = 1 2 \"; ""].
  change (ReadDBlines (S (List.length ["x = 1 2 \"; ""])) ["x = 1 2 \"; ""])
    with ["x = 1 2 "].
  cbn [filter is_empty negb flat_map]. unfold expand. rewrite HS.
  cbn [app fold_left]. unfold scan_line. cbn. reflexivity.
Qed.

(** Property X15: at an integer type, the field loop of [LoadDBarray]
    fails with the conversion error -131 on every text that ends in
    white space: the text behind the last number is not empty, and no
    further number is found in it.  In a build with [NDEBUG] such a text
    reaches the loop from a line with an explicit continuation mark that
    a blank line follows: the line reader delivers the line with its
    blank, the array load fails with the values read so far in the
    vector, and a scalar load of the same key succeeds.  In a build
    without [NDEBUG] the [assert] of [IsDBkey] fails on that line, so the
    program aborts before anything is converted; on a line without a
    blank at its end the two builds agree. *)
Theorem LoadDBarray_trailing_space (E : Externals) :
  (forall (T : NumT) (text : string),
      is_floating_point T = false ->
      opt_isspace (back text) = true ->
      exists vals, convert_array E T text = Some (-131, vals)) /\
  (IsDBkey "x = 1 2 " "x" "" = (1, "1 2 ") /\
   IsDBkey_asserting "x = 1 2 " "x" "" = None /\
   IsDBkey_asserting "x = 1 2" "x" "" = Some (1, "1 2")) /\
  (Substitute E = None ->
   forall d : TDatime,
     db_lines E trailing_blank_file = ["x = 1 2 "] /\
     LoadDBvalue E trailing_blank_file d "x" "" = (0, "1 2 ") /\
     LoadDBarray E TInt trailing_blank_file d "x"
       = Some (-131, Some [NInt E 1; NInt E 2]) /\
     LoadDBvalue_num E TInt trailing_blank_file d "x" = (0, Some (NInt E 1))).
Proof.
  split; [|split; [repeat split; reflexivity|]].
  - intros T text Hfp Hsp. unfold convert_array.
    destruct (array_loop E T (S (slen text)) text []) as [[st vals]|] eqn:Ha.
    + exists vals. f_equal. f_equal.
      exact (array_loop_trailing_space E T (S (slen text)) Hfp text [] st vals Hsp Ha).
    + exfalso. apply (array_loop_total E T (S (slen text)) text []); [lia|assumption].
  - intros HS d.
    pose proof (trailing_blank_file_value E d HS) as HL.
    split.
    { unfold db_lines.
      change (GetLines trailing_blank_file) with ["x = 1 2 \"; ""].
      change (ReadDBlines (S (List.length ["x = 1 2 \"; ""])) ["x = 1 2 \"; ""])
        with ["x = 1 2 "].
      cbn [filter is_empty negb flat_map]. unfold expand. rewrite HS. reflexivity. }
    split; [exact HL|]. split.
    + unfold LoadDBarray. rewrite HL. reflexivity.
    + unfold LoadDBvalue_num. rewrite HL. reflexivity.
Qed.

Lemma convert_field_signed (E : Externals) (T : NumT) (p : string) :
  is_floating_point T = false -> is_unsigned T = false ->
  convert_field E T p =
  match scan_int p with
  | None => None
  | Some (neg, m, rest) =>
      let v := if neg then - m else m in
      if andb (negb (junk_at_end rest)) (andb (min_T T <=? v) (v <=? max_T T))
      then Some (NInt E v, rest) else None
  end.
Proof.
  intros HT HuT. destruct (int_limits T HT) as [Hs _].
  destruct (Hs HuT) as [Hmin Hmax].
  unfold convert_field, convert_string, strtoll.
  rewrite HT, HuT.
  destruct (scan_int p) as [[[neg m] rest]|]; [|reflexivity].
  cbv zeta. set (v := if neg then - m else m).
  destruct (LLONG_MAX <? v) eqn:H1;
    [|destruct (v <? LLONG_MIN) eqn:H2];
    cbn [cv_moved cv_rest cv_errno cv_val negb orb].
  - apply Z.ltb_lt in H1.
    replace (v <=? max_T T) with false by (symmetry; apply Z.leb_gt; lia).
    rewrite orb_true_r, !andb_false_r. reflexivity.
  - apply Z.ltb_lt in H2.
    replace (min_T T <=? v) with false by (symmetry; apply Z.leb_gt; lia).
    rewrite orb_true_r, !andb_false_r. reflexivity.
  - unfold is_in_range, cast. rewrite HuT.
    destruct (junk_at_end rest); [reflexivity|]. cbn [negb orb andb].
    rewrite Z.geb_leb.
    destruct (v <=? max_T T); [|rewrite andb_false_r; reflexivity].
    destruct (min_T T <=? v); reflexivity.
Qed.

Lemma convert_field_number (E : Externals) (T : NumT) (p : string) (v : Num E)
  (rest : string) :
  is_floating_point T = false -> is_unsigned T = false ->
  (convert_field E T p = Some (v, rest) <->
   exists z, v = NInt E z /\ integer_text p z rest /\
             junk_at_end rest = false /\ min_T T <= z <= max_T T).
Proof.
  intros HT HuT. rewrite (convert_field_signed E T p HT HuT). split.
  - destruct (scan_int p) as [[[neg m] r]|] eqn:Hs; [|discriminate].
    cbv zeta. destruct (andb _ _) eqn:Hc; [|discriminate].
    intros H. inversion H; subst.
    apply andb_prop in Hc. destruct Hc as [Hj Hr].
    apply andb_prop in Hr. destruct Hr as [Hlo Hhi].
    apply negb_true_iff in Hj. apply Z.leb_le in Hlo, Hhi.
    exists (if neg then - m else m). split; [reflexivity|].
    split; [exact (proj1 (scan_int_sound p neg m rest Hs))|auto].
  - intros [z [-> [Ht [Hj [Hlo Hhi]]]]].
    destruct (scan_int_complete p z rest Ht) as [neg [m [-> [-> _]]]].
    cbv zeta. rewrite Hj. cbn [negb andb].
    destruct (Z.leb_spec (min_T T) (if neg then - m else m)); [|lia].
    destruct (Z.leb_spec (if neg then - m else m) (max_T T)); [|lia].
    reflexivity.
Qed.

Lemma array_loop_numbers (E : Externals) (T : NumT) (fuel : nat) :
  is_floating_point T = false -> is_unsigned T = false ->
  forall (p : string) (values vals : list (Num E)),
    array_loop E T fuel p values = Some (0, vals) ->
    exists zs, vals = (values ++ map (NInt E) zs)%list /\ number_list T p zs.
Proof.
  intros HT HuT. induction fuel as [|fuel IH]; intros p values vals; [discriminate|].
  cbn [array_loop].
  destruct (convert_field E T p) as [[v rest]|] eqn:Hc; [|discriminate].
  apply (convert_field_number E T p v rest HT HuT) in Hc.
  destruct Hc as [z [-> [Ht [Hj Hr]]]].
  destruct (is_empty rest) eqn:He.
  - intros H. inversion H; subst. destruct rest; [|discriminate].
    exists [z]. split; [reflexivity|]. now constructor.
  - intros H. destruct (IH rest _ vals H) as [zs [-> Hzs]].
    exists (z :: zs). split; [now rewrite <- app_assoc|].
    apply is_empty_false in He. now apply (number_more T p z rest zs).
Qed.

Lemma array_loop_number_list (E : Externals) (T : NumT) (p : string) (zs : list Z) :
  is_floating_point T = false -> is_unsigned T = false ->
  number_list T p zs ->
  forall (fuel : nat) (values : list (Num E)),
    (slen p < fuel)%nat ->
    array_loop E T fuel p values = Some (0, (values ++ map (NInt E) zs)%list).
Proof.
  intros HT HuT Hn.
  induction Hn as [p z Ht Hr|p z rest zs Ht Hne Hj Hr Hn IH];
    intros fuel values Hfuel; (destruct fuel as [|fuel]; [lia|]);
    cbn [array_loop].
  - assert (Hc : convert_field E T p = Some (NInt E z, "")).
    { apply convert_field_number; [assumption|assumption|]. exists z. auto. }
    rewrite Hc. reflexivity.
  - assert (Hc : convert_field E T p = Some (NInt E z, rest)).
    { apply convert_field_number; [assumption|assumption|]. exists z. auto. }
    rewrite Hc. apply is_empty_false in Hne. rewrite Hne.
    destruct (convert_field_progress E T p _ _ Hc) as [->|Hlt];
      [discriminate|].
    rewrite IH by lia. cbn [map]. now rewrite <- app_assoc.
Qed.

Lemma map_NInt_inj (E : Externals) (zs zs' : list Z) :
  map (NInt E) zs = map (NInt E) zs' -> zs = zs'.
Proof.
  revert zs'. induction zs as [|z zs IH]; intros [|z' zs'] H; try discriminate;
    [reflexivity|].
  cbn [map] in H. injection H as Hz Hm. subst. f_equal. now apply IH.
Qed.

(** Property X14: at a signed integer type [T], the field loop of
    [LoadDBarray] succeeds with the values [zs] exactly when the text
    reads as these whole numbers in a row, each in the range of [T],
    each but the last with white space behind it and nothing behind the
    last. *)
Theorem convert_array_number_list (E : Externals) (T : NumT) (text : string)
  (zs : list Z) :
  is_floating_point T = false -> is_unsigned T = false ->
  (convert_array E T text = Some (0, map (NInt E) zs) <-> number_list T text zs).
Proof.
  intros HT HuT. unfold convert_array. split.
  - intros H.
    destruct (array_loop_numbers E T _ HT HuT text [] _ H) as [zs' [Hm Hn]].
    cbn [app] in Hm. apply map_NInt_inj in Hm. now subst.
  - intros Hn.
    apply (array_loop_number_list E T text zs HT HuT Hn (S (slen text)) []). lia.
Qed.

Lemma convert_array_number_list_witness :
  is_floating_point TShort = false /\ is_unsigned TShort = false /\
  (convert_array plain_ext TShort "1 -2  +3" = Some (0, map (NInt plain_ext) [1; -2; 3])
   <-> number_list TShort "1 -2  +3" [1; -2; 3]) /\
  convert_array plain_ext TShort "1 -2  +3" = Some (0, map (NInt plain_ext) [1; -2; 3]).
Proof.
  split; [reflexivity|]. split; [reflexivity|].
  split; [|reflexivity].
  exact (convert_array_number_list plain_ext TShort "1 -2  +3" [1; -2; 3]
           eq_refl eq_refl).
Defined.

Section LoaderProperties.

Variable E : Externals.
Variable bytes : string.
Variable date : TDatime.

Lemma LoadDBvalue_status (key value0 : string) :
  fst (LoadDBvalue E bytes date key value0) = 0 \/
  fst (LoadDBvalue E bytes date key value0) = 1.
Proof.
  unfold LoadDBvalue. cbv zeta. cbn [fst].
  destruct (found _); [now left|now right].
Qed.

Lemma LoadDBvalue_num_cases (T : NumT) (key : string) :
  (exists v, LoadDBvalue_num E T bytes date key = (0, Some v) /\
             fst (LoadDBvalue E bytes date key "") = 0) \/
  (LoadDBvalue_num E T bytes date key = (-131, None) /\
   fst (LoadDBvalue E bytes date key "") = 0) \/
  (LoadDBvalue_num E T bytes date key = (1, None) /\
   fst (LoadDBvalue E bytes date key "") = 1).
Proof.
  unfold LoadDBvalue_num.
  destruct (LoadDBvalue_status key "") as [H|H];
    destruct (LoadDBvalue E bytes date key "") as [err text]; cbn [fst] in H; subst.
  - cbn [Z.eqb negb].
    destruct (convert_value_status E T text) as [[v Hv]|Hv]; rewrite Hv.
    + left. now exists v.
    + right. left. auto.
  - right. right. auto.
Qed.

Lemma LoadDBarray_cases (T : NumT) (key : string) :
  (exists vals, LoadDBarray E T bytes date key = Some (0, Some vals) /\
                fst (LoadDBvalue E bytes date key "") = 0) \/
  (exists vals, LoadDBarray E T bytes date key = Some (-131, Some vals) /\
                fst (LoadDBvalue E bytes date key "") = 0) \/
  (LoadDBarray E T bytes date key = Some (1, None) /\
   fst (LoadDBvalue E bytes date key "") = 1).
Proof.
  destruct (LoadDBarray_total E T bytes date key) as [st [vals Ha]].
  pose proof (LoadDBarray_status E bytes date T key st vals Ha) as Hst.
  revert Ha. unfold LoadDBarray.
  destruct (LoadDBvalue_status key "") as [H|H];
    destruct (LoadDBvalue E bytes date key "") as [err text]; cbn [fst] in H; subst;
    cbn [Z.eqb negb].
  - destruct (convert_array E T text) as [[st' vals']|]; [|discriminate].
    intros Ha. inversion Ha; subst. cbv iota in Hst.
    destruct Hst as [-> | ->]; [left|right; left]; now exists vals'.
  - intros _. right. right. auto.
Qed.

(** What [load_item] can return, and what it does to the destinations. *)
Lemma load_item_outcome (key : string) (item : DBRequest) (dest : nat)
  (mem mem1 : Mem E) (ret1 : Z) :
  load_item E bytes date key item dest mem = Returns (ret1, mem1) ->
  (ret1 = 0 /\ fst (LoadDBvalue E bytes date key "") = 0 \/ error_code ret1 \/
   ret1 = 1 /\ fst (LoadDBvalue E bytes date key "") = 1) /\
  (forall a, a <> dest -> mem1 a = mem a).
Proof.
  assert (Hstore : forall v a, a <> dest -> store E mem dest v a = mem a).
  { intros v a Ha. unfold store. apply Nat.eqb_neq in Ha. now rewrite Ha. }
  assert (Hnum : forall T n,
             load_and_assign E T bytes date key dest n mem = Returns (ret1, mem1) ->
             (ret1 = 0 /\ fst (LoadDBvalue E bytes date key "") = 0 \/
              error_code ret1 \/
              ret1 = 1 /\ fst (LoadDBvalue E bytes date key "") = 1) /\
             (forall a, a <> dest -> mem1 a = mem a)).
  { intros T n. unfold load_and_assign, error_code. destruct (Nat.ltb n 2).
    - destruct (LoadDBvalue_num_cases T key) as [[v [-> Hv]]|[[-> Hv]|[-> Hv]]];
        intros H; inversion H; subst; cbn [Z.eqb]; auto 10.
    - destruct (LoadDBarray_cases T key) as [[v [-> Hv]]|[[v [-> Hv]]|[-> Hv]]];
        cbn [Z.eqb]; [destruct (negb _); [|destruct (sizeof T =? 8)]| |];
        intros H; inversion H; subst; auto 10. }
  assert (Hvec : forall T n,
             load_and_assign_vector E T bytes date key dest n mem
               = Returns (ret1, mem1) ->
             (ret1 = 0 /\ fst (LoadDBvalue E bytes date key "") = 0 \/
              error_code ret1 \/
              ret1 = 1 /\ fst (LoadDBvalue E bytes date key "") = 1) /\
             (forall a, a <> dest -> mem1 a = mem a)).
  { intros T n. unfold load_and_assign_vector, error_code.
    destruct (LoadDBarray_cases T key) as [[v [-> Hv]]|[[v [-> Hv]]|[-> Hv]]];
      cbv zeta; [destruct (andb _ _)|destruct (andb _ _)|];
      intros H; inversion H; subst; auto 10. }
  assert (Hmat : forall T n,
             load_and_assign_matrix E T bytes date key dest n mem
               = Returns (ret1, mem1) ->
             (ret1 = 0 /\ fst (LoadDBvalue E bytes date key "") = 0 \/
              error_code ret1 \/
              ret1 = 1 /\ fst (LoadDBvalue E bytes date key "") = 1) /\
             (forall a, a <> dest -> mem1 a = mem a)).
  { intros T n. unfold load_and_assign_matrix, LoadDBmatrix, error_code.
    destruct (LoadDBarray_cases T key) as [[v [-> Hv]]|[[v [-> Hv]]|[-> Hv]]];
      cbn [Z.eqb negb].
    - unfold reshape. destruct n as [|n]; [discriminate|].
      destruct (negb (Nat.eqb _ _)).
      + intros H; inversion H; subst; auto 10.
      + destruct (matrix_rows E v (S n) _); [|discriminate].
        intros H; inversion H; subst; auto 10.
    - intros H; inversion H; subst; auto 10.
    - intros H; inversion H; subst; auto 10. }
  assert (Hstr : load_string E bytes date key dest mem = Returns (ret1, mem1) ->
             (ret1 = 0 /\ fst (LoadDBvalue E bytes date key "") = 0 \/
              error_code ret1 \/
              ret1 = 1 /\ fst (LoadDBvalue E bytes date key "") = 1) /\
             (forall a, a <> dest -> mem1 a = mem a)).
  { unfold load_string.
    destruct (LoadDBvalue_status key "") as [H|H];
      destruct (LoadDBvalue E bytes date key "") as [err text]; cbn [fst] in H; subst;
      cbn [Z.eqb]; intros H; inversion H; subst; auto 10. }
  unfold load_item. destruct (type item); eauto.
  intros H. inversion H. subst. unfold error_code. auto 10.
Qed.


End LoaderProperties.

Section LoaderProperties2.

Variable E : Externals.
Variable bytes : string.
Variable date : TDatime.

Lemma LoadDatabase_items_outcome
  (recurse : list DBRequest -> string -> Z -> Mem E -> behaviour (Z * Mem E))
  (prefix : string) (search_ : Z) :
  (forall item p s mem r mem',
      recurse [item] p s mem = Returns (r, mem') ->
      (r = 0 \/ error_code r \/ r = 1) /\
      (forall a, var item <> Some a -> mem' a = mem a)) ->
  forall (req : list DBRequest) (idx ret : Z) (mem : Mem E) (r : Z) (mem' : Mem E),
    0 <= idx ->
    LoadDatabase_items E recurse bytes date prefix search_ req idx ret mem
      = Returns (r, mem') ->
    (r = ret \/ r = 0 \/ error_code r \/
     1 <= r <= idx + Z.of_nat (List.length req) /\ req <> []) /\
    (forall a, (forall it, In it req -> var it <> Some a) -> mem' a = mem a).
Proof.
  intros Hrec.
  induction req as [|item rest IH]; intros idx ret mem r mem' Hidx;
    cbn [LoadDatabase_items].
  { intros H. inversion H. subst. auto. }
  assert (Hnext : forall ret0 mem0,
             (forall a, (forall it, In it (item :: rest) -> var it <> Some a) ->
                        mem0 a = mem a) ->
             ret0 = ret \/ ret0 = 0 ->
             LoadDatabase_items E recurse bytes date prefix search_ rest (idx + 1)
               ret0 mem0 = Returns (r, mem') ->
             (r = ret \/ r = 0 \/ error_code r \/
              1 <= r <= idx + Z.of_nat (List.length (item :: rest)) /\
              item :: rest <> []) /\
             (forall a, (forall it, In it (item :: rest) -> var it <> Some a) ->
                        mem' a = mem a)).
  { intros ret0 mem0 Hm0 Hr0 H.
    destruct (IH (idx + 1) ret0 mem0 r mem' ltac:(lia) H) as [Hr Hm].
    split.
    - cbn [List.length]. 
      destruct Hr as [Hr|[Hr|[Hr|[Hr _]]]]; [destruct Hr0; subst; auto|auto|auto|].
      right. right. right. split; [lia|discriminate].
    - intros a Ha. rewrite Hm; [now apply Hm0|].
      intros it Hit. apply Ha. now right. }
  destruct (var item) as [dest|] eqn:Hvar; [|apply Hnext; auto].
  destruct (load_item E bytes date (prefix ++ name item) item dest mem)
    as [[ret1 mem1]| | |] eqn:Hload; try discriminate.
  destruct (load_item_outcome E bytes date _ _ _ _ _ _ Hload) as [Hr1 Hm1].
  assert (Hm1' : forall a, (forall it, In it (item :: rest) -> var it <> Some a) ->
                           mem1 a = mem a).
  { intros a Ha. apply Hm1. intros ->. apply (Ha item); [now left|assumption]. }
  assert (Hlen : 1 <= 1 + idx <= idx + Z.of_nat (List.length (item :: rest))).
  { cbn [List.length]. lia. }
  destruct (ret1 =? 0) eqn:H0.
  { apply Z.eqb_eq in H0. subst ret1. apply Hnext; auto. }
  destruct (ret1 >? 0) eqn:Hpos.
  2: { intros H. inversion H. subst. split; [|assumption].
       destruct Hr1 as [[Hr1 _]|[Hr1|[Hr1 _]]]; auto.
       subst. discriminate. }
  assert (Hmissing :
            (if optional item
             then LoadDatabase_items E recurse bytes date prefix search_ rest
                    (idx + 1) 0 mem1
             else Returns (1 + idx, mem1)) = Returns (r, mem') ->
            (r = ret \/ r = 0 \/ error_code r \/
             1 <= r <= idx + Z.of_nat (List.length (item :: rest)) /\
             item :: rest <> []) /\
            (forall a, (forall it, In it (item :: rest) -> var it <> Some a) ->
                       mem' a = mem a)).
  { destruct (optional item); [apply Hnext; auto|].
    intros H. inversion H. subst. split; [|assumption].
    right. right. right. split; [assumption|discriminate]. }
  destruct (andb _ (negb (is_empty prefix))); [|exact Hmissing].
  destruct (ChopPrefix prefix) as [newprefix ndot].
  destruct (orb _ _); [|exact Hmissing].
  match goal with
  | |- match ?x with _ => _ end = _ -> _ =>
      destruct x as [[ret2 mem2]| | |] eqn:Hrc; try discriminate
  end.
  destruct (Hrec _ _ _ _ _ _ Hrc) as [Hr2 Hm2]. cbn [var no_search] in Hm2.
  assert (Hm2' : forall a, (forall it, In it (item :: rest) -> var it <> Some a) ->
                           mem2 a = mem a).
  { intros a Ha. rewrite Hm2; [now apply Hm1'|].
    apply Ha. now left. }
  destruct (negb (ret2 =? 0)) eqn:H2.
  - intros H. inversion H. subst. split; [|assumption].
    destruct Hr2 as [Hr2|[Hr2|Hr2]]; auto.
    subst. right. right. right. split; [cbn [List.length]; lia|discriminate].
  - apply negb_false_iff, Z.eqb_eq in H2. subst ret2. apply Hnext; auto.
Qed.

Lemma LoadDatabase_rec_outcome (fuel : nat) :
  forall (req : list DBRequest) (prefix : string) (search_ : Z) (mem : Mem E)
         (r : Z) (mem' : Mem E),
    LoadDatabase_rec E fuel bytes date req prefix search_ mem = Returns (r, mem') ->
    (r = 0 \/ error_code r \/ 1 <= r <= Z.of_nat (List.length req)) /\
    (forall a, (forall it, In it req -> var it <> Some a) -> mem' a = mem a).
Proof.
  induction fuel as [|fuel IH]; intros req prefix search_ mem r mem';
    cbn [LoadDatabase_rec]; [discriminate|].
  intros H.
  apply LoadDatabase_items_outcome in H; [| |lia].
  - destruct H as [Hr Hm]. split; [|assumption].
    destruct Hr as [Hr|[Hr|[Hr|[Hr _]]]]; auto.
  - intros item p s m r0 m0 Hrc. destruct (IH _ _ _ _ _ _ Hrc) as [Hr Hm].
    split.
    + destruct Hr as [Hr|[Hr|Hr]]; auto. cbn [List.length] in Hr.
      right. right. lia.
    + intros a Ha. apply Hm. intros it [<-|[]]. assumption.
Qed.

End LoaderProperties2.

(** Property X16: when [LoadDatabase] returns, its result is 0, one of
    the error codes -2, -129, -130, -131, or a number between 1 and the
    number of requests.  (I/O errors are not part of the embedding; the
    requests are those whose arrays, if any, have elements of eight
    bytes, see [array_copy_exact].) *)
Theorem LoadDatabase_return_code (E : Externals) (bytes : string) (date : TDatime)
  (req : list DBRequest) (prefix : string) (search_ : Z) (mem mem' : Mem E)
  (ret : Z) :
  array_copy_exact req ->
  LoadDatabase E bytes date req prefix search_ mem = Returns (ret, mem') ->
  ret = 0 \/ error_code ret \/ 1 <= ret <= Z.of_nat (List.length req).
Proof.
  intros _ H. unfold LoadDatabase in H.
  exact (proj1 (LoadDatabase_rec_outcome E bytes date _ _ _ _ _ _ _ H)).
Qed.

(** Property X17: [LoadDatabase] writes to no destination but those of
    its requests: an address that no request names holds on return what
    it held before, also when the load fails and when keys are searched
    for above the prefix.  The requests are those whose arrays, if any,
    have elements of eight bytes, for which the [memcpy] of
    [load_and_assign] stays within the destination. *)
Theorem LoadDatabase_frame (E : Externals) (bytes : string) (date : TDatime)
  (req : list DBRequest) (prefix : string) (search_ : Z) (mem mem' : Mem E)
  (ret : Z) (a : nat) :
  array_copy_exact req ->
  LoadDatabase E bytes date req prefix search_ mem = Returns (ret, mem') ->
  (forall item, In item req -> var item <> Some a) ->
  mem' a = mem a.
Proof.
  intros _ H Ha. unfold LoadDatabase in H.
  exact (proj2 (LoadDatabase_rec_outcome E bytes date _ _ _ _ _ _ _ H) a Ha).
Qed.

Lemma ab_requests_copy_exact : array_copy_exact ab_requests.
Proof.
  intros item T [<-|[<-|[]]] _ _ Hn; cbn in Hn; lia.
Qed.

Lemma LoadDatabase_return_code_witness :
  array_copy_exact ab_requests /\
  exists mem',
    LoadDatabase plain_ext a_file 20150101000000 ab_requests "L." 0 (fun _ => None)
      = Returns (2, mem') /\
    (2 = 0 \/ error_code 2 \/ 1 <= 2 <= Z.of_nat (List.length ab_requests)).
Proof.
  split; [exact ab_requests_copy_exact|].
  destruct (LoadDatabase_ab plain_ext 20150101000000 (fun _ => None) eq_refl)
    as [_ [[mem' H] _]].
  exists mem'. split; [exact H|].
  exact (LoadDatabase_return_code plain_ext _ _ _ _ _ _ _ _
           ab_requests_copy_exact H).
Defined.

Lemma LoadDatabase_frame_witness :
  array_copy_exact ab_requests /\
  (forall item, In item ab_requests -> var item <> Some 5%nat) /\
  exists mem',
    LoadDatabase plain_ext a_file 20150101000000 ab_requests "L." 0 (fun _ => None)
      = Returns (2, mem') /\
    mem' 5%nat = None.
Proof.
  assert (Ha : forall item, In item ab_requests -> var item <> Some 5%nat).
  { intros item [<-|[<-|[]]]; discriminate. }
  split; [exact ab_requests_copy_exact|]. split; [exact Ha|].
  destruct (LoadDatabase_ab plain_ext 20150101000000 (fun _ => None) eq_refl)
    as [_ [[mem' H] _]].
  exists mem'. split; [exact H|].
  exact (LoadDatabase_frame plain_ext _ _ _ _ _ _ _ _ 5%nat
           ab_requests_copy_exact H Ha).
Defined.

Section LoaderProperties3.

Variable E : Externals.
Variable bytes : string.
Variable date : TDatime.




End LoaderProperties3.





(** Property X28: a load that does not succeed leaves the destination as
    it was, unless the destination is a vector: [LoadDBarray] fills the
    vector itself, so after a conversion error (-131) or a size mismatch
    (-130) the vector holds the values that were read, and only a key
    that is not found leaves it alone. *)
Theorem load_item_failure (E : Externals) (bytes : string) (date : TDatime)
  (key : string) (item : DBRequest) (dest : nat) (mem mem' : Mem E) (ret : Z) :
  load_item E bytes date key item dest mem = Returns (ret, mem') ->
  ret <> 0 ->
  (vector_type (type item) = None -> mem' = mem) /\
  (forall T, vector_type (type item) = Some T ->
     (ret = 1 /\ mem' = mem) \/
     (exists st vals,
        LoadDBarray E T bytes date key = Some (st, Some vals) /\
        (ret = -131 /\ st = -131 \/
         ret = -130 /\ st = 0 /\ List.length vals <> nelem item) /\
        mem' = store E mem dest (VArr E vals))).
Proof.
  intros Hload Hret.
  assert (Hnum : forall T n,
             load_and_assign E T bytes date key dest n mem = Returns (ret, mem') ->
             mem' = mem).
  { intros T n. unfold load_and_assign. destruct (Nat.ltb n 2).
    - destruct (LoadDBvalue_num_cases E bytes date T key)
        as [[v [-> _]]|[[-> _]|[-> _]]];
        intros H; inversion H; subst; [congruence|reflexivity|reflexivity].
    - destruct (LoadDBarray_cases E bytes date T key)
        as [[v [-> _]]|[[v [-> _]]|[-> _]]]; cbn [Z.eqb].
      + destruct (negb _); [|destruct (sizeof T =? 8)];
          intros H; inversion H; subst; try reflexivity; congruence.
      + intros H; now inversion H.
      + intros H; now inversion H. }
  assert (Hmat : forall T n,
             load_and_assign_matrix E T bytes date key dest n mem
               = Returns (ret, mem') -> mem' = mem).
  { intros T n. unfold load_and_assign_matrix, LoadDBmatrix.
    destruct (LoadDBarray_cases E bytes date T key)
      as [[v [-> _]]|[[v [-> _]]|[-> _]]]; cbn [Z.eqb negb].
    - unfold reshape. destruct n as [|n]; [discriminate|].
      destruct (negb (Nat.eqb _ _)).
      + intros H; now inversion H.
      + destruct (matrix_rows E v (S n) _); [|discriminate].
        intros H; inversion H; subst; congruence.
    - intros H; now inversion H.
    - intros H; now inversion H. }
  assert (Hstr : load_string E bytes date key dest mem = Returns (ret, mem') ->
                 mem' = mem).
  { unfold load_string.
    destruct (LoadDBvalue E bytes date key "") as [err text].
    destruct (err =? 0) eqn:H0; intros H; inversion H; subst; [|reflexivity].
    apply Z.eqb_eq in H0. congruence. }
  assert (Hvec : forall T,
             load_and_assign_vector E T bytes date key dest (nelem item) mem
               = Returns (ret, mem') ->
             (ret = 1 /\ mem' = mem) \/
             (exists st vals,
                LoadDBarray E T bytes date key = Some (st, Some vals) /\
                (ret = -131 /\ st = -131 \/
                 ret = -130 /\ st = 0 /\ List.length vals <> nelem item) /\
                mem' = store E mem dest (VArr E vals))).
  { intros T. unfold load_and_assign_vector.
    destruct (LoadDBarray_cases E bytes date T key)
      as [[v [Ha _]]|[[v [Ha _]]|[Ha _]]]; rewrite Ha; cbv zeta.
    - cbn [Z.eqb andb].
      destruct (Nat.ltb 0 (nelem item)); cbn [andb].
      + destruct (Nat.eqb_spec (nelem item) (List.length v)) as [He|He]; cbn [negb];
          intros H; inversion H; subst; [congruence|].
        right. exists 0, v. split; [reflexivity|]. split; [|reflexivity].
        right. auto.
      + intros H; inversion H; subst. congruence.
    - cbn [Z.eqb andb]. intros H; inversion H; subst.
      right. exists (-131), v. split; [reflexivity|]. split; [|reflexivity].
      left. auto.
    - intros H; inversion H; subst. left. auto. }
  unfold load_item in Hload.
  split.
  - intros Hv. destruct (type item); try discriminate Hv; eauto.
    now inversion Hload.
  - intros T HT. destruct (type item); try discriminate HT;
      injection HT as <-; now apply Hvec.
Qed.

Lemma load_item_failure_witness :
  load_item plain_ext trailing_blank_file 20150101000000 "x"
    (mk_req "x" (Some O) kIntV 0 false None 0) O (fun _ => None)
  = Returns (-131, store plain_ext (fun _ => None) O
                     (VArr plain_ext [NInt plain_ext 1; NInt plain_ext 2])) /\
  -131 <> 0 /\
  (forall T, vector_type kIntV = Some T ->
     (-131 = 1 /\
      store plain_ext (fun _ => None) O
        (VArr plain_ext [NInt plain_ext 1; NInt plain_ext 2]) = (fun _ => None)) \/
     (exists st vals,
        LoadDBarray plain_ext T trailing_blank_file 20150101000000 "x"
          = Some (st, Some vals) /\
        (-131 = -131 /\ st = -131 \/
         -131 = -130 /\ st = 0 /\ List.length vals <> O) /\
        store plain_ext (fun _ => None) O
          (VArr plain_ext [NInt plain_ext 1; NInt plain_ext 2])
        = store plain_ext (fun _ => None) O (VArr plain_ext vals))).
Proof.
  assert (H : load_item plain_ext trailing_blank_file 20150101000000 "x"
                (mk_req "x" (Some O) kIntV 0 false None 0) O (fun _ => None)
              = Returns (-131, store plain_ext (fun _ => None) O
                                 (VArr plain_ext [NInt plain_ext 1; NInt plain_ext 2]))).
  { unfold load_item, load_and_assign_vector. cbn [type nelem].
    unfold LoadDBarray.
    rewrite (trailing_blank_file_value plain_ext 20150101000000 eq_refl).
    reflexivity. }
  assert (Hne : -131 <> 0) by discriminate.
  split; [exact H|]. split; [exact Hne|].
  exact (proj2 (load_item_failure plain_ext _ _ _ _ _ _ _ _ H Hne)).
Defined.

Lemma all_digits_chars (s : string) : all_digits s = all_chars isdigit s.
Proof. induction s as [|c s IH]; simpl; [reflexivity|now rewrite IH]. Qed.

Lemma atoi_decimal (s : string) : all_digits s = true -> atoi s = decimal s 0.
Proof.
  unfold atoi. generalize 0 as acc.
  induction s as [|c s IH]; intros acc H; [reflexivity|].
  simpl in H. apply andb_prop in H. destruct H as [Hc Hs].
  cbn [decimal]. rewrite Hc. apply IH. exact Hs.
Qed.

Lemma decimal_split (s : string) :
  forall acc, decimal s acc = acc * 10 ^ Z.of_nat (slen s) + decimal s 0.
Proof.
  induction s as [|c s IH]; intros acc.
  - cbn. lia.
  - cbn [decimal slen String.length]. rewrite (IH (acc * 10 + digit_val c)).
    rewrite (IH (0 * 10 + digit_val c)).
    rewrite Nat2Z.inj_succ, Z.pow_succ_r by lia. fold (slen s). lia.
Qed.

Lemma decimal_bound (s : string) :
  all_digits s = true -> 0 <= decimal s 0 < 10 ^ Z.of_nat (slen s).
Proof.
  induction s as [|c s IH]; intros H.
  - cbn. lia.
  - simpl in H. apply andb_prop in H. destruct H as [Hc Hs].
    specialize (IH Hs). cbn [decimal]. rewrite decimal_split.
    cbn [slen String.length]. fold (slen s).
    rewrite Nat2Z.inj_succ, Z.pow_succ_r by lia.
    assert (0 <= digit_val c <= 9).
    { unfold isdigit, digit_val in *. apply andb_prop in Hc. destruct Hc as [A B].
      apply Nat.leb_le in A, B. lia. }
    nia.
Qed.

Lemma ascii_compare_digit_val (a b : ascii) :
  match Ascii.compare a b with
  | Lt => digit_val a < digit_val b
  | Eq => a = b
  | Gt => digit_val b < digit_val a
  end.
Proof.
  unfold Ascii.compare, digit_val, chr, nat_of_ascii.
  destruct (N.compare_spec (N_of_ascii a) (N_of_ascii b)) as [H|H|H].
  - apply (f_equal ascii_of_N) in H. now rewrite !ascii_N_embedding in H.
  - lia.
  - lia.
Qed.

Lemma string_compare_decimal (a : string) :
  forall b : string,
    slen a = slen b -> all_digits a = true -> all_digits b = true ->
    match String.compare a b with
    | Lt => decimal a 0 < decimal b 0
    | Eq => a = b
    | Gt => decimal b 0 < decimal a 0
    end.
Proof.
  induction a as [|x a IH]; intros [|y b] Hlen Ha Hb; try discriminate;
    [reflexivity|].
  simpl in Ha, Hb. apply andb_prop in Ha, Hb.
  destruct Ha as [Hx Ha], Hb as [Hy Hb].
  cbn [slen String.length] in Hlen. injection Hlen as Hlen. fold (slen a) (slen b) in Hlen.
  cbn [String.compare]. pose proof (ascii_compare_digit_val x y) as Hxy.
  pose proof (decimal_bound a Ha) as Ba. pose proof (decimal_bound b Hb) as Bb.
  specialize (IH b Hlen Ha Hb).
  cbn [decimal]. rewrite (decimal_split a), (decimal_split b). rewrite Hlen in *.
  destruct (Ascii.compare x y).
  - subst y.
    destruct (String.compare a b); [now subst|lia|lia].
  - nia.
  - nia.
Qed.

Lemma string_leb_atoi (a b : string) :
  is_time_dir a = true -> is_time_dir b = true ->
  if String.leb a b then atoi a <= atoi b else atoi b <= atoi a.
Proof.
  unfold is_time_dir. intros Ha Hb. apply andb_prop in Ha, Hb.
  destruct Ha as [La Da], Hb as [Lb Db]. apply Nat.eqb_eq in La, Lb.
  rewrite (atoi_decimal a Da), (atoi_decimal b Db).
  pose proof (string_compare_decimal a b ltac:(congruence) Da Db) as H.
  unfold String.leb. destruct (String.compare a b); [subst; lia|lia|lia].
Qed.

Lemma sort_insert_In (x : string) (l : list string) (y : string) :
  In y (sort_insert x l) <-> y = x \/ In y l.
Proof.
  induction l as [|z l IH]; cbn [sort_insert].
  - cbn. intuition.
  - destruct (String.leb x z); cbn [In]; [intuition|].
    rewrite IH. cbn [In]. intuition.
Qed.

Lemma sort_strings_In (l : list string) (y : string) :
  In y (sort_strings l) <-> In y l.
Proof.
  induction l as [|x l IH]; [reflexivity|].
  cbn [sort_strings fold_right]. fold (sort_strings l).
  rewrite sort_insert_In, IH. cbn [In]. intuition.
Qed.

Lemma sort_insert_ascending (x : string) (l : list string) :
  is_time_dir x = true -> Forall (fun y => is_time_dir y = true) l ->
  ascending l -> ascending (sort_insert x l).
Proof.
  intros Hx Hl Hs. induction Hs as [|z l Hz Hs IH]; cbn [sort_insert].
  - constructor; [intros y []|constructor].
  - inversion Hl as [|? ? Hzd Hl']; subst.
    pose proof (string_leb_atoi x z Hx Hzd) as Hc.
    destruct (String.leb x z); cbv iota in Hc.
    + constructor; [|constructor; assumption].
      intros y [<-|Hy]; [assumption|]. specialize (Hz y Hy). lia.
    + constructor; [|now apply IH].
      intros y Hy. apply (proj1 (sort_insert_In _ _ _)) in Hy.
      destruct Hy as [-> |Hy]; auto.
Qed.

Lemma sort_strings_ascending (l : list string) :
  Forall (fun y => is_time_dir y = true) l -> ascending (sort_strings l).
Proof.
  induction l as [|x l IH]; intros H; [constructor|].
  inversion H as [|? ? Hx Hl]; subst.
  cbn [sort_strings fold_right]. fold (sort_strings l).
  apply sort_insert_ascending; [assumption| |now apply IH].
  apply Forall_forall. intros y Hy. apply (proj1 (sort_strings_In _ _)) in Hy.
  rewrite Forall_forall in Hl. apply Hl. exact Hy.
Qed.

Lemma find_time_dir_ascending (date : Z) (dirs : list string) :
  forall prev : option string,
    ascending dirs ->
    match prev with
    | Some p => atoi p <= date /\ (forall y, In y dirs -> atoi p <= atoi y)
    | None => True
    end ->
    match find_time_dir date prev dirs with
    | Some d =>
        (prev = Some d \/ In d dirs) /\ atoi d <= date /\
        (forall y, In y dirs -> atoi y <= date -> atoi y <= atoi d)
    | None =>
        (prev = None \/ dirs = []) /\ (forall y, In y dirs -> date < atoi y)
    end.
Proof.
  induction dirs as [|d rest IH]; intros prev Hs Hp.
  - cbn. split; [now right|intros y []].
  - inversion Hs as [|? ? Hd Hs']; subst.
    assert (Hrec : date >= atoi d -> rest <> [] ->
              match find_time_dir date (Some d) rest with
              | Some d0 =>
                  (prev = Some d0 \/ In d0 (d :: rest)) /\ atoi d0 <= date /\
                  (forall y, In y (d :: rest) -> atoi y <= date -> atoi y <= atoi d0)
              | None =>
                  (prev = None \/ d :: rest = []) /\
                  (forall y, In y (d :: rest) -> date < atoi y)
              end).
    { intros Hge Hne. assert (Hle0 : atoi d <= date) by lia.
      specialize (IH (Some d) Hs' (conj Hle0 Hd)).
      destruct (find_time_dir date (Some d) rest) as [d0|] eqn:Hf.
      - destruct IH as [Hin [Hle Hmax]]. split; [|split; [assumption|]].
        + right. destruct Hin as [Hin|Hin]; [injection Hin as <-; now left|now right].
        + intros y [<-|Hy] Hyd; [|now apply Hmax].
          destruct Hin as [Hin|Hin]; [injection Hin as <-; lia|].
          now apply Hd.
      - destruct IH as [[Hn|Hn] _]; [discriminate|contradiction]. }
    cbn [find_time_dir].
    destruct prev as [p|].
    + destruct Hp as [Hp1 Hp2].
      destruct (date <? atoi d) eqn:Hlt.
      * apply Z.ltb_lt in Hlt. split; [now left|]. split; [assumption|].
        intros y [<-|Hy] Hyd; [lia|]. specialize (Hd y Hy). lia.
      * apply Z.ltb_ge in Hlt.
        destruct (andb (is_empty_list rest) (date >=? atoi d)) eqn:Hlast.
        -- apply andb_prop in Hlast. destruct Hlast as [Hl _].
           destruct rest; [|discriminate].
           split; [right; now left|]. split; [assumption|].
           intros y [<-|[]] _. lia.
        -- apply Hrec; [lia|]. intros ->. cbn [is_empty_list andb] in Hlast.
           destruct (Z.geb_spec date (atoi d)); [discriminate|lia].
    + destruct (date <? atoi d) eqn:Hlt.
      * apply Z.ltb_lt in Hlt. split; [now left|].
        intros y [<-|Hy]; [assumption|]. specialize (Hd y Hy). lia.
      * apply Z.ltb_ge in Hlt.
        destruct (andb (is_empty_list rest) (date >=? atoi d)) eqn:Hlast.
        -- apply andb_prop in Hlast. destruct Hlast as [Hl _].
           destruct rest; [|discriminate].
           split; [right; now left|]. split; [assumption|].
           intros y [<-|[]] _. lia.
        -- apply Hrec; [lia|]. intros ->. cbn [is_empty_list andb] in Hlast.
           destruct (Z.geb_spec date (atoi d)); [discriminate|lia].
Qed.

(** Property X20: among the entries of the database directory,
    [GetDBFileList] selects the date directory (eight digits) with the
    greatest date not after the requested one; when the requested date
    is before all of them, or there is none, no date directory is
    selected.  The order of the entries does not matter. *)
Theorem find_time_dir_latest (date : Z) (entries : list string) :
  match find_time_dir date None (sort_strings (filter is_time_dir entries)) with
  | Some d =>
      In d entries /\ is_time_dir d = true /\ atoi d <= date /\
      (forall y, In y entries -> is_time_dir y = true -> atoi y <= date ->
                 atoi y <= atoi d)
  | None =>
      forall y, In y entries -> is_time_dir y = true -> date < atoi y
  end.
Proof.
  assert (Hall : Forall (fun y => is_time_dir y = true) (filter is_time_dir entries)).
  { apply Forall_forall. intros y Hy. apply filter_In in Hy. tauto. }
  pose proof (find_time_dir_ascending date _ None
                (sort_strings_ascending _ Hall) I) as H.
  destruct (find_time_dir date None (sort_strings (filter is_time_dir entries)))
    as [d|].
  - destruct H as [[Hin|Hin] [Hle Hmax]]; [discriminate|].
    apply (proj1 (sort_strings_In _ _)) in Hin.
    apply (proj1 (filter_In _ _ _)) in Hin. destruct Hin as [Hin Hd].
    repeat split; try assumption.
    intros y Hy Hyd Hle'. apply Hmax; [|assumption].
    apply (proj2 (sort_strings_In _ _)), (proj2 (filter_In _ _ _)). now split.
  - destruct H as [_ H]. intros y Hy Hyd. apply H.
    apply (proj2 (sort_strings_In _ _)), (proj2 (filter_In _ _ _)). now split.
Qed.

Lemma substring_empty (n m : nat) : substring n m "" = "".
Proof. destruct n, m; reflexivity. Qed.

Lemma rfind_char_split (c : ascii) (s : string) :
  forall pos : nat,
    match rfind_char c pos s with
    | Some i =>
        exists a b, s = a ++ String c b /\ slen a = i /\ (i <= pos)%nat /\
                    count_char c (substring 0 (pos - i) b) = O
    | None => count_char c (substring 0 (S pos) s) = O
    end.
Proof.
  induction s as [|x s IH]; intros pos; [destruct pos; reflexivity|].
  destruct pos as [|p]; cbn [rfind_char].
  - destruct (Ascii.eqb x c) eqn:Hx.
    + apply Ascii.eqb_eq in Hx. subst x. exists "", s.
      split; [reflexivity|]. split; [reflexivity|]. split; [lia|].
      destruct s; reflexivity.
    + cbn. rewrite Hx. destruct s; reflexivity.
  - specialize (IH p). destruct (rfind_char c p s) as [i|].
    + destruct IH as [a [b [Hs [Ha [Hi Hc]]]]].
      exists (String x a), b. cbn [append slen String.length].
      rewrite Hs. fold (slen a). rewrite Ha.
      split; [reflexivity|]. split; [reflexivity|]. split; [lia|]. exact Hc.
    + destruct (Ascii.eqb x c) eqn:Hx.
      * apply Ascii.eqb_eq in Hx. subst x. exists "", s.
        split; [reflexivity|]. split; [reflexivity|]. split; [lia|]. exact IH.
      * change (substring 0 (S (S p)) (String x s))
          with (String x (substring 0 (S p) s)).
        cbn [count_char]. rewrite Hx, IH. reflexivity.
Qed.

(** Property X6: [ChopPrefix] cuts off the last level of a prefix: the
    part removed is not empty (unless the prefix was) and holds no dot
    except possibly as its last character; what remains is empty or
    ends in a dot, and the number returned is the number of its dots. *)
Theorem ChopPrefix_last_level (s : string) :
  exists t,
    s = fst (ChopPrefix s) ++ t /\
    (s <> "" -> t <> "") /\
    count_char "." (pop_back t) = O /\
    (fst (ChopPrefix s) = "" \/ back (fst (ChopPrefix s)) = Some "."%char) /\
    snd (ChopPrefix s) = Z.of_nat (count_char "." (fst (ChopPrefix s))).
Proof.
  unfold ChopPrefix.
  destruct (Nat.leb 2 (slen s)) eqn:Hlen.
  - apply Nat.leb_le in Hlen.
    pose proof (rfind_char_split "." s (slen s - 2)) as H.
    destruct (rfind_char "." (slen s - 2) s) as [i|].
    + destruct H as [a [b [Hs [Ha [Hi Hc]]]]]. cbn [fst snd].
      assert (Hp : erase_from (i + 1) s = push_back a ".").
      { unfold erase_from. rewrite Hs.
        change (a ++ String "." b) with (a ++ (String "." "" ++ b)).
        rewrite <- sapp_assoc. fold (push_back a ".").
        replace (i + 1)%nat with (slen (push_back a ".")).
        - apply substring_prefix.
        - rewrite slen_push_back. lia. }
      rewrite Hp. exists b.
      assert (Hb : slen s = (i + 1 + slen b)%nat).
      { rewrite Hs at 1. rewrite slen_app. cbn [slen String.length].
        fold (slen b). unfold slen in *. lia. }
      split; [|split; [|split; [|split]]].
      * rewrite Hs at 1. unfold push_back. rewrite sapp_assoc. reflexivity.
      * intros _ ->. cbn in Hb. lia.
      * unfold pop_back, erase_from.
        replace (slen b - 1)%nat with (slen s - 2 - i)%nat by lia. exact Hc.
      * right. apply back_push_back.
      * reflexivity.
    + cbn [fst snd]. exists s. cbn [append].
      split; [reflexivity|]. split; [auto|]. split; [|split; [now left|reflexivity]].
      unfold pop_back, erase_from.
      replace (slen s - 1)%nat with (S (slen s - 2)) by lia. exact H.
  - apply Nat.leb_gt in Hlen. cbn [fst snd]. exists s. cbn [append].
    split; [reflexivity|]. split; [auto|]. split; [|split; [now left|reflexivity]].
    destruct s as [|x [|y s]]; [reflexivity|reflexivity|cbn in Hlen; lia].
Qed.

Lemma all_chars_count (c : ascii) (s : string) :
  all_chars (fun x => negb (Ascii.eqb x c)) s = true <-> count_char c s = O.
Proof.
  induction s as [|x s IH]; cbn [all_chars count_char]; [tauto|].
  destruct (Ascii.eqb x c); cbn [negb andb]; [split; [discriminate|lia]|].
  rewrite IH. split; lia.
Qed.

Lemma skip_to_char (c : ascii) (s : string) :
  match skip_while (fun x => negb (Ascii.eqb x c)) s with
  | String y r =>
      y = c /\ exists a, s = a ++ String c r /\ count_char c a = O
  | EmptyString => count_char c s = O
  end.
Proof.
  destruct (skip_while_split (fun x => negb (Ascii.eqb x c)) s) as [ws [Hs Hws]].
  pose proof (skip_while_head (fun x => negb (Ascii.eqb x c)) s) as Hh.
  apply all_chars_count in Hws.
  destruct (skip_while _ s) as [|y r].
  - rewrite app_empty_r in Hs. now subst.
  - apply negb_false_iff, Ascii.eqb_eq in Hh. subst y.
    split; [reflexivity|]. now exists ws.
Qed.

Lemma skip_to_char_app (c : ascii) (a r : string) :
  count_char c a = O ->
  skip_while (fun x => negb (Ascii.eqb x c)) (a ++ String c r) = String c r.
Proof.
  intros Ha. rewrite skip_while_app by (now apply all_chars_count).
  cbn. now rewrite Ascii.eqb_refl.
Qed.

(** Property X4: [IsTag] accepts exactly the strings in which the
    first ['['] is followed by a character other than [']'] and, further
    on, by a [']'].  Only the first ['['] is looked at: ["[] [a]"] is not
    a tag, though it matches the regular expression [.*\[.+\].*]. *)
Theorem IsTag_spec (buf : string) :
  (IsTag buf = true <->
   exists a c b d,
     c_str buf = a ++ "[" ++ String c (b ++ "]" ++ d) /\
     count_char "[" a = O /\ c <> "]"%char) /\
  IsTag "[] [a]" = false.
Proof.
  split; [|reflexivity].
  unfold IsTag. split.
  - pose proof (skip_to_char "[" (c_str buf)) as H1.
    destruct (skip_while _ (c_str buf)) as [|y r]; [discriminate|].
    destruct H1 as [_ [a [Hs Ha]]].
    destruct r as [|c r']; [discriminate|].
    destruct (Ascii.eqb c "]") eqn:Hc; [discriminate|].
    pose proof (skip_to_char "]" r') as H2.
    destruct (skip_while _ r') as [|z d]; [discriminate|].
    destruct H2 as [_ [b [Hr Hb]]]. intros _.
    exists a, c, b, d. split; [|split; [assumption|]].
    + rewrite Hs, Hr. reflexivity.
    + intros ->. discriminate.
  - intros [a [c [b [d [Hs [Ha Hc]]]]]]. rewrite Hs.
    change (a ++ "[" ++ String c (b ++ "]" ++ d))
      with (a ++ String "[" (String c (b ++ String "]" d))).
    rewrite (skip_to_char_app "[" a _ Ha).
    apply Ascii.eqb_neq in Hc. rewrite Hc.
    pose proof (skip_to_char "]" (b ++ String "]" d)) as H2.
    destruct (skip_while _ (b ++ String "]" d)) as [|z r]; [|reflexivity].
    rewrite count_char_app in H2. cbn in H2. lia.
Qed.

Lemma find_char_split (c : ascii) (s : string) :
  match find_char c s with
  | Some i => exists a b, s = a ++ String c b /\ slen a = i /\ count_char c a = O
  | None => count_char c s = O
  end.
Proof.
  induction s as [|x s IH]; [reflexivity|].
  cbn [find_char count_char]. destruct (Ascii.eqb x c) eqn:Hx.
  - apply Ascii.eqb_eq in Hx. subst x. now exists "", s.
  - destruct (find_char c s) as [i|].
    + destruct IH as [a [b [Hs [Ha Hc]]]]. exists (String x a), b.
      cbn [append slen String.length count_char]. rewrite Hx, Hc, Hs.
      fold (slen a). rewrite Ha. auto.
    + exact IH.
Qed.

Lemma find_char_app (c : ascii) (a b : string) :
  count_char c a = O -> find_char c (a ++ String c b) = Some (slen a).
Proof.
  induction a as [|x a IH]; cbn [append find_char count_char slen String.length].
  - intros _. now rewrite Ascii.eqb_refl.
  - destruct (Ascii.eqb x c); [discriminate|]. intros H.
    fold (slen a). rewrite IH by exact H. reflexivity.
Qed.

Lemma substring_skip (a s : string) (m : nat) :
  substring (slen a) m (a ++ s) = substring 0 m s.
Proof. induction a as [|x a IH]; [reflexivity|exact IH]. Qed.

Lemma substring_all (s : string) : substring 0 (slen s) s = s.
Proof. induction s as [|x s IH]; [reflexivity|cbn; fold (slen s); now rewrite IH]. Qed.

Lemma sapp_inv_head (a b c : string) : a ++ b = a ++ c -> b = c.
Proof.
  induction a as [|x a IH]; cbn [append]; [auto|].
  intros H. injection H as H. now apply IH.
Qed.

Lemma first_char_unique (ch : ascii) (pre b pre' b' : string) :
  pre ++ String ch b = pre' ++ String ch b' ->
  count_char ch pre = O -> count_char ch pre' = O ->
  pre = pre' /\ b = b'.
Proof.
  intros Heq Hc Hc'.
  pose proof (find_char_app ch pre b Hc) as H1.
  pose proof (find_char_app ch pre' b' Hc') as H2.
  rewrite Heq, H2 in H1. injection H1 as Hlen.
  assert (Hp : pre = pre').
  { rewrite <- (substring_prefix pre (String ch b)), Heq, <- Hlen.
    apply substring_prefix. }
  subst pre'. split; [reflexivity|].
  apply sapp_inv_head in Heq. now injection Heq.
Qed.

Lemma IsDBdate_shape (E : Externals) (line : string) (d : TDatime) :
  IsDBdate E line = Some d ->
  exists a ts b t,
    line = a ++ "[" ++ ts ++ "]" ++ b /\
    count_char "[" a = O /\ count_char "]" ts = O /\ (11 <= slen ts)%nat /\
    parse_tm E ts = Some t /\ 95 <= tm_year t /\
    d = TDatime_Set (tm_year t + 1900) (tm_mon t + 1) (tm_mday t)
          (tm_hour t) (tm_min t) (tm_sec t).
Proof.
  unfold IsDBdate.
  pose proof (find_char_split "[" line) as H1.
  destruct (find_char "[" line) as [lbrk|]; [|discriminate].
  destruct H1 as [a [r [Hl [Ha Hca]]]].
  destruct (_ >=? _); [discriminate|].
  unfold find_char_from.
  assert (Hsub : substring lbrk (slen line - lbrk) line = String "[" r).
  { rewrite Hl, <- Ha, substring_skip.
    replace (slen (a ++ String "[" r) - slen a)%nat with (slen (String "[" r))
      by (rewrite slen_app; lia).
    apply substring_all. }
  rewrite Hsub. cbn [find_char]. replace (Ascii.eqb "[" "]") with false by reflexivity.
  pose proof (find_char_split "]" r) as H2.
  destruct (find_char "]" r) as [j|]; [|discriminate].
  destruct H2 as [ts [b [Hr [Hts Hcts]]]].
  destruct (Nat.leb (lbrk + S j) (lbrk + 11)) eqn:Hle; [discriminate|].
  apply Nat.leb_gt in Hle.
  assert (Hts' : substring (lbrk + 1) (lbrk + S j - lbrk - 1) line = ts).
  { rewrite Hl, Hr, <- Ha.
    replace (slen a + 1)%nat with (slen (a ++ "[")) by (rewrite slen_app; reflexivity).
    change (a ++ String "[" (ts ++ String "]" b)) with (a ++ ("[" ++ (ts ++ String "]" b))).
    rewrite <- sapp_assoc, substring_skip.
    replace (slen a + S j - slen a - 1)%nat with (slen ts) by lia.
    apply substring_prefix. }
  rewrite Hts'.
  destruct (parse_tm E ts) as [t|] eqn:Hp; [|discriminate].
  destruct (tm_year t <? 95) eqn:Hy; [discriminate|].
  apply Z.ltb_ge in Hy. intros H. inversion H.
  exists a, ts, b, t. rewrite Hl, Hr. repeat split; try assumption; lia.
Qed.

(** Property X3: a line carries a time stamp for [IsDBdate] exactly
    when the text between its first ['['] and the next [']'] has at
    least 11 characters and [strptime] reads it as a date of 1995 or
    later.  The unsigned subtraction [line.size() - 12], which wraps
    around on lines shorter than 12 characters, lets no such line
    through. *)
Theorem IsDBdate_spec (E : Externals) (line : string) (d : TDatime) :
  Z.of_nat (slen line) < 2 ^ 64 ->
  (IsDBdate E line = Some d <->
   exists a ts b t,
     line = a ++ "[" ++ ts ++ "]" ++ b /\
     count_char "[" a = O /\ count_char "]" ts = O /\ (11 <= slen ts)%nat /\
     parse_tm E ts = Some t /\ 95 <= tm_year t /\
     d = TDatime_Set (tm_year t + 1900) (tm_mon t + 1) (tm_mday t)
           (tm_hour t) (tm_min t) (tm_sec t)).
Proof.
  intros Hsize. split; [apply IsDBdate_shape|]. unfold IsDBdate.
  intros [a [ts [b [t [Hl [Hca [Hcts [Hlen [Hp [Hy Hd]]]]]]]]]].
  change (a ++ "[" ++ ts ++ "]" ++ b) with (a ++ String "[" (ts ++ String "]" b)) in Hl.
  assert (Hsz : slen line = (slen a + 1 + slen ts + 1 + slen b)%nat).
  { rewrite Hl, slen_app. cbn [slen String.length]. fold (slen (ts ++ String "]" b)).
    rewrite slen_app. cbn [slen String.length]. fold (slen b). lia. }
  rewrite Hl at 1. rewrite (find_char_app "[" a _ Hca).
  unfold size_t_wrap. rewrite Z.mod_small by lia.
  destruct (Z.geb_spec (Z.of_nat (slen a)) (Z.of_nat (slen line) - 12)); [lia|].
  unfold find_char_from.
  assert (Hsub : substring (slen a) (slen line - slen a) line
                 = String "[" (ts ++ String "]" b)).
  { rewrite Hl at 2. rewrite substring_skip.
    replace (slen line - slen a)%nat with (slen (String "[" (ts ++ String "]" b))).
    - apply substring_all.
    - cbn [slen String.length]. fold (slen (ts ++ String "]" b)).
      rewrite slen_app. cbn [slen String.length]. fold (slen b). lia. }
  rewrite Hsub. cbn [find_char]. replace (Ascii.eqb "[" "]") with false by reflexivity.
  rewrite (find_char_app "]" ts b Hcts).
  destruct (Nat.leb_spec (slen a + S (slen ts)) (slen a + 11)); [lia|].
  assert (Hts' : substring (slen a + 1) (slen a + S (slen ts) - slen a - 1) line = ts).
  { rewrite Hl.
    replace (slen a + 1)%nat with (slen (a ++ "[")) by (rewrite slen_app; reflexivity).
    change (a ++ String "[" (ts ++ String "]" b)) with (a ++ ("[" ++ (ts ++ String "]" b))).
    rewrite <- sapp_assoc, substring_skip.
    replace (slen a + S (slen ts) - slen a - 1)%nat with (slen ts) by lia.
    apply substring_prefix. }
  rewrite Hts', Hp.
  destruct (Z.ltb_spec (tm_year t) 95); [lia|]. now rewrite Hd.
Qed.

Lemma IsDBdate_spec_witness :
  Z.of_nat (slen "[ 2000-01-01 00:00:00 ]") < 2 ^ 64 /\
  (IsDBdate plain_ext "[ 2000-01-01 00:00:00 ]" = Some 20000101000000 <->
   exists a ts b t,
     "[ 2000-01-01 00:00:00 ]" = a ++ "[" ++ ts ++ "]" ++ b /\
     count_char "[" a = O /\ count_char "]" ts = O /\ (11 <= slen ts)%nat /\
     parse_tm plain_ext ts = Some t /\ 95 <= tm_year t /\
     20000101000000 = TDatime_Set (tm_year t + 1900) (tm_mon t + 1) (tm_mday t)
           (tm_hour t) (tm_min t) (tm_sec t)).
Proof.
  assert (H : Z.of_nat (slen "[ 2000-01-01 00:00:00 ]") < 2 ^ 64) by (cbn; lia).
  split; [exact H|].
  exact (IsDBdate_spec plain_ext "[ 2000-01-01 00:00:00 ]" 20000101000000 H).
Defined.

Lemma skip_while_app_stop (p : ascii -> bool) (a r : string) :
  all_chars p a = false -> 
  skip_while p (a ++ r) = skip_while p a ++ r /\ skip_while p a <> "".
Proof.
  induction a as [|x a IH]; [discriminate|].
  cbn [all_chars skip_while append]. destruct (p x); cbn [andb].
  - exact IH.
  - intros _. split; [reflexivity|discriminate].
Qed.

Lemma leading_space_count (pre r : string) (c : ascii) :
  isspace c = false ->
  (slen (pre ++ String c r) - slen (skip_while isspace (pre ++ String c r)))%nat
    = slen pre <-> all_chars isspace pre = true.
Proof.
  intros Hc. destruct (all_chars isspace pre) eqn:Hall.
  - rewrite skip_while_app by assumption. cbn [skip_while]. rewrite Hc.
    rewrite slen_app. split; [auto|intros _; lia].
  - destruct (skip_while_app_stop isspace pre (String c r) Hall) as [-> Hne].
    destruct (skip_while_split isspace pre) as [ws [Hpre _]].
    rewrite !slen_app. split; [|discriminate].
    assert (slen pre = (slen ws + slen (skip_while isspace pre))%nat).
    { rewrite Hpre at 1. apply slen_app. }
    destruct (skip_while isspace pre); [congruence|].
    cbn [slen String.length] in *. lia.
Qed.

Lemma get_app_at (a : string) (c : ascii) (r : string) :
  String.get (slen a) (a ++ String c r) = Some c.
Proof. induction a as [|x a IH]; [reflexivity|exact IH]. Qed.

Lemma get_front (a s : string) :
  String.get (slen a) (a ++ s) = front s.
Proof.
  induction a as [|x a IH]; [destruct s; reflexivity|exact IH].
Qed.

Lemma last_char_split (s : string) :
  s <> "" -> exists a c, s = a ++ String c "".
Proof.
  intros Hne. destruct (string_rev s) as [|c ra] eqn:Hr.
  - apply (f_equal string_rev) in Hr. rewrite string_rev_involutive in Hr.
    now subst s.
  - exists (string_rev ra), c.
    apply (f_equal string_rev) in Hr. rewrite string_rev_involutive in Hr.
    rewrite Hr. unfold string_rev at 1. cbn [string_rev_app].
    apply string_rev_app_spec.
Qed.

Lemma push_back_inj (a a' : string) (c c' : ascii) :
  a ++ String c "" = a' ++ String c' "" -> a = a' /\ c = c'.
Proof.
  intros H. apply (f_equal string_rev) in H.
  change (a ++ String c "") with (push_back a c) in H.
  change (a' ++ String c' "") with (push_back a' c') in H.
  rewrite !string_rev_push_back in H. injection H as Hc Ha.
  apply (f_equal string_rev) in Ha. rewrite !string_rev_involutive in Ha. auto.
Qed.

(** Property X5: [IsAssignment] holds of a line exactly when its first
    ['='] has a character before it that is none of ['!'], ['<'], ['>'],
    is not followed by another ['='], and the text before it is not all
    white space. *)
Theorem IsAssignment_spec (str : string) :
  IsAssignment str = true <->
  exists a c b,
    str = a ++ String c (String "=" b) /\
    count_char "=" (a ++ String c "") = O /\
    all_chars isspace (a ++ String c "") = false /\
    c <> "!"%char /\ c <> "<"%char /\ c <> ">"%char /\
    front b <> Some "="%char.
Proof.
  unfold IsAssignment.
  pose proof (find_char_split "=" str) as Hf.
  destruct (find_char "=" str) as [pos|].
  - destruct Hf as [pre [b [Hstr [Hpos Hcnt]]]].
    pose proof (leading_space_count pre b "=" eq_refl) as Hlead.
    rewrite <- Hstr, Hpos in Hlead.
    assert (Huniq : forall a' c' b',
               str = a' ++ String c' (String "=" b') ->
               count_char "=" (a' ++ String c' "") = O ->
               pre = a' ++ String c' "" /\ b = b').
    { intros a' c' b' Hs' Hc'. apply (first_char_unique "=" pre b _ b'); auto.
      rewrite <- Hstr, Hs', sapp_assoc. reflexivity. }
    destruct (Nat.eqb_spec (slen str - slen (skip_while isspace str)) pos) as [He|He].
    + split; [discriminate|].
      intros [a [c [b' [Hs [Hc [Hsp _]]]]]].
      destruct (Huniq a c b' Hs Hc) as [Hpre _].
      rewrite <- Hpre in Hsp. apply Hlead in He. congruence.
    + assert (Hsp : all_chars isspace pre = false).
      { destruct (all_chars isspace pre) eqn:H; [|reflexivity].
        exfalso. apply He. now apply Hlead. }
      assert (Hne : pre <> "") by (intros ->; discriminate).
      destruct (last_char_split pre Hne) as [a [c Hpre]].
      assert (Hs : str = a ++ String c (String "=" b)).
      { rewrite Hstr, Hpre, sapp_assoc. reflexivity. }
      assert (Hposa : pos = S (slen a)).
      { rewrite <- Hpos, Hpre, slen_app. cbn. lia. }
      assert (Hprev : String.get (pos - 1) str = Some c).
      { rewrite Hposa, Hs. replace (S (slen a) - 1)%nat with (slen a) by lia.
        apply get_app_at. }
      assert (Hnext : String.get (pos + 1) str = front b).
      { rewrite Hstr. replace (pos + 1)%nat with (slen (pre ++ "=")).
        - change (pre ++ String "=" b) with (pre ++ ("=" ++ b)).
          rewrite <- sapp_assoc. apply get_front.
        - rewrite slen_app, Hpos. reflexivity. }
      assert (Hlt : Nat.ltb (pos + 1) (slen str) = negb (is_empty b)).
      { rewrite Hstr, slen_app, Hpos. cbn [slen String.length]. fold (slen b).
        destruct b; cbn [slen String.length is_empty negb].
        - apply Nat.ltb_ge. lia.
        - apply Nat.ltb_lt. lia. }
      rewrite Hprev, Hnext, Hlt.
      split.
      * intros H. apply negb_true_iff in H.
        apply orb_false_iff in H. destruct H as [H H4].
        apply orb_false_iff in H. destruct H as [H H3].
        apply orb_false_iff in H. destruct H as [H1 H2].
        exists a, c, b. rewrite <- Hpre.
        repeat split; try assumption.
        -- intros ->. discriminate.
        -- intros ->. discriminate.
        -- intros ->. discriminate.
        -- intros Hb. destruct b as [|y b]; [discriminate|].
           cbn in Hb. injection Hb as ->. discriminate.
      * intros [a' [c' [b' [Hs' [Hc' [_ [N1 [N2 [N3 N4]]]]]]]]].
        destruct (Huniq a' c' b' Hs' Hc') as [Hpre' <-].
        rewrite Hpre in Hpre'. apply push_back_inj in Hpre'.
        destruct Hpre' as [<- <-].
        apply negb_true_iff.
        destruct (Ascii.eqb_spec c "!"); [contradiction|].
        destruct (Ascii.eqb_spec c "<"); [contradiction|].
        destruct (Ascii.eqb_spec c ">"); [contradiction|]. cbn [orb].
        destruct b as [|y b]; [reflexivity|]. cbn [is_empty negb andb front].
        apply Ascii.eqb_neq. intros ->. now apply N4.
  - split; [discriminate|].
    intros [a [c [b [Hs _]]]]. rewrite Hs in Hf.
    change (a ++ String c (String "=" b)) with (a ++ (String c "" ++ String "=" b)) in Hf.
    rewrite !count_char_app in Hf. cbn in Hf. lia.
Qed.

(** Property X2: [IsDBkey] returns 1 exactly when the line has a ['=']
    and the text before the first one, without the blanks around it, is
    not empty and is the beginning of the key (not necessarily the whole
    key); [text] is then set to what follows the ['='], without leading
    blanks. *)
Theorem IsDBkey_match (line key text v : string) :
  IsDBkey line key text = (1, v) <->
  exists l r,
    c_str line = l ++ String "=" r /\ count_char "=" l = O /\
    blank_trim l <> "" /\ (exists t, c_str key = blank_trim l ++ t) /\
    v = skip_while is_blank r.
Proof.
  pose proof (IsDBkey_spec line key text) as Hspec.
  pose proof (find_char_split "=" (c_str line)) as Hf.
  destruct (find_char "=" (c_str line)) as [eq|].
  - destruct Hf as [l [r [Hline [Hl Hc]]]]. cbv zeta in Hspec.
    assert (He : erase_from eq (c_str line) = l).
    { unfold erase_from. rewrite Hline, <- Hl. apply substring_prefix. }
    assert (Hr : substr_from (S eq) (c_str line) = r).
    { unfold substr_from. rewrite Hline, <- Hl.
      change (l ++ String "=" r) with (l ++ ("=" ++ r)). rewrite <- sapp_assoc.
      replace (S (slen l)) with (slen (l ++ "="))
        by (rewrite slen_app; cbn [slen String.length]; lia).
      rewrite substring_skip.
      replace (slen ((l ++ "=") ++ r) - slen (l ++ "="))%nat with (slen r)
        by (rewrite (slen_app (l ++ "=")); lia).
      apply substring_all. }
    rewrite He, Hr in Hspec. fold (blank_trim l) in Hspec. split.
    + intros H. destruct Hspec as [[Hne [Ht Hk]]|[_ Hk]];
        [|rewrite Hk in H; discriminate].
      rewrite Hk in H. injection H as <-. exists l, r. auto.
    + intros [l' [r' [Hline' [Hc' [Hne [Ht ->]]]]]].
      assert (Hu : l = l' /\ r = r').
      { apply (first_char_unique "=" l r l' r'); [congruence|assumption|assumption]. }
      destruct Hu as [<- <-].
      destruct Hspec as [[_ [_ Hk]]|[[Hbad|Hbad] _]];
        [exact Hk|contradiction|contradiction].
  - split.
    + intros H. rewrite Hspec in H. discriminate.
    + intros [l [r [Hline _]]]. rewrite Hline, count_char_app in Hf.
      cbn in Hf. lia.
Qed.

Lemma substring_split (s : string) :
  forall k : nat, (k <= slen s)%nat ->
    s = substring 0 k s ++ substring k (slen s - k) s /\
    slen (substring 0 k s) = k.
Proof.
  induction s as [|x s IH]; intros k Hk.
  - destruct k; [split; reflexivity|cbn in Hk; lia].
  - destruct k as [|k].
    + rewrite Nat.sub_0_r, (substring_all (String x s)). split; reflexivity.
    + cbn [slen String.length] in Hk. fold (slen s) in Hk.
      assert (Hk' : (k <= slen s)%nat) by lia.
      destruct (IH k Hk') as [H1 H2].
      change (substring 0 (S k) (String x s)) with (String x (substring 0 k s)).
      change (substring (S k) (slen (String x s) - S k) (String x s))
        with (substring k (slen s - k) s).
      cbn [append slen String.length]. fold (slen (substring 0 k s)).
      rewrite H2. split; [|reflexivity]. f_equal. exact H1.
Qed.

Lemma db_prefixed_shape (f : string) : exists y, db_prefixed f = "db_" ++ y.
Proof.
  unfold db_prefixed. destruct (String.eqb_spec (substring 0 3 f) "db_") as [He|_];
    cbn [negb]; [|now exists f].
  destruct (Nat.le_gt_cases 3 (slen f)) as [Hl|Hl].
  - destruct (substring_split f 3 Hl) as [Hs _]. rewrite He in Hs.
    exists (substring 3 (slen f - 3) f). exact Hs.
  - destruct f as [|a [|b [|c f]]]; try discriminate. cbn in Hl. lia.
Qed.

Lemma back_dat (x : string) : back (x ++ ".dat") = Some "t"%char.
Proof.
  change (x ++ ".dat") with (x ++ push_back ".da" "t").
  rewrite push_back_append. apply back_push_back.
Qed.

Lemma suffix_dat (x : string) :
  substr_from (slen (x ++ ".dat") - 4) (x ++ ".dat") = ".dat".
Proof.
  unfold substr_from. rewrite slen_app.
  replace (slen x + slen ".dat" - 4)%nat with (slen x) by (cbn; lia).
  rewrite substring_skip.
  replace (slen x + slen ".dat" - slen x)%nat with (slen ".dat") by lia.
  reflexivity.
Qed.

(** Property X21: for every name that [GetDBFileList] makes a file name
    of (at least four characters once it begins with [db_]), the file
    name has the form [db_<stem>.dat], and making a file name of it
    again changes nothing. *)
Theorem db_filename_shape (name : string) :
  (4 <= slen (db_prefixed name))%nat ->
  (exists stem, db_filename name = "db_" ++ stem ++ ".dat") /\
  db_filename (db_filename name) = db_filename name.
Proof.
  intros Hlen.
  assert (Hshape : exists stem, db_filename name = "db_" ++ stem ++ ".dat").
  { unfold db_filename.
    destruct (db_prefixed_shape name) as [y Hy]. rewrite Hy in *.
    assert (Hyne : y <> "") by (intros ->; cbn in Hlen; lia).
    destruct (last_char_split y Hyne) as [y' [c Hc]].
    destruct (opt_ascii_eqb (back ("db_" ++ y)) ".") eqn:Hb.
    - rewrite Hc in Hb.
      change ("db_" ++ y' ++ String c "") with ("db_" ++ push_back y' c) in Hb.
      rewrite push_back_append, back_push_back in Hb. cbn in Hb.
      apply Ascii.eqb_eq in Hb. subst c. exists y'.
      rewrite Hc, !sapp_assoc. reflexivity.
    - destruct (String.eqb_spec (substr_from (slen ("db_" ++ y) - 4) ("db_" ++ y))
                  ".dat") as [He|_]; cbn [negb].
      + unfold substr_from in He.
        destruct (substring_split ("db_" ++ y) (slen ("db_" ++ y) - 4) ltac:(lia))
          as [Hs Hk].
        replace (slen ("db_" ++ y) - (slen ("db_" ++ y) - 4))%nat with 4%nat in Hs
          by lia.
        replace (slen ("db_" ++ y) - (slen ("db_" ++ y) - 4))%nat with 4%nat in He
          by lia.
        rewrite He in Hs.
        set (h := substring 0 (slen ("db_" ++ y) - 4) ("db_" ++ y)) in *.
        destruct h as [|h1 [|h2 [|h3 h]]].
        * cbn in Hs. discriminate.
        * cbn in Hs. injection Hs as _ Hs _. discriminate.
        * cbn in Hs. injection Hs as _ _ Hs _. discriminate.
        * cbn [append] in Hs. injection Hs as <- <- <- Hs.
          exists h. rewrite Hs. reflexivity.
      + exists y. rewrite sapp_assoc. reflexivity. }
  split; [exact Hshape|].
  destruct Hshape as [stem ->].
  assert (Hp : db_prefixed ("db_" ++ stem ++ ".dat") = "db_" ++ stem ++ ".dat").
  { unfold db_prefixed.
    pose proof (substring_prefix "db_" (stem ++ ".dat")) as H3.
    cbn [slen String.length] in H3. rewrite H3. reflexivity. }
  unfold db_filename. rewrite Hp, <- sapp_assoc, back_dat, suffix_dat.
  reflexivity.
Qed.

Lemma db_filename_shape_witness :
  (4 <= slen (db_prefixed "L."))%nat /\
  (exists stem, db_filename "L." = "db_" ++ stem ++ ".dat") /\
  db_filename (db_filename "L.") = db_filename "L." /\
  db_filename "L." = "db_L.dat".
Proof.
  assert (H : (4 <= slen (db_prefixed "L."))%nat) by (cbn; lia).
  split; [exact H|].
  destruct (db_filename_shape "L." H) as [H1 H2].
  split; [exact H1|]. split; [exact H2|reflexivity].
Defined.

Lemma fgets_go_position (bytes : string) :
  forall (k : nat) (acc buf after : string),
    In (buf, after) (fgets_go bytes k acc) ->
    exists pre, string_rev acc ++ bytes = pre ++ buf ++ after.
Proof.
  induction bytes as [|c rest IH]; intros k acc buf after; cbn [fgets_go].
  - destruct (is_empty acc); [intros []|].
    intros [H|[]]. inversion H; subst. exists "". reflexivity.
  - assert (Hrev : string_rev (String c acc) ++ rest = string_rev acc ++ String c rest).
    { unfold string_rev at 1. cbn [string_rev_app].
      rewrite string_rev_app_spec, sapp_assoc. reflexivity. }
    destruct (orb _ _).
    + intros [H|H].
      * inversion H; subst. exists "". cbn [append]. symmetry. exact Hrev.
      * destruct (IH O "" buf after H) as [pre Hpre]. cbn [append] in Hpre.
        exists (string_rev (String c acc) ++ pre).
        rewrite sapp_assoc, <- Hpre. symmetry. exact Hrev.
    + intros H. destruct (IH (S k) (String c acc) buf after H) as [pre Hpre].
      exists pre. rewrite <- Hpre. symmetry. exact Hrev.
Qed.

Lemma fgets_chunks_at (bytes buf after : string) :
  In (buf, after) (fgets_chunks bytes) -> chunk_at bytes buf after.
Proof.
  intros Hin. split; [exact Hin|].
  exact (fgets_go_position bytes O "" buf after Hin).
Qed.

Section SeekProperties.

Variable E : Externals.
Variable errno_after : string -> bool.
Variable bytes : string.
Variable date : TDatime.

Lemma SeekDBdate_loop_sound (end_on_tag : bool) (chunks : list (string * string)) :
  forall (prevdate : TDatime) (foundpos : option string),
    (forall buf after, In (buf, after) chunks -> chunk_at bytes buf after) ->
    (forall p, foundpos = Some p -> behind_date_tag E bytes date p) ->
    forall p, fst (SeekDBdate_loop E errno_after date end_on_tag chunks prevdate
                     foundpos) = Some p ->
              behind_date_tag E bytes date p.
Proof.
  induction chunks as [|[buf after] rest IH]; intros prevdate foundpos Hch Hfp;
    cbn [SeekDBdate_loop]; [exact Hfp|].
  assert (Hrest : forall b a, In (b, a) rest -> chunk_at bytes b a).
  { intros b a H. apply Hch. now right. }
  destruct (skipped buf) eqn:Hsk; [now apply IH|]. cbv zeta.
  destruct (IsDBdate E (chomp buf)) as [tagdate|] eqn:Hd.
  - destruct (andb (tagdate <=? date) (tagdate >=? prevdate)) eqn:Hok.
    + apply IH; [assumption|]. intros p Hp. inversion Hp; subst.
      pose proof (Hch buf p (or_introl eq_refl)) as Hat.
      apply andb_prop in Hok. destruct Hok as [Hle _]. apply Z.leb_le in Hle.
      exists buf, tagdate. auto.
    + destruct (andb end_on_tag _); [exact Hfp|now apply IH].
  - destruct (errno_after _); [exact Hfp|].
    destruct (andb end_on_tag _); [exact Hfp|now apply IH].
Qed.

Hypothesis calendar : calendar_fields E.
Hypothesis errno_clear : forall line, errno_after line = false.

Lemma SeekDBdate_loop_latest (chunks : list (string * string)) :
  forall (prevdate : TDatime) (foundpos : option string)
         (best : option (TDatime * string)),
    seek_inv prevdate foundpos best ->
    exists prevdate' foundpos',
      SeekDBdate_loop E errno_after date false chunks prevdate foundpos
        = (foundpos', false) /\
      seek_inv prevdate' foundpos'
        (fold_left (choose date)
           (flat_map
              (fun chunk : string * string =>
                 if skipped (fst chunk) then []
                 else
                   match IsDBdate E (chomp (fst chunk)) with
                   | Some d => [(d, snd chunk)]
                   | None => []
                   end) chunks)
           best).
Proof.
  induction chunks as [|[buf after] rest IH]; intros prevdate foundpos best Hinv;
    cbn [SeekDBdate_loop flat_map fst snd].
  { exists prevdate, foundpos. auto. }
  destruct (skipped buf); [now apply IH|]. cbv zeta.
  destruct (IsDBdate E (chomp buf)) as [tagdate|] eqn:Hd.
  - cbn [app fold_left].
    assert (Hc : andb (tagdate <=? date) (tagdate >=? prevdate)
                 = andb (tagdate <=? date)
                     (match best with
                      | Some b => fst b <=? tagdate
                      | None => true
                      end)).
    { f_equal. destruct best as [[d p]|]; cbn [seek_inv fst] in *.
      - destruct Hinv as [_ ->]. apply Z.geb_leb.
      - destruct Hinv as [_ ->].
        pose proof (IsDBdate_sentinel E calendar _ _ Hd).
        unfold TDatime in *. destruct (Z.geb_spec tagdate date_sentinel); [reflexivity|lia]. }
    unfold choose at 2. cbn [fst]. rewrite <- Hc.
    destruct (andb (tagdate <=? date) (tagdate >=? prevdate)).
    + apply IH. cbn. auto.
    + cbn [andb]. now apply IH.
  - rewrite errno_clear. cbn [andb app]. now apply IH.
Qed.

End SeekProperties.

(** Property X23: [SeekDBdate] either returns 0 and leaves the file where
    it was, or returns 1 and leaves it right behind one of the chunks
    that [fgets] delivers, one that is not skipped as a comment and holds
    a date tag not later than the requested date.  In the example, for a
    date behind both tags, the search that ends on tags stops at the
    configuration tag and leaves the file behind the first date tag; the
    search to the end of the file leaves it behind the second. *)
Theorem SeekDBdate_position (E : Externals) (errno_after : string -> bool)
  (bytes : string) (date : TDatime) (end_on_tag : bool) :
  (SeekDBdate E errno_after bytes date end_on_tag = (0, bytes) \/
   exists p,
     SeekDBdate E errno_after bytes date end_on_tag = (1, p) /\
     behind_date_tag E bytes date p) /\
  SeekDBdate plain_ext (fun _ => false) sections_file 20150101000000 true
    = (1, "a = 2" ++ NL ++ "[ config = left ]" ++ NL ++ "a = 3" ++ NL ++
          "[ 2010-06-15 12:00:00 ]" ++ NL ++ "a = 4" ++ NL) /\
  SeekDBdate plain_ext (fun _ => false) sections_file 20150101000000 false
    = (1, "a = 4" ++ NL) /\
  SeekDBdate plain_ext (fun _ => false) sections_file 19990101000000 true
    = (0, sections_file).
Proof.
  split; [|repeat split; reflexivity].
  unfold SeekDBdate.
  pose proof (SeekDBdate_loop_sound E errno_after bytes date end_on_tag
                (fgets_chunks bytes) date_sentinel None) as H.
  destruct (SeekDBdate_loop E errno_after date end_on_tag (fgets_chunks bytes)
              date_sentinel None) as [[p|] err]; [|now left].
  destruct err; [now left|]. right. exists p. split; [reflexivity|].
  apply H; [|discriminate|reflexivity].
  intros buf after Hin. exact (fgets_chunks_at bytes buf after Hin).
Qed.

(** Property X24: when the search is not ended by tags and [strptime]
    leaves [errno] alone, [SeekDBdate] finds the date tag with the
    greatest time stamp not later than the requested date, the last one
    of several with that stamp, wherever it stands among the other tags,
    and leaves the file right behind it; it returns 0 exactly when every
    date tag is later than the requested date. *)
Theorem SeekDBdate_latest_tag (E : Externals) (errno_after : string -> bool)
  (bytes : string) (date : TDatime) :
  calendar_fields E ->
  (forall line, errno_after line = false) ->
  match latest_assignment date (date_tags E bytes) with
  | Some c =>
      SeekDBdate E errno_after bytes date false = (1, snd c) /\
      fst c <= date /\
      exists before after,
        date_tags E bytes = (before ++ c :: after)%list /\
        Forall (fun c' => fst c' <= date -> fst c' <= fst c) before /\
        Forall (fun c' => fst c' <= date -> fst c' < fst c) after
  | None =>
      SeekDBdate E errno_after bytes date false = (0, bytes) /\
      Forall (fun c' => date < fst c') (date_tags E bytes)
  end.
Proof.
  intros Hcal Herr.
  pose proof (latest_assignment_spec date (date_tags E bytes)) as Hspec.
  destruct (SeekDBdate_loop_latest E errno_after date Hcal Herr
              (fgets_chunks bytes) date_sentinel None None (conj eq_refl eq_refl))
    as [prev' [fp' [Hloop Hinv]]].
  fold (date_tags E bytes) in Hinv.
  fold (latest_assignment date (date_tags E bytes)) in Hinv.
  unfold SeekDBdate. rewrite Hloop.
  destruct (latest_assignment date (date_tags E bytes)) as [[d p]|];
    cbn [seek_inv] in Hinv; destruct Hinv as [-> _].
  - split; [reflexivity|exact Hspec].
  - split; [reflexivity|exact Hspec].
Qed.

Lemma SeekDBdate_latest_tag_witness :
  calendar_fields plain_ext /\
  date_tags plain_ext sections_file =
    [(20000101000000, "a = 2" ++ NL ++ "[ config = left ]" ++ NL ++ "a = 3" ++ NL ++
                      "[ 2010-06-15 12:00:00 ]" ++ NL ++ "a = 4" ++ NL);
     (20100615120000, "a = 4" ++ NL)] /\
  SeekDBdate plain_ext (fun _ => false) sections_file 20050101000000 false
    = (1, "a = 2" ++ NL ++ "[ config = left ]" ++ NL ++ "a = 3" ++ NL ++
          "[ 2010-06-15 12:00:00 ]" ++ NL ++ "a = 4" ++ NL) /\
  SeekDBdate plain_ext (fun _ => false) sections_file 19990101000000 false
    = (0, sections_file).
Proof.
  split; [exact canonical_tm_calendar|]. split; [reflexivity|].
  pose proof (SeekDBdate_latest_tag plain_ext (fun _ => false) sections_file
                20050101000000 canonical_tm_calendar (fun _ => eq_refl)) as H1.
  pose proof (SeekDBdate_latest_tag plain_ext (fun _ => false) sections_file
                19990101000000 canonical_tm_calendar (fun _ => eq_refl)) as H2.
  split; [exact (proj1 H1)|exact (proj1 H2)].
Defined.

Lemma prefix_split (a s : string) :
  String.prefix a s = true -> exists b, s = a ++ b.
Proof.
  revert s. induction a as [|x a IH]; intros s; [now exists s|].
  destruct s as [|y s]; cbn [String.prefix]; [discriminate|].
  destruct (ascii_dec x y) as [->|_]; [|discriminate].
  intros H. destruct (IH s H) as [b ->]. now exists b.
Qed.

Lemma find_str_split (pat s : string) :
  forall i, find_str pat s = Some i ->
            exists a b, s = a ++ pat ++ b /\ slen a = i.
Proof.
  induction s as [|x s IH]; intros i; cbn [find_str].
  - destruct (String.prefix pat "") eqn:Hp; [|discriminate].
    intros H. inversion H. destruct (prefix_split _ _ Hp) as [b Hb].
    exists "", b. auto.
  - destruct (String.prefix pat (String x s)) eqn:Hp.
    + intros H. inversion H. destruct (prefix_split _ _ Hp) as [b Hb].
      exists "", b. auto.
    + destruct (find_str pat s) as [j|]; [|discriminate].
      intros H. inversion H. destruct (IH j eq_refl) as [a [b [Hs Ha]]].
      exists (String x a), b. cbn [append slen String.length]. rewrite Hs.
      fold (slen a). rewrite Ha. auto.
Qed.

Lemma find_char_position (c : ascii) (s : string) (i : nat) :
  find_char c s = Some i -> exists a b, s = a ++ String c b /\ slen a = i.
Proof.
  revert i. induction s as [|x s IH]; intros i; cbn [find_char]; [discriminate|].
  destruct (Ascii.eqb_spec x c) as [->|_].
  - intros H. inversion H. now exists "", s.
  - destruct (find_char c s) as [j|]; [|discriminate].
    intros H. inversion H. destruct (IH j eq_refl) as [a [b [Hs Ha]]].
    exists (String x a), b. cbn [append slen String.length]. rewrite Hs.
    fold (slen a). rewrite Ha. auto.
Qed.

Lemma SeekDBconfig_loop_sound (bytes tag _label : string) (end_on_tag : bool)
  (chunks : list (string * string)) :
  (forall buf after, In (buf, after) chunks -> chunk_at bytes buf after) ->
  forall p, SeekDBconfig_loop tag _label end_on_tag chunks = Some p ->
            behind_config_tag bytes tag _label p.
Proof.
  induction chunks as [|[buf after] rest IH]; intros Hch p;
    cbn [SeekDBconfig_loop]; [discriminate|].
  assert (Hrest : forall p, SeekDBconfig_loop tag _label end_on_tag rest = Some p ->
                            behind_config_tag bytes tag _label p).
  { apply IH. intros b a H. apply Hch. now right. }
  destruct (skipped buf) eqn:Hsk; [apply Hrest|]. cbv zeta.
  assert (Hno : (if andb end_on_tag (IsTag (chomp buf)) then None
                 else SeekDBconfig_loop tag _label end_on_tag rest) = Some p ->
                behind_config_tag bytes tag _label p).
  { destruct (andb _ _); [discriminate|apply Hrest]. }
  destruct (find_str _label (Compress (chomp buf))) as [lbrk|] eqn:Hf; [|exact Hno].
  destruct (Nat.ltb _ _); [|exact Hno].
  unfold find_char_from.
  destruct (find_str_split _ _ _ Hf) as [a [r [Hline Ha]]].
  set (line := Compress (chomp buf)) in *.
  assert (Hsub : substring (lbrk + slen _label) (slen line - (lbrk + slen _label)) line
                 = r).
  { rewrite Hline, <- Ha, <- sapp_assoc, <- slen_app, substring_skip.
    replace (slen ((a ++ _label) ++ r) - slen (a ++ _label))%nat with (slen r)
      by (rewrite (slen_app (a ++ _label) r); lia).
    apply substring_all. }
  rewrite Hsub.
  destruct (find_char "]" r) as [j|] eqn:Hj; [|apply Hrest].
  destruct (find_char_position _ _ _ Hj) as [t [b [Hr Ht]]].
  assert (Htag : substring (lbrk + slen _label) (lbrk + slen _label + j - lbrk - slen _label)
                   line = t).
  { rewrite Hline, Hr, <- Ha, <- sapp_assoc, <- slen_app, substring_skip.
    replace (slen (a ++ _label) + j - slen a - slen _label)%nat with (slen t)
      by (rewrite slen_app; lia).
    apply substring_prefix. }
  rewrite Htag.
  destruct (String.eqb_spec t tag) as [->|_]; [|apply Hrest].
  intros H. inversion H; subst p.
  pose proof (Hch buf after (or_introl eq_refl)) as Hat.
  exists buf, a, b. split; [exact Hat|]. split; [exact Hsk|].
  fold line. rewrite Hline, Hr. reflexivity.
Qed.

(** Property X26: [SeekDBconfig] either returns 0 and leaves the file
    where it was, or returns 1 and leaves it right behind a chunk read by
    [fgets] that is not skipped as a comment and, blanks removed, holds
    the label, the tag and a closing bracket in a row.  With an empty tag
    it returns 0 at once.  In the example the tag is found behind a date
    tag, unless the search is to end on tags; a tag on a comment line is
    not found. *)
Theorem SeekDBconfig_position (bytes tag label : string) (end_on_tag : bool) :
  (SeekDBconfig bytes tag label end_on_tag = (0, bytes) \/
   exists p,
     SeekDBconfig bytes tag label end_on_tag = (1, p) /\
     behind_config_tag bytes (c_str tag) (config_label label) p) /\
  (c_str tag = "" -> SeekDBconfig bytes tag label end_on_tag = (0, bytes)) /\
  SeekDBconfig sections_file "left" "config" false
    = (1, "a = 3" ++ NL ++ "[ 2010-06-15 12:00:00 ]" ++ NL ++ "a = 4" ++ NL) /\
  SeekDBconfig sections_file "right" "config" false = (0, sections_file) /\
  SeekDBconfig sections_file "left" "config" true = (0, sections_file) /\
  SeekDBconfig ("# [ config = left ]" ++ NL ++ "a = 1" ++ NL) "left" "config" false
    = (0, "# [ config = left ]" ++ NL ++ "a = 1" ++ NL).
Proof.
  split; [|split; [|split; [|split; [|split]]]]; try reflexivity.
  - unfold SeekDBconfig. destruct (is_empty (c_str tag)); [now left|].
    destruct (SeekDBconfig_loop _ _ _ _) as [p|] eqn:Hl; [|now left].
    right. exists p. split; [reflexivity|].
    apply (SeekDBconfig_loop_sound bytes _ _ end_on_tag (fgets_chunks bytes));
      [|exact Hl].
    intros buf after Hin. exact (fgets_chunks_at bytes buf after Hin).
  - intros Ht. unfold SeekDBconfig. now rewrite Ht.
Qed.

Lemma c_str_text (s : string) : count_char NUL s = O -> c_str s = s.
Proof.
  induction s as [|c s IH]; [reflexivity|]. cbn [count_char c_str].
  destruct (Ascii.eqb c NUL); [discriminate|]. intros H. now rewrite IH.
Qed.

Lemma fgets_go_text_line (line : string) :
  forall (rest : string) (k : nat) (acc : string),
    text_line line -> (slen line + k < 255)%nat ->
    fgets_go (line ++ String LF rest) k acc =
    (string_rev acc ++ line ++ NL, rest) :: fgets_go rest O "".
Proof.
  induction line as [|c l IH]; intros rest k acc Hl Hk.
  - cbn [append fgets_go]. replace (Ascii.eqb LF LF) with true by reflexivity.
    cbn [orb]. f_equal. f_equal.
    unfold string_rev at 1. cbn [string_rev_app]. apply string_rev_app_spec.
  - apply text_line_cons in Hl. destruct Hl as [H1 [_ Hl]].
    cbn [slen String.length] in Hk. fold (slen l) in Hk.
    cbn [append fgets_go]. rewrite H1.
    destruct (Nat.eqb_spec (S k) 255) as [He|_]; [lia|]. cbn [orb].
    rewrite IH by (assumption || lia). f_equal. f_equal.
    unfold string_rev at 1. cbn [string_rev_app].
    rewrite string_rev_app_spec, sapp_assoc. reflexivity.
Qed.

Lemma IsDBdate_IsTag (E : Externals) (line : string) (d : TDatime) :
  count_char NUL line = O -> IsDBdate E line = Some d -> IsTag line = true.
Proof.
  intros Hnul Hd.
  destruct (IsDBdate_shape E line d Hd) as [a [ts [b [t [Hl [Ha [Hts [Hlen _]]]]]]]].
  unfold IsTag. rewrite (c_str_text line Hnul), Hl.
  change (a ++ "[" ++ ts ++ "]" ++ b) with (a ++ String "[" (ts ++ String "]" b)).
  rewrite (skip_to_char_app "[" a _ Ha).
  destruct ts as [|c ts]; [cbn in Hlen; lia|]. cbn [append].
  cbn [count_char] in Hts.
  destruct (Ascii.eqb c "]"); [discriminate|].
  cbn [Nat.add] in Hts.
  now rewrite (skip_to_char_app "]" ts b Hts).
Qed.

(** Property X25: with [end_on_tag] set, the search of [SeekDBdate] ends
    at the first date tag later than the requested date as well, since
    [IsTag] holds of every date tag: when such a tag stands on the first
    line, 0 is returned and the file is left where it was, whatever date
    tags follow.  (The comment above the function has the search end
    "at the next non-date tag".) *)
Theorem SeekDBdate_ends_on_later_date_tag (E : Externals)
  (errno_after : string -> bool) (line rest : string) (date d : TDatime) :
  text_line line -> (slen line < 255)%nat -> front line <> Some "#"%char ->
  IsDBdate E line = Some d -> date < d ->
  SeekDBdate E errno_after (line ++ NL ++ rest) date true
  = (0, line ++ NL ++ rest).
Proof.
  intros Hl Hlen Hfront Hd Hlt.
  assert (Hnul : count_char NUL (line ++ NL) = O).
  { rewrite count_char_app. destruct Hl as [_ ->]. reflexivity. }
  assert (Hchomp : chomp (line ++ NL) = line).
  { unfold chomp. rewrite (c_str_text _ Hnul). cbv zeta.
    change (line ++ NL) with (push_back line LF).
    rewrite back_push_back, pop_back_push_back.
    cbn [opt_ascii_eqb]. now rewrite Ascii.eqb_refl. }
  assert (Hshape := IsDBdate_shape E line d Hd).
  destruct Hshape as [a [ts [b [t [Hline [_ [_ [Hts _]]]]]]]].
  assert (Hlong : (13 <= slen line)%nat).
  { rewrite Hline, !slen_app. cbn [slen String.length]. unfold slen in *. lia. }
  assert (Hskip : skipped (line ++ NL) = false).
  { unfold skipped. rewrite (c_str_text _ Hnul).
    apply orb_false_iff. split.
    - apply Nat.ltb_ge. rewrite slen_app. lia.
    - destruct line as [|c l]; [cbn in Hlong; lia|]. cbn [append front opt_ascii_eqb].
      apply Ascii.eqb_neq. intros ->. now apply Hfront. }
  unfold SeekDBdate, fgets_chunks.
  change (line ++ NL ++ rest) with (line ++ String LF rest).
  rewrite (fgets_go_text_line line rest O "" Hl) by lia.
  cbn [string_rev string_rev_app append SeekDBdate_loop].
  rewrite Hskip, Hchomp, Hd.
  destruct (Z.leb_spec d date); [unfold TDatime in *; lia|]. cbn [andb].
  rewrite (IsDBdate_IsTag E line d (proj2 Hl) Hd). reflexivity.
Qed.

Lemma SeekDBdate_ends_on_later_date_tag_witness :
  text_line "[ 2010-06-15 12:00:00 ]" /\
  (slen "[ 2010-06-15 12:00:00 ]" < 255)%nat /\
  front "[ 2010-06-15 12:00:00 ]" <> Some "#"%char /\
  IsDBdate plain_ext "[ 2010-06-15 12:00:00 ]" = Some 20100615120000 /\
  20050101000000 < 20100615120000 /\
  SeekDBdate plain_ext (fun _ => false)
    ("[ 2010-06-15 12:00:00 ]" ++ NL ++ "[ 2000-01-01 00:00:00 ]" ++ NL)
    20050101000000 true
  = (0, "[ 2010-06-15 12:00:00 ]" ++ NL ++ "[ 2000-01-01 00:00:00 ]" ++ NL) /\
  SeekDBdate plain_ext (fun _ => false)
    ("[ 2010-06-15 12:00:00 ]" ++ NL ++ "[ 2000-01-01 00:00:00 ]" ++ NL)
    20050101000000 false
  = (1, "").
Proof.
  assert (H1 : text_line "[ 2010-06-15 12:00:00 ]") by (split; reflexivity).
  assert (H2 : (slen "[ 2010-06-15 12:00:00 ]" < 255)%nat) by (cbn; lia).
  assert (H3 : front "[ 2010-06-15 12:00:00 ]" <> Some "#"%char) by discriminate.
  assert (H4 : IsDBdate plain_ext "[ 2010-06-15 12:00:00 ]" = Some 20100615120000)
    by reflexivity.
  assert (H5 : 20050101000000 < 20100615120000) by lia.
  repeat (split; [assumption|]).
  split; [|reflexivity].
  exact (SeekDBdate_ends_on_later_date_tag plain_ext (fun _ => false)
           "[ 2010-06-15 12:00:00 ]" ("[ 2000-01-01 00:00:00 ]" ++ NL)
           20050101000000 20100615120000 H1 H2 H3 H4 H5).
Defined.

Lemma find_char_absent (c : ascii) (s : string) :
  count_char c s = O -> find_char c s = None.
Proof.
  induction s as [|x s IH]; [reflexivity|]. cbn [count_char find_char].
  destruct (Ascii.eqb x c); [discriminate|]. intros H. now rewrite IH.
Qed.

Lemma map_string_no_tab (s : string) :
  count_char TAB s = O -> map_string tab_to_space s = s.
Proof.
  induction s as [|x s IH]; [reflexivity|]. cbn [count_char map_string].
  unfold tab_to_space at 1. destruct (Ascii.eqb x TAB); [discriminate|].
  intros H. now rewrite IH.
Qed.

Lemma skip_while_front (p : ascii -> bool) (s : string) :
  match front s with Some c => p c = false | None => True end ->
  skip_while p s = s.
Proof. destruct s as [|c s]; [reflexivity|]. cbn. now intros ->. Qed.

Lemma drop_trailing_back (p : ascii -> bool) (s : string) :
  match back s with Some c => p c = false | None => True end ->
  drop_trailing p s = s.
Proof.
  intros H. unfold drop_trailing. unfold back in H.
  rewrite (skip_while_front p (string_rev s) H). apply string_rev_involutive.
Qed.

Lemma front_app (a b : string) : a <> "" -> front (a ++ b) = front a.
Proof. destruct a; [congruence|reflexivity]. Qed.

Lemma not_space_not_blank (c : option ascii) :
  opt_isspace c = false ->
  match c with Some c => is_blank c = false | None => True end.
Proof.
  destruct c as [c|]; [|auto]. cbn. unfold is_blank, isspace, SP, chr.
  destruct (Ascii.eqb_spec c " ") as [->|_]; [discriminate|reflexivity].
Qed.

Section RoundTrip.

Variable E : Externals.
Variables key txt : string.
Hypothesis no_textvars : Substitute E = None.
Hypothesis key_plain : plain_text key.
Hypothesis key_no_eq : count_char "=" key = O.
Hypothesis txt_plain : plain_text txt.

Lemma assignment_line_counts (c : ascii) :
  count_char c key = O -> count_char c " = " = O -> count_char c txt = O ->
  count_char c (assignment_line key txt) = O.
Proof.
  intros H1 H2 H3. unfold assignment_line.
  rewrite !count_char_app, H1, H2, H3. reflexivity.
Qed.

Lemma assignment_line_front : front (assignment_line key txt) = front key.
Proof. unfold assignment_line. apply front_app. apply key_plain. Qed.

Lemma assignment_line_back : back (assignment_line key txt) = back txt.
Proof.
  unfold assignment_line. rewrite back_app; [apply back_app; apply txt_plain|].
  destruct txt; discriminate.
Qed.

Lemma assignment_file_lines :
  GetLines (assignment_file key txt) = [assignment_line key txt].
Proof.
  destruct key_plain as [_ [K1 [K2 [K3 _]]]].
  destruct txt_plain as [_ [T1 [T2 [T3 _]]]].
  unfold assignment_file, GetLines.
  replace (key ++ " = " ++ txt ++ NL)
    with (join_lines [assignment_line key txt] ++ "").
  - rewrite GetLines_go_lines.
    + cbn [map is_empty app].
      rewrite map_string_no_tab; [reflexivity|].
      now apply assignment_line_counts.
    + constructor; [|constructor]. split; now apply assignment_line_counts.
    + split; reflexivity.
  - cbn [join_lines]. unfold assignment_line.
    rewrite !app_empty_r, !sapp_assoc. reflexivity.
Qed.

Lemma assignment_line_prepared :
  prepare_line (assignment_line key txt)
  = mk_prepared (assignment_line key txt) false false false false.
Proof.
  destruct key_plain as [Kne [_ [_ [_ [K4 [K5 [K6 _]]]]]]].
  destruct txt_plain as [_ [_ [_ [_ [T4 [T5 [_ T7]]]]]]].
  unfold prepare_line.
  assert (Hne : is_empty (assignment_line key txt) = false).
  { unfold assignment_line. destruct key; [congruence|reflexivity]. }
  rewrite Hne.
  rewrite (find_char_absent "#" (assignment_line key txt))
    by (now apply assignment_line_counts).
  rewrite (find_char_absent "\" (assignment_line key txt))
    by (now apply assignment_line_counts).
  rewrite Hne. cbv zeta.
  rewrite assignment_line_front, assignment_line_back, K6, T7. reflexivity.
Qed.

Lemma assignment_line_eq_pos :
  find_char "=" (assignment_line key txt) = Some (slen key + 1)%nat.
Proof.
  unfold assignment_line.
  change (key ++ " = " ++ txt) with (key ++ (" " ++ String "=" (" " ++ txt))).
  rewrite <- sapp_assoc.
  rewrite find_char_app; [now rewrite slen_app|].
  rewrite count_char_app, key_no_eq. reflexivity.
Qed.

Lemma assignment_line_is_assignment : IsAssignment (assignment_line key txt) = true.
Proof.
  destruct key_plain as [Kne [_ [_ [_ [_ [_ [K6 _]]]]]]].
  unfold IsAssignment. rewrite assignment_line_eq_pos.
  assert (Hskip : skip_while isspace (assignment_line key txt)
                  = assignment_line key txt).
  { apply skip_while_front. rewrite assignment_line_front.
    destruct (front key); [exact K6|exact I]. }
  rewrite Hskip, Nat.sub_diag.
  destruct (Nat.eqb_spec 0 (slen key + 1)); [lia|].
  replace (slen key + 1 - 1)%nat with (slen key) by lia.
  assert (Hprev : String.get (slen key) (assignment_line key txt)
                  = Some " "%char).
  { unfold assignment_line.
    change (key ++ " = " ++ txt) with (key ++ String " " ("= " ++ txt)).
    clear. induction key as [|x k IH]; [reflexivity|exact IH]. }
  assert (Hnext : String.get (slen key + 1 + 1) (assignment_line key txt)
                  = Some " "%char).
  { unfold assignment_line. replace (slen key + 1 + 1)%nat with (slen (key ++ " =")).
    - change (key ++ " = " ++ txt) with (key ++ (" =" ++ String " " txt)).
      rewrite <- sapp_assoc. generalize (key ++ " ="). clear.
      intros a. induction a as [|x a IH]; [reflexivity|exact IH].
    - rewrite slen_app. cbn [slen String.length]. lia. }
  rewrite Hprev, Hnext. cbn. rewrite andb_false_r. reflexivity.
Qed.

Lemma assignment_file_logical_lines :
  ReadDBlines (S (List.length (GetLines (assignment_file key txt))))
    (GetLines (assignment_file key txt)) = [assignment_line key txt].
Proof.
  rewrite assignment_file_lines. cbn [List.length ReadDBlines].
  assert (Hbody : ReadDBline_body (assignment_line key txt) "" false
                  = Next (push_back (assignment_line key txt) SP) true).
  { unfold ReadDBline_body. rewrite assignment_line_prepared.
    cbn [p_linbuf p_continued p_comment p_leading_space p_trailing_space is_empty].
    assert (Hne : is_empty (assignment_line key txt) = false).
    { unfold assignment_line. destruct key_plain as [Kne _].
      destruct key; [congruence|reflexivity]. }
    rewrite Hne, assignment_line_is_assignment. reflexivity. }
  assert (Hread : ReadDBline [assignment_line key txt]
                  = (0, assignment_line key txt, [])).
  { unfold ReadDBline. cbn [ReadDBline_loop]. rewrite Hbody.
    rewrite back_push_back. cbn [opt_isspace]. 
    replace (isspace SP) with true by reflexivity.
    now rewrite pop_back_push_back. }
  rewrite Hread. reflexivity.
Qed.

Lemma assignment_line_key (value0 : string) :
  IsDBkey (assignment_line key txt) key value0 = (1, txt).
Proof.
  destruct key_plain as [Kne [K1 [_ [_ [_ [_ [K6 K7]]]]]]].
  destruct txt_plain as [_ [T1 [_ [_ [_ [_ [T6 _]]]]]]].
  pose proof (IsDBkey_spec (assignment_line key txt) key value0) as H.
  assert (Hc : c_str (assignment_line key txt) = assignment_line key txt).
  { apply c_str_text. now apply assignment_line_counts. }
  rewrite Hc, assignment_line_eq_pos in H. cbv zeta in H.
  assert (He : erase_from (slen key + 1) (assignment_line key txt) = key ++ " ").
  { unfold erase_from, assignment_line.
    change (key ++ " = " ++ txt) with (key ++ (" " ++ "= " ++ txt)).
    rewrite <- sapp_assoc.
    replace (slen key + 1)%nat with (slen (key ++ " "))
      by (rewrite slen_app; reflexivity).
    apply substring_prefix. }
  assert (Hr : substr_from (S (slen key + 1)) (assignment_line key txt) = " " ++ txt).
  { unfold substr_from, assignment_line.
    change (key ++ " = " ++ txt) with (key ++ (" =" ++ " " ++ txt)).
    rewrite <- sapp_assoc.
    replace (S (slen key + 1)) with (slen (key ++ " ="))
      by (rewrite slen_app; cbn [slen String.length]; lia).
    rewrite substring_skip.
    replace (slen ((key ++ " =") ++ " " ++ txt) - slen (key ++ " ="))%nat
      with (slen (" " ++ txt)) by (rewrite (slen_app (key ++ " =")); lia).
    apply substring_all. }
  assert (Hlhs : drop_trailing is_blank (skip_while is_blank (key ++ " ")) = key).
  { rewrite skip_while_front.
    - unfold drop_trailing. change (key ++ " ") with (push_back key " ").
      rewrite string_rev_push_back. cbn [skip_while is_blank].
      replace (Ascii.eqb " " SP) with true by reflexivity.
      rewrite skip_while_front; [apply string_rev_involutive|].
      apply (not_space_not_blank (back key) K7).
    - rewrite front_app by assumption. apply (not_space_not_blank (front key) K6). }
  rewrite He, Hr, Hlhs in H.
  assert (Hv : skip_while is_blank (" " ++ txt) = txt).
  { cbn [append skip_while is_blank].
    replace (Ascii.eqb " " SP) with true by reflexivity.
    apply skip_while_front. apply (not_space_not_blank (front txt) T6). }
  rewrite Hv in H.
  destruct H as [[_ [_ H]]|[[H|H] _]]; [exact H|contradiction|].
  exfalso. apply H. exists "". rewrite app_empty_r. now apply c_str_text.
Qed.

Lemma assignment_file_value (date : TDatime) (value0 : string) :
  LoadDBvalue E (assignment_file key txt) date key value0 = (0, txt).
Proof.
  unfold LoadDBvalue, scan_lines. rewrite assignment_file_logical_lines.
  assert (Hne : is_empty (assignment_line key txt) = false).
  { unfold assignment_line. destruct key_plain as [Kne _].
    destruct key; [congruence|reflexivity]. }
  cbn [filter]. rewrite Hne. cbn [negb flat_map]. unfold expand.
  rewrite no_textvars. cbn [app fold_left]. unfold scan_line.
  cbn [initial_scan do_ignore value keydate found prevdate].
  rewrite assignment_line_key. reflexivity.
Qed.

End RoundTrip.

(** Property X27: round trip through a file: when the file consists of
    the line [key = txt], for a key without ['='] and with key and text
    such that the line reader leaves them as they are (not empty, no
    NUL, newline, tab, ['#'] or backslash, no white space at the ends),
    [LoadDBvalue] finds the key at every date and hands back exactly
    [txt], and [LoadDBvalue<T>] hands back what [txt] converts to; a text
    of decimal digits whose value [T] can hold is read back as that
    value. *)
Theorem LoadDBvalue_round_trip (E : Externals) (key txt : string) :
  Substitute E = None ->
  plain_text key -> count_char "=" key = O -> plain_text txt ->
  forall date : TDatime,
    (forall value0, LoadDBvalue E (assignment_file key txt) date key value0
                    = (0, txt)) /\
    (forall T, LoadDBvalue_num E T (assignment_file key txt) date key
               = convert_value E T txt) /\
    (forall T, is_floating_point T = false ->
               all_chars isdigit txt = true -> decimal txt 0 <= max_T T ->
               LoadDBvalue_num E T (assignment_file key txt) date key
               = (0, Some (NInt E (decimal txt 0)))).
Proof.
  intros HS Hk Heq Ht date.
  pose proof (assignment_file_value E key txt HS Hk Heq Ht date) as HL.
  assert (Hnum : forall T, LoadDBvalue_num E T (assignment_file key txt) date key
                           = convert_value E T txt).
  { intros T. unfold LoadDBvalue_num. rewrite HL. reflexivity. }
  split; [exact HL|]. split; [exact Hnum|].
  intros T HT Hd Hmax. rewrite Hnum.
  assert (Hint : integer_text txt (decimal txt 0) "").
  { exists "", "", txt. rewrite app_empty_r. cbn [append all_chars String.eqb].
    repeat split; auto. apply Ht. }
  destruct (scan_int_complete txt (decimal txt 0) "" Hint) as [neg [m [Hs [Hv Hneg]]]].
  assert (Hpos : neg = false).
  { destruct neg; [|reflexivity].
    destruct (scan_int_sound txt true m "" Hs) as [_ [_ Hst]].
    specialize (Hst eq_refl). unfold starts_negative in Hst.
    destruct Ht as [_ [_ [_ [_ [_ [_ [Hf _]]]]]]].
    destruct txt as [|c r]; [discriminate|].
    cbn [front opt_isspace] in Hf. cbn [skip_while] in Hst. rewrite Hf in Hst.
    apply Ascii.eqb_eq in Hst. subst c. discriminate. }
  subst neg.
  pose proof (decimal_nonneg txt 0 Hd ltac:(lia)) as H0.
  destruct (int_limits T HT) as [Hsig Huns].
  destruct (is_unsigned T) eqn:Hu.
  - rewrite (convert_value_unsigned E T txt HT Hu), Hs. cbv zeta.
    destruct (Huns eq_refl) as [_ Hmx]. cbn [junk_at_end negb andb].
    destruct (Z.leb_spec m ULLONG_MAX); [|lia].
    destruct (Z.leb_spec m (max_T T)); [|lia]. cbn [andb]. now subst.
  - rewrite (convert_value_signed E T txt HT Hu), Hs. cbv zeta.
    destruct (Hsig eq_refl) as [Hmn _]. cbn [junk_at_end negb andb].
    assert (min_T T <= 0) by (unfold min_T; rewrite Hu; destruct T; cbn; lia).
    destruct (Z.leb_spec (min_T T) m); [|lia].
    destruct (Z.leb_spec m (max_T T)); [|lia]. cbn [andb]. now subst.
Qed.

Lemma LoadDBvalue_round_trip_witness :
  Substitute plain_ext = None /\ plain_text "L.vdc.nw" /\
  count_char "=" "L.vdc.nw" = O /\ plain_text "368" /\
  LoadDBvalue plain_ext (assignment_file "L.vdc.nw" "368") 20150101000000
    "L.vdc.nw" "" = (0, "368") /\
  LoadDBvalue_num plain_ext TInt (assignment_file "L.vdc.nw" "368")
    20150101000000 "L.vdc.nw" = (0, Some (NInt plain_ext 368)).
Proof.
  assert (Hk : plain_text "L.vdc.nw").
  { split; [discriminate|]. repeat split. }
  assert (Ht : plain_text "368").
  { split; [discriminate|]. repeat split. }
  split; [reflexivity|]. split; [exact Hk|]. split; [reflexivity|].
  split; [exact Ht|].
  destruct (LoadDBvalue_round_trip plain_ext "L.vdc.nw" "368" eq_refl Hk eq_refl Ht
              20150101000000) as [H1 [_ H3]].
  split; [exact (H1 "")|].
  apply (H3 TInt eq_refl eq_refl). vm_compute. discriminate.
Defined.

Lemma open_first_spec (fopen : string -> bool) (fnames : list string) :
  match open_first fopen fnames with
  | Some f =>
      exists before after,
        fnames = (before ++ f :: after)%list /\ fopen (c_str f) = true /\
        Forall (fun g => fopen (c_str g) = false) before
  | None => Forall (fun g => fopen (c_str g) = false) fnames
  end.
Proof.
  induction fnames as [|f rest IH]; cbn [open_first]; [constructor|].
  destruct (fopen (c_str f)) eqn:Hf.
  - exists [], rest. auto.
  - destruct (open_first fopen rest) as [g|].
    + destruct IH as [before [after [-> [Hg Hb]]]].
      exists (f :: before), after. auto.
    + now constructor.
Qed.

Lemma c_str_app (a b : string) :
  c_str a = a -> c_str b = b -> c_str (a ++ b) = a ++ b.
Proof.
  induction a as [|x a IH]; intros Ha Hb; [exact Hb|].
  cbn [c_str append] in *. destruct (Ascii.eqb x NUL); [discriminate|].
  injection Ha as Ha. now rewrite IH.
Qed.

Lemma c_str_db_filename (name : string) :
  c_str name = name -> c_str (db_filename name) = db_filename name.
Proof.
  intros Hn.
  assert (Hp : c_str (db_prefixed name) = db_prefixed name).
  { unfold db_prefixed. destruct (negb _); [|assumption].
    now apply (c_str_app "db_" name). }
  unfold db_filename. destruct (opt_ascii_eqb _ _).
  - now apply c_str_app.
  - destruct (negb _); [now apply c_str_app|assumption].
Qed.

(** Property X22: the file that [OpenDBFile] returns is open on the
    first candidate of [GetDBFileList] that [fopen] can open; the null
    pointer is returned exactly when none can be opened.  So a name with
    a slash is opened as it stands or not at all, and a file
    [db_<name>.dat] in the current directory is taken before any file in
    the database directories. *)
Theorem OpenDBFile_first_candidate (sys : TSystem) (fopen : string -> bool)
  (name : string) (date : TDatime) :
  match OpenDBFile sys fopen name date with
  | Some opened =>
      exists before f after,
        GetDBFileList sys name date = (before ++ f :: after)%list /\
        opened = c_str f /\ fopen opened = true /\
        Forall (fun g => fopen (c_str g) = false) before
  | None => Forall (fun g => fopen (c_str g) = false) (GetDBFileList sys name date)
  end /\
  (c_str name = name ->
   (forall i, find_char "/" name = Some i ->
      OpenDBFile sys fopen name date = if fopen name then Some name else None) /\
   (forall dir entries,
      name <> "" -> find_char "/" name = None ->
      first_open sys (search_dirs sys) = Some (dir, entries) ->
      (4 <= slen (db_prefixed name))%nat ->
      fopen (db_filename name) = true ->
      OpenDBFile sys fopen name date = Some (db_filename name))).
Proof.
  split.
  - unfold OpenDBFile. destruct (is_empty (c_str name)) eqn:He.
    + unfold GetDBFileList. rewrite He. constructor.
    + pose proof (open_first_spec fopen (GetDBFileList sys name date)) as H.
      destruct (open_first fopen (GetDBFileList sys name date)) as [f|];
        [|exact H].
      destruct H as [before [after [Hl [Hf Hb]]]]. exists before, f, after. auto.
  - intros Hn. split.
    + intros i Hi. unfold OpenDBFile, GetDBFileList. rewrite Hn.
      destruct name as [|c r]; [discriminate|]. cbn [is_empty]. rewrite Hi.
      cbn [open_first]. rewrite Hn. destruct (fopen (String c r)); [|reflexivity].
      now rewrite Hn.
    + intros dir entries Hne Hslash Hopen Hlen Hf.
      unfold OpenDBFile, GetDBFileList. rewrite Hn.
      destruct name as [|c r]; [congruence|]. cbn [is_empty].
      rewrite Hslash, Hopen.
      destruct (Nat.ltb_spec (slen (db_prefixed (String c r))) 4); [lia|].
      cbn [open_first app].
      rewrite (c_str_db_filename (String c r) Hn), Hf.
      now rewrite (c_str_db_filename (String c r) Hn).
Qed.

Lemma find_str_scope (cls meth : string) :
  count_char ":" cls = O ->
  find_str "::" (cls ++ String ":" (String ":" meth)) = Some (slen cls).
Proof.
  induction cls as [|x cls IH]; intros Hc.
  - cbn [append]. destruct meth; reflexivity.
  - cbn [count_char] in Hc.
    destruct (Ascii.eqb_spec x ":") as [->|Hx]; [discriminate|].
    cbn [append]. cbn [find_str String.prefix].
    destruct (ascii_dec ":" x) as [<-|_]; [contradiction|].
    rewrite (IH Hc). reflexivity.
Qed.

(** Property X29: [Here] sets the prefix, without a trailing dot and
    between [("] and [")], in front of the [::] of a method name of the
    form [Class::method] whose class name has no colon, which gives
    [Class("prefix")::method]; without a prefix the method name is
    returned as it is. *)
Theorem Here_scoped_method (cls meth p : string) :
  c_str cls = cls -> c_str meth = meth -> c_str p = p ->
  count_char ":" cls = O -> p <> "" ->
  Here (Some (cls ++ "::" ++ meth)) (Some p) =
    cls ++ String "(" (String QUOTE "") ++
    (if opt_ascii_eqb (back p) "." then pop_back p else p) ++
    String QUOTE (String ")" "") ++ "::" ++ meth /\
  Here (Some (cls ++ "::" ++ meth)) None = cls ++ "::" ++ meth /\
  Here (Some (cls ++ "::" ++ meth)) (Some "") = cls ++ "::" ++ meth.
Proof.
  intros Hcls Hmeth Hp Hcolon Hne.
  assert (Hm : c_str (cls ++ "::" ++ meth) = cls ++ "::" ++ meth).
  { apply c_str_app; [assumption|]. now apply (c_str_app "::" meth). }
  unfold Here. rewrite Hm, Hp. cbn [c_str is_empty].
  split; [|split; reflexivity].
  apply is_empty_false in Hne. rewrite Hne.
  assert (Hme : is_empty (cls ++ "::" ++ meth) = false).
  { destruct cls; reflexivity. }
  rewrite Hme.
  change (find_str "::" (cls ++ "::" ++ meth))
    with (find_str "::" (cls ++ String ":" (String ":" meth))).
  rewrite (find_str_scope cls meth Hcolon). cbv zeta.
  rewrite (substring_prefix cls ("::" ++ meth)).
  unfold substr_from. rewrite substring_skip.
  replace (slen (cls ++ "::" ++ meth) - slen cls)%nat with (slen ("::" ++ meth))
    by (rewrite (slen_app cls); lia).
  rewrite substring_all, !sapp_assoc. reflexivity.
Qed.

Lemma Here_scoped_method_witness :
  c_str "THaVDC" = "THaVDC" /\ c_str "ReadDatabase" = "ReadDatabase" /\
  c_str "L.vdc." = "L.vdc." /\ count_char ":" "THaVDC" = O /\ "L.vdc." <> "" /\
  Here (Some "THaVDC::ReadDatabase") (Some "L.vdc.") =
    "THaVDC(" ++ String QUOTE "L.vdc" ++ String QUOTE ")::ReadDatabase".
Proof.
  assert (Hne : "L.vdc." <> "") by discriminate.
  repeat (split; [reflexivity|]). split; [exact Hne|].
  exact (proj1 (Here_scoped_method "THaVDC" "ReadDatabase" "L.vdc."
                  eq_refl eq_refl eq_refl eq_refl Hne)).
Defined.
